(** * The collaboration relay server (server/websocket-server.ts)

    A shallow embedding of [CollaborativeServer]: the message codec
    ([createMessage], [parseMessage]), the room registry ([joinRoom],
    [leaveRoom]), the inbound dispatch ([handleMessage] and its four
    handlers) and the heartbeat sweep ([startHeartbeat]), followed by the
    properties the specification states about them. *)

From Stdlib Require Import ZArith Floats.
From stdpp Require Import base option list gmap strings.

Open Scope string_scope.
Open Scope list_scope.

(** ** JavaScript values on the wire *)

(** A JavaScript number is a binary64 float. *)
Abbreviation number := float.

(** The values [JSON.parse] produces. An object is the list of its own
    properties in enumeration order; [JSON.parse] keeps one entry per key. *)
#[local] Unset Elimination Schemes.
Inductive json : Type :=
  | JNull
  | JBool (b : bool)
  | JNum (x : number)
  | JStr (s : string)
  | JArr (elems : list json)
  | JObj (props : list (string * json)).
#[local] Set Elimination Schemes.

(** [Uint8Array]. *)
Abbreviation Uint8Array := (list Byte.byte).

(** What [message.data] can hold inside the server: [undefined] (the frame
    has no [data] property), a [Uint8Array], or a value made by
    [JSON.parse]. *)
Inductive payload : Type :=
  | PUndefined
  | PBytes (bytes : Uint8Array)
  | PValue (v : json).

(** What a call can throw: the [SyntaxError] of [JSON.parse], the
    [TypeError] of the language, and any other exception ([OtherError]),
    such as those a library raises. *)
Inductive error : Type :=
  | SyntaxError
  | TypeError
  | OtherError.

Inductive result (A : Type) : Type :=
  | Ok (a : A)
  | Throw (e : error).
Arguments Ok {A} a.
Arguments Throw {A} e.

(** A [Buffer] received from or handed to a socket is identified with what
    [JSON.parse(data.toString())] makes of it: either the parser rejects
    the text, or it yields a value. *)
Inductive Buffer : Type :=
  | Malformed
  | Text (v : json).

Definition JSON_parse (data : Buffer) : result json :=
  match data with
  | Malformed => Throw SyntaxError
  | Text v => Ok v
  end.

(** [o[key]] on an object made by [JSON.parse]: [None] is [undefined]. *)
Fixpoint get (key : string) (props : list (string * json)) : option json :=
  match props with
  | [] => None
  | (k, v) :: rest => if String.eqb k key then Some v else get key rest
  end.

(** What a value reads as after [JSON.stringify] and [JSON.parse]:
    [NaN] and the infinities are written [null], negative zero is written
    [0], everything else is written so that it parses back to itself. *)
Fixpoint wire (v : json) : json :=
  match v with
  | JNum x =>
      if PrimFloat.is_nan x || PrimFloat.is_infinity x then JNull
      else if PrimFloat.is_zero x && PrimFloat.get_sign x then JNum PrimFloat.zero
      else JNum x
  | JArr elems => JArr (map wire elems)
  | JObj props => JObj (map (fun '(k, x) => (k, wire x)) props)
  | _ => v
  end.

(** [JSON.stringify] of an object literal: a property whose value is
    [undefined] is left out. *)
Definition JSON_stringify (props : list (string * option json)) : Buffer :=
  Text (JObj (omap (fun '(k, o) => match o with
                                   | Some v => Some (k, wire v)
                                   | None => None
                                   end) props)).

(** The number a byte reads as ([Array.from] on a [Uint8Array]). *)
Definition byte_to_number (b : Byte.byte) : number :=
  PrimFloat.of_uint63 (Uint63.of_Z (Z.of_N (Byte.to_N b))).

Definition Array_from (bytes : Uint8Array) : list json :=
  map (fun b => JNum (byte_to_number b)) bytes.

(** ECMAScript [ToUint8]: [NaN], the zeros and the infinities give 0; any
    other number is truncated toward zero and reduced modulo 256. *)
Definition ToUint8 (x : number) : Byte.byte :=
  match Prim2SF x with
  | S754_finite s m e =>
      let mag := if (0 <=? e)%Z then (Z.pos m * 2 ^ e)%Z
                 else Z.shiftr (Z.pos m) (- e) in
      let int := if s then (- mag)%Z else mag in
      default Byte.x00 (Byte.of_N (Z.to_N (int mod 256)))
  | _ => Byte.x00
  end.

(** What the server takes from its host. ECMAScript [ToNumber] on a
    string, an array or an object ([StringToNumber], [OrdinaryToPrimitive])
    is not modelled: [ToNumber_ext] stands for it, [None] being the
    [TypeError] an object without a callable [valueOf] and [toString]
    raises. [Date_now n] is what the [n]-th call of [Date.now()] returns. *)
Class Host : Type := {
  ToNumber_ext : json → option number;
  Date_now : nat → number;
}.

Section Codec.

Context `{Host}.

Definition ToNumber (v : json) : result number :=
  match v with
  | JNull => Ok PrimFloat.zero
  | JBool b => Ok (if b then PrimFloat.one else PrimFloat.zero)
  | JNum x => Ok x
  | _ => match ToNumber_ext v with
         | Some x => Ok x
         | None => Throw TypeError
         end
  end.

(** [new Uint8Array(array)]: every element goes through [ToNumber] and
    [ToUint8], in order; the first exception aborts the construction. *)
Fixpoint new_Uint8Array (elems : list json) : result Uint8Array :=
  match elems with
  | [] => Ok []
  | v :: rest =>
      match ToNumber v with
      | Throw e => Throw e
      | Ok x =>
          match new_Uint8Array rest with
          | Throw e => Throw e
          | Ok bytes => Ok (ToUint8 x :: bytes)
          end
      end
  end.

(** The two properties of a parsed message the server reads. [type] is
    [None] when [message.type] is [undefined]. *)
Record Message : Type := mkMessage {
  type : option json;
  data : payload;
}.

Definition createMessage (type : string) (data : payload) (now : number)
  : Buffer :=
  JSON_stringify
    [ ("type", Some (JStr type));
      ("data", match data with
               | PBytes bytes => Some (JArr (Array_from bytes))
               | PValue v => Some v
               | PUndefined => None
               end);
      ("timestamp", Some (JNum now)) ].

Definition parseMessage (data : Buffer) : result Message :=
  match JSON_parse data with
  | Throw e => Throw e
  | Ok message =>
      match message with
      | JNull => Throw TypeError
      | JObj props =>
          match get "data" props with
          | Some (JArr elems) =>
              match new_Uint8Array elems with
              | Throw e => Throw e
              | Ok bytes => Ok (mkMessage (get "type" props) (PBytes bytes))
              end
          | Some v => Ok (mkMessage (get "type" props) (PValue v))
          | None => Ok (mkMessage (get "type" props) PUndefined)
          end
      | _ => Ok (mkMessage None PUndefined)
      end
  end.

End Codec.

(** ** The replicated-document library *)

(** Modelled from the spec: the Yjs library ([Y.Doc], [Y.applyUpdate],
    [Y.encodeStateAsUpdate], [Y.encodeStateVector]) is not part of the
    repository; the relay treats its operations as side-effect-local black
    boxes and never inspects documents or updates. [new_Doc n] is the
    [n]-th document the process creates (a new document draws a random
    client id). [Y.applyUpdate] decodes the bytes it is handed and throws
    on bytes it cannot decode: [applyUpdate_throws d u] is what the call
    throws on the document [d], [None] when it returns, and
    [applyUpdate d u] is the document the call leaves behind, whether it
    returns or throws. *)
Class Yjs : Type := {
  Doc : Type;
  new_Doc : nat → Doc;
  applyUpdate : Doc → Uint8Array → Doc;
  applyUpdate_throws : Doc → Uint8Array → option error;
  encodeStateAsUpdate : Doc → Uint8Array;
  encodeStateVector : Doc → Uint8Array;
}.

(** ** Server state *)

(** Objects are referred to by their position in a heap. *)
Abbreviation WsRef := nat.
Abbreviation DocRef := nat.

Inductive ReadyState : Type :=
  | CONNECTING
  | OPEN
  | CLOSING
  | CLOSED.

#[global] Instance ReadyState_eq_dec : EqDecision ReadyState.
Proof. solve_decision. Defined.

(** [interface ExtendedWebSocket]: the optional fields the server adds to a
    socket ([None] is [undefined]) and the socket's own [readyState]. *)
Record ExtendedWebSocket : Type := mkSocket {
  isAlive : option bool;
  userId : option string;
  roomId : option string;
  ws_doc : option DocRef;
  readyState : ReadyState;
}.

(** [interface RoomData]. A JavaScript [Set] iterates in insertion order and
    holds an element once: it is a duplicate-free list. *)
Record RoomData : Type := mkRoom {
  doc : DocRef;
  clients : list WsRef;
}.

Definition Set_add (x : WsRef) (s : list WsRef) : list WsRef :=
  if decide (x ∈ s) then s else s ++ [x].

Definition Set_delete (x : WsRef) (s : list WsRef) : list WsRef :=
  filter (λ y, y ≠ x) s.

(** What the server writes with [console.log], [console.warn] and
    [console.error]. *)
Inductive Console : Type :=
  | NewClientConnected
  | CreatedNewRoom (roomId : string)
  | ClientJoinedRoom (roomId : string) (size : nat)
  | ClientLeftRoom (roomId : string) (size : nat)
  | EmptyRoomDeleted (roomId : string)
  | ClientDisconnected
  | WebSocketError
  | UnknownMessageType (type : option json)
  | ErrorHandlingMessage (e : error)
  | TerminatingDeadConnection.

(** The calls the server makes on a socket, and its console output, in the
    order they happen. *)
Inductive Effect : Type :=
  | Send (ws : WsRef) (frame : Buffer)
  | Ping (ws : WsRef)
  | Terminate (ws : WsRef)
  | Log (entry : Console).

Section Server.

Context `{Host} `{Yjs}.

(** [rooms] is [this.rooms], [wss_clients] is [this.wss.clients];
    [sockets] and [docs] are the heaps of socket and document objects. *)
Record Server : Type := mkServer {
  rooms : gmap string RoomData;
  wss_clients : list WsRef;
  sockets : list ExtendedWebSocket;
  docs : list Doc;
}.

(** The server together with the number of clock readings taken so far. *)
Record World : Type := mkWorld {
  server : Server;
  reads : nat;
}.

(** A method of the class: it changes the world and performs effects. *)
Definition M (A : Type) : Type := World → A * World * list Effect.

#[global] Instance M_ret : MRet M := λ A a w, (a, w, []).

#[global] Instance M_bind : MBind M := λ A B k m w,
  let '(a, w1, o1) := m w in
  let '(b, w2, o2) := k a w1 in
  (b, w2, o1 ++ o2).

Definition gets {A} (f : Server → A) : M A := λ w, (f (server w), w, []).

Definition modify (f : Server → Server) : M unit :=
  λ w, (tt, mkWorld (f (server w)) (reads w), []).

Definition emit (e : Effect) : M unit := λ w, (tt, w, [e]).

Definition now : M number :=
  λ w, (Date_now (reads w), mkWorld (server w) (S (reads w)), []).

Fixpoint forEach {A} (s : list A) (f : A → M unit) : M unit :=
  match s with
  | [] => mret tt
  | x :: rest => f x;; forEach rest f
  end.

Definition set_rooms (f : gmap string RoomData → gmap string RoomData)
    (s : Server) : Server :=
  mkServer (f (rooms s)) (wss_clients s) (sockets s) (docs s).

Definition set_wss_clients (f : list WsRef → list WsRef) (s : Server)
  : Server :=
  mkServer (rooms s) (f (wss_clients s)) (sockets s) (docs s).

Definition set_sockets
    (f : list ExtendedWebSocket → list ExtendedWebSocket) (s : Server)
  : Server :=
  mkServer (rooms s) (wss_clients s) (f (sockets s)) (docs s).

Definition set_docs (f : list Doc → list Doc) (s : Server) : Server :=
  mkServer (rooms s) (wss_clients s) (sockets s) (f (docs s)).

(** Reading and writing a field of the socket object [ws]. *)
Definition peek {A} (f : ExtendedWebSocket → option A) (s : Server)
    (ws : WsRef) : option A :=
  sockets s !! ws ≫= f.

Definition field {A} (f : ExtendedWebSocket → option A) (ws : WsRef)
  : M (option A) :=
  gets (λ s, peek f s ws).

Definition update (ws : WsRef) (f : ExtendedWebSocket → ExtendedWebSocket)
  : M unit :=
  modify (set_sockets (alter f ws)).

Definition set_isAlive (b : bool) (x : ExtendedWebSocket) :=
  mkSocket (Some b) (userId x) (roomId x) (ws_doc x) (readyState x).

Definition set_roomId (r : string) (x : ExtendedWebSocket) :=
  mkSocket (isAlive x) (userId x) (Some r) (ws_doc x) (readyState x).

Definition set_doc (d : DocRef) (x : ExtendedWebSocket) :=
  mkSocket (isAlive x) (userId x) (roomId x) (Some d) (readyState x).

Definition set_readyState (st : ReadyState) (x : ExtendedWebSocket) :=
  mkSocket (isAlive x) (userId x) (roomId x) (ws_doc x) st.

(** [client.readyState === WebSocket.OPEN]. *)
Definition is_open (s : Server) (client : WsRef) : bool :=
  bool_decide (readyState <$> sockets s !! client = Some OPEN).

(** JavaScript truthiness of an optional string and an optional flag. *)
Definition truthy_string (o : option string) : bool :=
  match o with
  | Some s => negb (String.eqb s "")
  | None => false
  end.

Definition truthy_bool (o : option bool) : bool := default false o.

(** [new Y.Doc()]. *)
Definition new_Y_Doc : M DocRef :=
  ds ← gets docs;
  modify (set_docs (λ ds, ds ++ [new_Doc (length ds)]));;
  mret (length ds).

Definition joinRoom (ws : WsRef) (roomId : string) : M unit :=
  rs ← gets rooms;
  (if decide (rs !! roomId = None) then
     d ← new_Y_Doc;
     modify (set_rooms <[roomId := mkRoom d []]>);;
     emit (Log (CreatedNewRoom roomId))
   else mret tt);;
  rs ← gets rooms;
  match rs !! roomId with
  | None => mret tt
  | Some room =>
      let members := Set_add ws (clients room) in
      modify (set_rooms <[roomId := mkRoom (doc room) members]>);;
      update ws (set_doc (doc room));;
      ds ← gets docs;
      match ds !! doc room with
      | None => mret tt
      | Some d =>
          let encoder := encodeStateAsUpdate d in
          (if bool_decide (0 < length encoder) then
             t ← now;
             emit (Send ws (createMessage "sync-update" (PBytes encoder) t))
           else mret tt);;
          emit (Log (ClientJoinedRoom roomId (length members)))
      end
  end.

Definition leaveRoom (ws : WsRef) (roomId : string) : M unit :=
  rs ← gets rooms;
  match rs !! roomId with
  | Some room =>
      let members := Set_delete ws (clients room) in
      modify (set_rooms <[roomId := mkRoom (doc room) members]>);;
      emit (Log (ClientLeftRoom roomId (length members)));;
      if bool_decide (length members = 0) then
        modify (set_rooms (delete roomId));;
        emit (Log (EmptyRoomDeleted roomId))
      else mret tt
  | None => mret tt
  end.

(** [Y.applyUpdate(doc, update)] on the document object [ref]: the call
    changes the document and returns, or throws. *)
Definition Y_applyUpdate (ref : DocRef) (update : Uint8Array)
  : M (result unit) :=
  ds ← gets docs;
  modify (set_docs (alter (λ d, applyUpdate d update) ref));;
  match ds !! ref with
  | Some d =>
      match applyUpdate_throws d update with
      | Some e => mret (Throw e)
      | None => mret (Ok tt)
      end
  | None => mret (Ok tt)
  end.

(** An exception of [Y.applyUpdate] leaves the method before the loop. *)
Definition handleSyncUpdate (ws : WsRef) (update : Uint8Array)
  : M (result unit) :=
  d ← field ws_doc ws;
  r ← field roomId ws;
  if negb (bool_decide (is_Some d)) || negb (truthy_string r)
  then mret (Ok tt)
  else
    rs ← gets rooms;
    match rs !! default "" r with
    | None => mret (Ok tt)
    | Some room =>
        applied ← Y_applyUpdate (doc room) update;
        match applied with
        | Throw e => mret (Throw e)
        | Ok _ =>
            forEach (clients room) (λ client,
              s ← gets id;
              if bool_decide (client ≠ ws) && is_open s client then
                t ← now;
                emit (Send client
                        (createMessage "sync-update" (PBytes update) t))
              else mret tt);;
            mret (Ok tt)
        end
    end.

Definition handleSyncRequest (ws : WsRef) : M unit :=
  d ← field ws_doc ws;
  match d with
  | None => mret tt
  | Some ref =>
      ds ← gets docs;
      match ds !! ref with
      | None => mret tt
      | Some d =>
          let stateVector := encodeStateVector d in
          t ← now;
          emit (Send ws (createMessage "sync-response" (PBytes stateVector) t))
      end
  end.

Definition handleAwarenessUpdate (ws : WsRef) (update : Uint8Array)
  : M unit :=
  r ← field roomId ws;
  if negb (truthy_string r) then mret tt
  else
    rs ← gets rooms;
    match rs !! default "" r with
    | None => mret tt
    | Some room =>
        forEach (clients room) (λ client,
          s ← gets id;
          if bool_decide (client ≠ ws) && is_open s client then
            t ← now;
            emit (Send client
                    (createMessage "awareness-update" (PBytes update) t))
          else mret tt)
    end.

Definition handleCustomMessage (ws : WsRef) (data : payload) : M unit :=
  r ← field roomId ws;
  if negb (truthy_string r) then mret tt
  else
    rs ← gets rooms;
    match rs !! default "" r with
    | None => mret tt
    | Some room =>
        forEach (clients room) (λ client,
          s ← gets id;
          if bool_decide (client ≠ ws) && is_open s client then
            t ← now;
            emit (Send client (createMessage "custom-message" data t))
          else mret tt)
    end.

(** [try { body } catch (error) { handler }]. *)
Definition try_catch (body : M (result unit)) (handler : error → M unit)
  : M unit :=
  completion ← body;
  match completion with
  | Ok _ => mret tt
  | Throw e => handler e
  end.

(** A statement of the [try] block that does not throw. *)
Definition returns (m : M unit) : M (result unit) := m;; mret (Ok tt).

(** The [try] encloses [parseMessage] and the whole [switch]: the [catch]
    clause receives what [parseMessage] throws and what a handler throws.
    The [switch] compares [message.type] with [===]: only a string can
    select a case. *)
Definition handleMessage (ws : WsRef) (raw : Buffer) : M unit :=
  try_catch
    (match parseMessage raw with
     | Throw error => mret (Throw error)
     | Ok message =>
         match type message with
         | Some (JStr kind) =>
             if String.eqb kind "sync-update" then
               match data message with
               | PBytes update => handleSyncUpdate ws update
               | _ => mret (Ok tt)
               end
             else if String.eqb kind "sync-request" then
               returns (handleSyncRequest ws)
             else if String.eqb kind "awareness-update" then
               match data message with
               | PBytes update => returns (handleAwarenessUpdate ws update)
               | _ => mret (Ok tt)
               end
             else if String.eqb kind "custom-message" then
               returns (handleCustomMessage ws (data message))
             else returns (emit (Log (UnknownMessageType (type message))))
         | _ => returns (emit (Log (UnknownMessageType (type message))))
         end
     end)
    (λ error, emit (Log (ErrorHandlingMessage error))).

(** [ws.terminate()]: the library starts closing the socket at once (a
    socket already closed is left alone); the [close] event follows
    later. *)
Definition terminate (ws : WsRef) : M unit :=
  emit (Terminate ws);;
  update ws (λ x, if decide (readyState x = CLOSED) then x
                  else set_readyState CLOSING x).

(** The callback [startHeartbeat] hands to [setInterval]. *)
Definition startHeartbeat : M unit :=
  cs ← gets wss_clients;
  forEach cs (λ ws,
    alive ← field isAlive ws;
    if negb (truthy_bool alive) then
      emit (Log TerminatingDeadConnection);;
      terminate ws
    else
      update ws (set_isAlive false);;
      emit (Ping ws)).

(** The listeners [setupWebSocketHandlers] registers. On a new connection
    the library has made the socket object, open, and put it in
    [wss.clients]; [room] is [url?.searchParams.get('room')]. *)
Definition on_connection (room : option string) : M unit :=
  ss ← gets sockets;
  let ws := length ss in
  modify (set_sockets (λ ss, ss ++ [mkSocket None None None None OPEN]));;
  modify (set_wss_clients (Set_add ws));;
  emit (Log NewClientConnected);;
  update ws (set_isAlive true);;
  let roomId := if truthy_string room then default "" room else "default" in
  update ws (set_roomId roomId);;
  joinRoom ws roomId.

Definition on_pong (ws : WsRef) : M unit := update ws (set_isAlive true).

Definition on_message (ws : WsRef) (data : Buffer) : M unit :=
  handleMessage ws data.

Definition on_close (ws : WsRef) : M unit :=
  emit (Log ClientDisconnected);;
  r ← field roomId ws;
  if truthy_string r then leaveRoom ws (default "" r) else mret tt.

Definition on_error (ws : WsRef) : M unit := emit (Log WebSocketError).

(** ** The event loop *)

(** What the runtime delivers to the server: a new connection, the events
    of a socket, and the tick of the heartbeat timer. [EClosing] is the
    library moving a socket out of the open state (closing handshake,
    lost connection) before its [close] event. *)
Inductive Event : Type :=
  | EConnection (room : option string)
  | EPong (ws : WsRef)
  | EMessage (ws : WsRef) (data : Buffer)
  | EClosing (ws : WsRef)
  | EClose (ws : WsRef)
  | EError (ws : WsRef)
  | EInterval.

(** A socket has events only while the server holds it in [wss.clients]. *)
Definition listening (ws : WsRef) (m : M unit) : M unit :=
  cs ← gets wss_clients;
  if bool_decide (ws ∈ cs) then m else mret tt.

(** Before it emits [close] the library marks the socket closed and takes
    it out of [wss.clients]. *)
Definition deliver (e : Event) : M unit :=
  match e with
  | EConnection room => on_connection room
  | EPong ws => listening ws (on_pong ws)
  | EMessage ws data => listening ws (on_message ws data)
  | EClosing ws => listening ws (update ws (set_readyState CLOSING))
  | EClose ws =>
      listening ws (
        update ws (set_readyState CLOSED);;
        modify (set_wss_clients (Set_delete ws));;
        on_close ws)
  | EError ws => listening ws (on_error ws)
  | EInterval => startHeartbeat
  end.

Definition initial : World := mkWorld (mkServer ∅ [] [] []) 0.

(** The world and the effects after a sequence of events. *)
Definition run (evs : list Event) : World * list Effect :=
  let '(_, w, out) := forEach evs deliver initial in (w, out).

(** The frames a socket has been sent, in order. *)
Definition frames_to (ws : WsRef) (out : list Effect) : list Buffer :=
  omap (λ e, match e with
             | Send ws' frame => if decide (ws' = ws) then Some frame else None
             | _ => None
             end) out.

End Server.

(** ** A stand-in for the host and the document library

    Used to run the server on concrete inputs: a document is the sequence
    of the updates applied to it, its state vector is its length in
    updates, strings and objects coerce to [NaN], and the clock advances by
    one millisecond per reading. The stand-in decodes an update as far as
    its first byte: it accepts the sequences of two bytes or more that
    start with a zero, as the empty update 0, 0 of Yjs does, and throws on
    every other sequence, leaving the document as it was. *)

Definition LogHost : Host := {|
  ToNumber_ext := λ _, Some PrimFloat.nan;
  Date_now := λ n,
    PrimFloat.of_uint63 (Uint63.of_Z (1700000000000 + Z.of_nat n));
|}.

Definition decodable (u : Uint8Array) : bool :=
  match u with
  | Byte.x00 :: _ :: _ => true
  | _ => false
  end.

Definition LogDoc : Yjs := {|
  Doc := list Uint8Array;
  new_Doc := λ _, [];
  applyUpdate := λ d u, if decodable u then d ++ [u] else d;
  applyUpdate_throws := λ _ u, if decodable u then None else Some OtherError;
  encodeStateAsUpdate := λ d, concat d;
  encodeStateVector := λ d, repeat Byte.x01 (length d);
|}.

(** Two clients connect to room [r1]; in [two_in_r1_after_update] the
    first then sends the update 0, 0 as a [sync-update]. The bytes 1, 2, 3
    are not an update: the library throws on them. *)
Definition two_in_r1 : list Event :=
  [EConnection (Some "r1"); EConnection (Some "r1")].

Definition frame_of (kind : string) (data : json) : Buffer :=
  Text (JObj [("type", JStr kind); ("data", data)]).

Definition bytes_123 : Uint8Array := [Byte.x01; Byte.x02; Byte.x03].

Definition sync_update_123 : Buffer :=
  frame_of "sync-update" (JArr [JNum 1; JNum 2; JNum 3]).

Definition bytes_00 : Uint8Array := [Byte.x00; Byte.x00].

Definition sync_update_00 : Buffer :=
  frame_of "sync-update" (JArr [JNum 0; JNum 0]).

Definition two_in_r1_after_update : list Event :=
  two_in_r1 ++ [EMessage 0 sync_update_00].

Definition sync_request : Buffer := Text (JObj [("type", JStr "sync-request")]).

(** The world and the output of the stand-in server after a sequence of
    events. *)
Definition world_after (evs : list Event) : World :=
  (@run LogHost LogDoc evs).1.

Definition output_after (evs : list Event) : list Effect :=
  (@run LogHost LogDoc evs).2.

(** ** Vocabulary of the specification *)

(** The room and the document a socket object points to. *)
Abbreviation roomId_of s ws := (peek roomId s ws).
Abbreviation doc_of s ws := (peek ws_doc s ws).

Section Vocabulary.

Context `{Host} `{Yjs}.

(** A value [JSON.stringify] writes faithfully: it holds no [NaN], no
    infinity and no negative zero. *)
Fixpoint wire_stable (v : json) : bool :=
  match v with
  | JNum x =>
      negb (PrimFloat.is_nan x || PrimFloat.is_infinity x)
      && negb (PrimFloat.is_zero x && PrimFloat.get_sign x)
  | JArr elems => forallb wire_stable elems
  | JObj props => forallb (λ '(_, x), wire_stable x) props
  | _ => true
  end.


(** Who a broadcast from [ws] reaches among [cs]: everyone else whose
    socket is open. *)
Definition recipients (s : Server) (ws : WsRef) (cs : list WsRef)
  : list WsRef :=
  filter (λ c, c ≠ ws ∧ is_open s c) cs.

(** One frame per recipient, each stamped with its own clock reading. *)
Definition stamped (kind : string) (p : payload) (t0 : nat)
    (cs : list WsRef) : list Effect :=
  imap (λ i c, Send c (createMessage kind p (Date_now (t0 + i)))) cs.

(** The room [joinRoom] finds under [r], or the one it creates. *)
Definition room_for (s : Server) (r : string) : RoomData :=
  default (mkRoom (length (docs s)) []) (rooms s !! r).

(** The server after [joinRoom ws r]. *)
Definition joined (s : Server) (ws : WsRef) (r : string) : Server :=
  mkServer
    (<[r := mkRoom (doc (room_for s r)) (Set_add ws (clients (room_for s r)))]>
       (rooms s))
    (wss_clients s)
    (alter (set_doc (doc (room_for s r))) ws (sockets s))
    (if decide (rooms s !! r = None)
     then docs s ++ [new_Doc (length (docs s))] else docs s).

(** The snapshot frame [joinRoom] sends when the encoded state is not
    empty. *)
Definition snapshot (ws : WsRef) (d : Doc) (n : nat) : list Effect :=
  if bool_decide (0 < length (encodeStateAsUpdate d))
  then [Send ws (createMessage "sync-update"
                   (PBytes (encodeStateAsUpdate d)) (Date_now n))]
  else [].

(** The registry after [leaveRoom ws r] when the room exists. *)
Definition left (s : Server) (ws : WsRef) (r : string) (room : RoomData)
  : Server :=
  set_rooms (λ rs,
    if bool_decide (length (Set_delete ws (clients room)) = 0)
    then delete r rs
    else <[r := mkRoom (doc room) (Set_delete ws (clients room))]> rs) s.

(** What holds of the server between two events: [wss.clients] holds a
    socket once; every socket the server listens to is a member of the
    room its [roomId] names and points to that room's document; every
    member of a room is a socket the server listens to and carries that
    room's id; every room's document exists. *)
Record wf (s : Server) : Prop := mk_wf {
  wf_nodup : NoDup (wss_clients s);
  wf_session : ∀ ws, ws ∈ wss_clients s →
    ∃ r room, roomId_of s ws = Some r ∧ r ≠ "" ∧ rooms s !! r = Some room
              ∧ ws ∈ clients room ∧ doc_of s ws = Some (doc room);
  wf_member : ∀ r room c,
    rooms s !! r = Some room → c ∈ clients room →
    c ∈ wss_clients s ∧ roomId_of s c = Some r;
  wf_doc : ∀ r room, rooms s !! r = Some room → doc room < length (docs s);
}.

(** The socket an effect is performed on. *)
Definition target (e : Effect) : option WsRef :=
  match e with
  | Send ws _ | Ping ws | Terminate ws => Some ws
  | Log _ => None
  end.

(** [s'] differs from [s] at most in the contents of documents and in the
    [isAlive] and [readyState] of sockets. *)
Definition quiet (s s' : Server) : Prop :=
  rooms s' = rooms s ∧ wss_clients s' = wss_clients s
  ∧ length (docs s') = length (docs s)
  ∧ length (sockets s') = length (sockets s)
  ∧ ∀ ws, roomId_of s' ws = roomId_of s ws ∧ doc_of s' ws = doc_of s ws.

(** The effects of handling a frame: frames sent to the sender itself (the
    reply to a request) or to the other open members of its room, and
    console output. *)
Definition message_effect (s : Server) (ws : WsRef) (e : Effect) : Prop :=
  match e with
  | Send c _ =>
      (c = ws ∧ is_Some (doc_of s ws))
      ∨ ∃ r room, roomId_of s ws = Some r ∧ rooms s !! r = Some room
                  ∧ c ∈ recipients s ws (clients room)
  | Log _ => True
  | _ => False
  end.

(** A broadcasting handler either returns at one of its guards or relays
    to the recipients in the sender's room. *)
Definition relays (kind : string) (p : payload) (s : Server) (ws : WsRef)
    (n : nat) (o : unit * World * list Effect) : Prop :=
  o = (tt, mkWorld s n, [])
  ∨ ∃ r room, roomId_of s ws = Some r ∧ r ≠ "" ∧ rooms s !! r = Some room
      ∧ o = (tt, mkWorld s (n + length (recipients s ws (clients room))),
             stamped kind p n (recipients s ws (clients room))).

(** Whether [Y.applyUpdate] throws on the document object [ref]. *)
Definition throws_at (s : Server) (ref : DocRef) (update : Uint8Array)
  : option error :=
  match docs s !! ref with
  | Some d => applyUpdate_throws d update
  | None => None
  end.

(** The [catch] clause of [handleMessage]. *)
Definition caught (error : error) : M unit :=
  emit (Log (ErrorHandlingMessage error)).

(** What the heartbeat does with one socket. *)
Definition probe_effect (ws : WsRef) (e : Effect) : Prop :=
  e = Log TerminatingDeadConnection ∨ e = Terminate ws ∨ e = Ping ws.

(** The server once the library has accepted a connection and the
    listener has set [isAlive] and [roomId] on the new socket. *)
Definition accepted (s : Server) (r : string) : Server :=
  mkServer (rooms s) (Set_add (length (sockets s)) (wss_clients s))
    (sockets s ++ [mkSocket (Some true) None (Some r) None OPEN]) (docs s).

(** The room a connection asks for: [room || 'default']. *)
Definition requested (room : option string) : string :=
  if truthy_string room then default "" room else "default".

(** The server once the library has closed the socket [ws] and dropped it
    from [wss.clients]. *)
Definition closed (s : Server) (ws : WsRef) : Server :=
  set_wss_clients (Set_delete ws)
    (set_sockets (alter (set_readyState CLOSED) ws) s).

(** The kinds [handleMessage] dispatches on. *)
Definition dispatched : list string :=
  ["sync-update"; "sync-request"; "awareness-update"; "custom-message"].

(** A [data] property the relay passes on as it is: for either kind an
    array of integers between 0 and 255; for a custom message also a value
    that is not an array and is written faithfully, or no [data] at all. *)
Definition verbatim (kind : string) (o : option json) : Prop :=
  match o with
  | Some (JArr elems) => ∃ bytes, elems = Array_from bytes
  | Some v => kind = "custom-message" ∧ wire_stable v = true
  | None => kind = "custom-message"
  end.

(** Calls of [joinRoom] and [leaveRoom], and who is a member of which room
    after a sequence of them, told without the registry: a join adds the
    session to the room, a leave takes it out. *)
Inductive RoomOp : Type :=
  | Join (ws : WsRef) (roomId : string)
  | Leave (ws : WsRef) (roomId : string).

Definition perform (op : RoomOp) : M unit :=
  match op with
  | Join ws r => joinRoom ws r
  | Leave ws r => leaveRoom ws r
  end.

Definition track (m : string → gset WsRef) (op : RoomOp)
  : string → gset WsRef :=
  λ r', match op with
        | Join ws r => if decide (r' = r) then {[ws]} ∪ m r' else m r'
        | Leave ws r => if decide (r' = r) then m r' ∖ {[ws]} else m r'
        end.

Definition members (ops : list RoomOp) : string → gset WsRef :=
  fold_left track ops (λ _, ∅).

(** The registry holds exactly the rooms that have a member, with their
    members. *)
Definition registry_tracks (s : Server) (m : string → gset WsRef) : Prop :=
  ∀ r, match rooms s !! r with
       | Some room => clients room ≠ [] ∧ list_to_set (clients room) = m r
       | None => m r = ∅
       end.

(** What the heartbeat does with one socket: the body of its loop. *)
Definition probe (ws : WsRef) : M unit :=
  alive ← field isAlive ws;
  if negb (truthy_bool alive) then
    emit (Log TerminatingDeadConnection);;
    terminate ws
  else
    update ws (set_isAlive false);;
    emit (Ping ws).

(** [ws.terminate()] on the socket object. *)
Definition terminated (x : ExtendedWebSocket) : ExtendedWebSocket :=
  if decide (readyState x = CLOSED) then x else set_readyState CLOSING x.

(** What one sweep does with a socket of its list, according to the flag
    it finds. *)
Definition swept (s s' : Server) (out : list Effect) (ws : WsRef) : Prop :=
  if truthy_bool (peek isAlive s ws)
  then (Ping ws ∈ out) ∧ (Terminate ws ∉ out)
       ∧ (peek isAlive s' ws = Some false)
  else (Terminate ws ∈ out) ∧ (Ping ws ∉ out)
       ∧ (peek isAlive s' ws = peek isAlive s ws).

End Vocabulary.

(** ** Further vocabulary *)

Section FurtherVocabulary.

Context `{Host} `{Yjs}.

(** [getRoomStats]: one entry per room, the size of its member set. The
    result is an object literal, and assigning a number to its
    [__proto__] sets no property: a room of that name is left out. *)
Definition getRoomStats (s : Server) : gmap string nat :=
  filter (λ kv, kv.1 ≠ "__proto__")
    ((λ room, length (clients room)) <$> rooms s).

(** The callback of the statistics timer: what it writes to the console,
    if anything ([Object.keys(stats).length > 0]). *)
Definition logRoomStats (s : Server) : option (gmap string nat) :=
  let stats := getRoomStats s in
  if bool_decide (0 < size stats) then Some stats else None.

(** A value [ToNumber] handles without the host: [null], a boolean or a
    number. *)
Definition primitive (v : json) : bool :=
  match v with
  | JNull | JBool _ | JNum _ => true
  | _ => false
  end.

(** A frame that decodes to a [sync-update] carrying the bytes
    [update]. *)
Definition is_sync_update (raw : Buffer) (update : Uint8Array) : Prop :=
  ∃ message,
    parseMessage raw = Ok message
    ∧ type message = Some (JStr "sync-update")
    ∧ data message = PBytes update.

(** The updates of a sequence the library accepts when they are handed to
    it one after the other, starting from the document [d]. *)
Fixpoint accepted_updates (d : Doc) (us : list Uint8Array)
  : list Uint8Array :=
  match us with
  | [] => []
  | u :: rest =>
      match applyUpdate_throws d u with
      | Some _ => accepted_updates (applyUpdate d u) rest
      | None => u :: accepted_updates (applyUpdate d u) rest
      end
  end.

(** A frame that carries the bytes [update] as a [sync-update]. *)
Definition carries (frame : Buffer) (update : Uint8Array) : Prop :=
  parseMessage frame
  = Ok (mkMessage (Some (JStr "sync-update")) (PBytes update)).

(** What holds of the registry between two events, beside [wf]: no room
    is empty, no room lists a member twice, and no two rooms share a
    document. *)
Record wf_rooms (s : Server) : Prop := mk_wf_rooms {
  wfr_nonempty : ∀ r room, rooms s !! r = Some room → clients room ≠ [];
  wfr_nodup : ∀ r room, rooms s !! r = Some room → NoDup (clients room);
  wfr_doc : ∀ r1 r2 room1 room2,
    rooms s !! r1 = Some room1 → rooms s !! r2 = Some room2 →
    doc room1 = doc room2 → r1 = r2;
}.

(** How one event changes the registry: not at all, by the join of a new
    socket, or by the leave of a closed one. *)
Definition step_shape (e : Event) (s s' : Server) : Prop :=
  (rooms s' = rooms s ∧ wss_clients s' = wss_clients s
   ∧ length (docs s') = length (docs s)
   ∧ (∀ room, e ≠ EConnection room))
  ∨ (∃ room,
       e = EConnection room
       ∧ s' = joined (accepted s (requested room)) (length (sockets s))
                (requested room))
  ∨ (∃ ws r room,
       e = EClose ws ∧ ws ∈ wss_clients s
       ∧ roomId_of s ws = Some r ∧ rooms s !! r = Some room
       ∧ ws ∈ clients room
       ∧ s' = left (closed s ws) ws r room).

(** How one event changes the heap of documents: not at all, by the
    document of a room the connection creates, or by the update a
    [sync-update] frame applies to the document of the sender's room. *)
Definition docs_step (e : Event) (s s' : Server) : Prop :=
  docs s' = docs s
  ∨ (∃ room,
       e = EConnection room
       ∧ rooms s !! requested room = None
       ∧ docs s' = docs s ++ [new_Doc (length (docs s))])
  ∨ (∃ ws raw update r room,
       e = EMessage ws raw
       ∧ is_sync_update raw update
       ∧ roomId_of s ws = Some r
       ∧ rooms s !! r = Some room
       ∧ docs s' = alter (λ d, applyUpdate d update) (doc room) (docs s)).

End FurtherVocabulary.

(** ** Proof automation *)

Ltac proj_simpl :=
  cbn [server reads rooms wss_clients sockets docs doc clients fst snd].

Ltac unfold_M :=
  cbv beta iota zeta delta
    [mbind M_bind mret M_ret gets modify emit now field update listening
     set_rooms set_wss_clients set_sockets set_docs];
  proj_simpl.

Ltac fold_alter s :=
  lazymatch goal with
  | |- context [mkServer (rooms s) (wss_clients s)
                  (alter ?f ?i (sockets s)) (docs s)] =>
      change (mkServer (rooms s) (wss_clients s)
                (alter f i (sockets s)) (docs s))
        with (set_sockets (alter f i) s)
  end.

(** ** Properties of the codec *)

(** Induction over values, through the arrays and the objects. *)
Lemma json_ind (P : json → Prop) :
  P JNull →
  (∀ b, P (JBool b)) →
  (∀ x, P (JNum x)) →
  (∀ s, P (JStr s)) →
  (∀ elems, Forall P elems → P (JArr elems)) →
  (∀ props, Forall (λ kv, P kv.2) props → P (JObj props)) →
  ∀ v, P v.
Proof.
  intros Hnull Hbool Hnum Hstr Harr Hobj.
  fix IH 1. intros [ | b | x | s | elems | props ].
  - exact Hnull.
  - apply Hbool.
  - apply Hnum.
  - apply Hstr.
  - apply Harr. induction elems as [ | v elems IHelems ]; constructor.
    + apply IH.
    + exact IHelems.
  - apply Hobj. induction props as [ | [k v] props IHprops ]; constructor.
    + apply IH.
    + exact IHprops.
Qed.

Lemma wire_stable_id (v : json) : wire_stable v = true → wire v = v.
Proof.
  induction v as [ | b | x | s | elems IH | props IH ] using json_ind;
    simpl; intros Hst; try reflexivity.
  - apply andb_prop in Hst as [Hfin Hneg].
    apply negb_true_iff in Hfin, Hneg. by rewrite Hfin, Hneg.
  - f_equal. induction IH as [ | v elems Hv _ IHelems ]; simpl in *.
    + reflexivity.
    + apply andb_prop in Hst as [Hst1 Hst2].
      by rewrite Hv, IHelems.
  - f_equal. induction IH as [ | [k v] props Hv _ IHprops ]; simpl in *.
    + reflexivity.
    + apply andb_prop in Hst as [Hst1 Hst2].
      by rewrite Hv, IHprops.
Qed.

Lemma ToUint8_byte (b : Byte.byte) : ToUint8 (byte_to_number b) = b.
Proof. destruct b; vm_compute; reflexivity. Qed.

Lemma wire_byte (b : Byte.byte) :
  wire (JNum (byte_to_number b)) = JNum (byte_to_number b).
Proof. destruct b; vm_compute; reflexivity. Qed.

Lemma wire_Array_from (bytes : Uint8Array) :
  map wire (Array_from bytes) = Array_from bytes.
Proof.
  induction bytes as [ | b bytes IH ]; simpl.
  - reflexivity.
  - rewrite IH. f_equal. apply wire_byte.
Qed.

Section CodecProperties.

Context `{Host}.

Lemma new_Uint8Array_from (bytes : Uint8Array) :
  new_Uint8Array (Array_from bytes) = Ok bytes.
Proof.
  induction bytes as [ | b bytes IH ]; simpl.
  - reflexivity.
  - rewrite IH. by rewrite ToUint8_byte.
Qed.

(** Decoding an encoded byte sequence gives the byte sequence back. *)
Lemma parse_create_bytes (kind : string) (bytes : Uint8Array) (t : number) :
  parseMessage (createMessage kind (PBytes bytes) t)
  = Ok (mkMessage (Some (JStr kind)) (PBytes bytes)).
Proof.
  unfold parseMessage, createMessage, JSON_stringify. simpl.
  by rewrite wire_Array_from, new_Uint8Array_from.
Qed.


End CodecProperties.



(** ** Running the methods *)

Section Running.

Context `{Host} `{Yjs}.

Lemma forEach_app {A} (l1 l2 : list A) (f : A → M unit) (w : World) :
  forEach (l1 ++ l2) f w =
  let '(_, w1, o1) := forEach l1 f w in
  let '(_, w2, o2) := forEach l2 f w1 in
  (tt, w2, o1 ++ o2).
Proof.
  revert w. induction l1 as [ | x l1 IH ]; intros w; simpl.
  - unfold_M. destruct (forEach l2 f w) as [[[] w2] o2]. reflexivity.
  - unfold_M. destruct (f x w) as [[[] w1] o1]. rewrite IH.
    destruct (forEach l1 f w1) as [[[] w2] o2].
    destruct (forEach l2 f w2) as [[[] w3] o3].
    by rewrite app_assoc.
Qed.

Lemma stamped_cons kind p t0 c cs :
  stamped kind p t0 (c :: cs)
  = Send c (createMessage kind p (Date_now t0)) :: stamped kind p (S t0) cs.
Proof.
  unfold stamped. simpl. rewrite Nat.add_0_r. f_equal.
  apply imap_ext. intros i x _. simpl. by rewrite Nat.add_succ_r.
Qed.

(** The loop of the three broadcasting handlers. *)
Lemma forEach_relay (f : WsRef → M unit) kind p ws :
  (∀ client s n,
     f client (mkWorld s n) =
     if bool_decide (client ≠ ws) && is_open s client
     then (tt, mkWorld s (S n), [Send client (createMessage kind p (Date_now n))])
     else (tt, mkWorld s n, [])) →
  ∀ cs s n,
    forEach cs f (mkWorld s n) =
    (tt, mkWorld s (n + length (recipients s ws cs)),
     stamped kind p n (recipients s ws cs)).
Proof.
  intros Hf cs. induction cs as [ | c cs IH ]; intros s n.
  - simpl. unfold_M. by rewrite Nat.add_0_r.
  - simpl. unfold_M. rewrite Hf. unfold recipients. rewrite filter_cons.
    destruct (bool_decide (c ≠ ws) && is_open s c) eqn:Hc.
    + apply andb_prop in Hc as [Hne Hop]. apply bool_decide_eq_true in Hne.
      rewrite decide_True by (split; [done | by apply Is_true_true]).
      rewrite IH. fold (recipients s ws cs). rewrite stamped_cons. simpl.
      by rewrite Nat.add_succ_r.
    + rewrite decide_False.
      * rewrite IH. reflexivity.
      * intros [Hne Hop]. apply Is_true_true in Hop.
        rewrite Hop, andb_true_r in Hc. by apply bool_decide_eq_false in Hc.
Qed.

Lemma truthy_string_Some (r : string) :
  r ≠ "" → truthy_string (Some r) = true.
Proof. intros Hr. simpl. apply negb_true_iff. by apply String.eqb_neq. Qed.

Lemma truthy_string_inv (o : option string) :
  truthy_string o = true → ∃ r, o = Some r ∧ r ≠ "".
Proof.
  destruct o as [r | ]; simpl; [ | discriminate ].
  intros Hr. exists r. split; [done | ].
  apply negb_true_iff in Hr. by apply String.eqb_neq.
Qed.

Lemma Y_applyUpdate_run ref update s n :
  Y_applyUpdate ref update (mkWorld s n) =
  (match throws_at s ref update with
   | Some e => Throw e
   | None => Ok tt
   end,
   mkWorld (set_docs (alter (λ d, applyUpdate d update) ref) s) n,
   []).
Proof.
  unfold Y_applyUpdate, throws_at. unfold_M.
  destruct (docs s !! ref) as [d | ]; [ | done].
  by destruct (applyUpdate_throws d update).
Qed.

Lemma handleSyncUpdate_run s n ws update r room :
  is_Some (doc_of s ws) → roomId_of s ws = Some r → r ≠ "" →
  rooms s !! r = Some room →
  throws_at s (doc room) update = None →
  handleSyncUpdate ws update (mkWorld s n) =
  (Ok tt,
   mkWorld (set_docs (alter (λ d, applyUpdate d update) (doc room)) s)
     (n + length (recipients s ws (clients room))),
   stamped "sync-update" (PBytes update) n (recipients s ws (clients room))).
Proof.
  intros Hd Hr Hne Hroom Hreturns. unfold handleSyncUpdate. unfold_M.
  rewrite Hr.
  rewrite (bool_decide_eq_true_2 _ Hd), (truthy_string_Some _ Hne). simpl.
  rewrite Hroom. rewrite Y_applyUpdate_run, Hreturns.
  erewrite (forEach_relay _ "sync-update" (PBytes update) ws).
  - by rewrite app_nil_r.
  - intros client s0 n0. unfold_M.
    by destruct (bool_decide (client ≠ ws) && is_open s0 client).
Qed.

Lemma handleSyncUpdate_throw s n ws update r room e :
  is_Some (doc_of s ws) → roomId_of s ws = Some r → r ≠ "" →
  rooms s !! r = Some room →
  throws_at s (doc room) update = Some e →
  handleSyncUpdate ws update (mkWorld s n) =
  (Throw e,
   mkWorld (set_docs (alter (λ d, applyUpdate d update) (doc room)) s) n,
   []).
Proof.
  intros Hd Hr Hne Hroom Hthrows. unfold handleSyncUpdate. unfold_M.
  rewrite Hr.
  rewrite (bool_decide_eq_true_2 _ Hd), (truthy_string_Some _ Hne). simpl.
  rewrite Hroom. by rewrite Y_applyUpdate_run, Hthrows.
Qed.

Lemma handleSyncUpdate_skip s n ws update :
  doc_of s ws = None ∨ truthy_string (roomId_of s ws) = false
  ∨ rooms s !! default "" (roomId_of s ws) = None →
  handleSyncUpdate ws update (mkWorld s n) = (Ok tt, mkWorld s n, []).
Proof.
  intros Hskip. unfold handleSyncUpdate. unfold_M.
  destruct (negb (bool_decide (is_Some (doc_of s ws)))
            || negb (truthy_string (roomId_of s ws))) eqn:Hguard; [done | ].
  apply orb_false_elim in Hguard as [Hd Hr].
  apply negb_false_iff in Hd, Hr. apply bool_decide_eq_true in Hd.
  cbn [server].
  destruct Hskip as [Hnone | [Hfalsy | Habsent]].
  - rewrite Hnone in Hd. by destruct Hd.
  - congruence.
  - by rewrite Habsent.
Qed.

Lemma handleSyncRequest_run s n ws ref d :
  doc_of s ws = Some ref → docs s !! ref = Some d →
  handleSyncRequest ws (mkWorld s n) =
  (tt, mkWorld s (S n),
   [Send ws (createMessage "sync-response" (PBytes (encodeStateVector d))
               (Date_now n))]).
Proof.
  intros Hd Hdoc. unfold handleSyncRequest. unfold_M.
  rewrite Hd. cbn [server]. by rewrite Hdoc.
Qed.

Lemma handleSyncRequest_skip s n ws :
  doc_of s ws = None →
  handleSyncRequest ws (mkWorld s n) = (tt, mkWorld s n, []).
Proof.
  intros Hd. unfold handleSyncRequest. unfold_M.
  by rewrite Hd.
Qed.

Lemma handleAwarenessUpdate_run s n ws update r room :
  roomId_of s ws = Some r → r ≠ "" → rooms s !! r = Some room →
  handleAwarenessUpdate ws update (mkWorld s n) =
  (tt, mkWorld s (n + length (recipients s ws (clients room))),
   stamped "awareness-update" (PBytes update) n
     (recipients s ws (clients room))).
Proof.
  intros Hr Hne Hroom. unfold handleAwarenessUpdate. unfold_M.
  rewrite Hr, (truthy_string_Some _ Hne). simpl.
  rewrite Hroom.
  erewrite (forEach_relay _ "awareness-update" (PBytes update) ws).
  - reflexivity.
  - intros client s0 n0. unfold_M.
    by destruct (bool_decide (client ≠ ws) && is_open s0 client).
Qed.

Lemma handleAwarenessUpdate_skip s n ws update :
  truthy_string (roomId_of s ws) = false
  ∨ rooms s !! default "" (roomId_of s ws) = None →
  handleAwarenessUpdate ws update (mkWorld s n) = (tt, mkWorld s n, []).
Proof.
  intros Hskip. unfold handleAwarenessUpdate. unfold_M.
  destruct (truthy_string (roomId_of s ws)) eqn:Hr; simpl; [ | done ].
  destruct Hskip as [Hfalsy | Habsent]; [done | by rewrite Habsent].
Qed.

Lemma handleCustomMessage_run s n ws p r room :
  roomId_of s ws = Some r → r ≠ "" → rooms s !! r = Some room →
  handleCustomMessage ws p (mkWorld s n) =
  (tt, mkWorld s (n + length (recipients s ws (clients room))),
   stamped "custom-message" p n (recipients s ws (clients room))).
Proof.
  intros Hr Hne Hroom. unfold handleCustomMessage. unfold_M.
  rewrite Hr, (truthy_string_Some _ Hne). simpl.
  rewrite Hroom.
  erewrite (forEach_relay _ "custom-message" p ws).
  - reflexivity.
  - intros client s0 n0. unfold_M.
    by destruct (bool_decide (client ≠ ws) && is_open s0 client).
Qed.

Lemma handleCustomMessage_skip s n ws p :
  truthy_string (roomId_of s ws) = false
  ∨ rooms s !! default "" (roomId_of s ws) = None →
  handleCustomMessage ws p (mkWorld s n) = (tt, mkWorld s n, []).
Proof.
  intros Hskip. unfold handleCustomMessage. unfold_M.
  destruct (truthy_string (roomId_of s ws)) eqn:Hr; simpl; [ | done ].
  destruct Hskip as [Hfalsy | Habsent]; [done | by rewrite Habsent].
Qed.

Lemma joinRoom_new s n ws r :
  rooms s !! r = None →
  joinRoom ws r (mkWorld s n) =
  (tt,
   mkWorld (joined s ws r)
     (n + length (snapshot ws (new_Doc (length (docs s))) n)),
   Log (CreatedNewRoom r)
   :: snapshot ws (new_Doc (length (docs s))) n
   ++ [Log (ClientJoinedRoom r 1)]).
Proof.
  intros Hr. unfold joinRoom, new_Y_Doc, joined, room_for, snapshot.
  unfold_M. rewrite Hr. rewrite !decide_True by done. proj_simpl.
  rewrite lookup_insert_eq. cbn [default]. proj_simpl.
  rewrite insert_insert_eq.
  rewrite lookup_app_r by done. rewrite Nat.sub_diag. cbn [lookup list_lookup].
  destruct (bool_decide (0 < length (encodeStateAsUpdate
                                       (new_Doc (length (docs s))))));
    simpl; by rewrite ?Nat.add_1_r, ?Nat.add_0_r.
Qed.

Lemma joinRoom_existing s n ws r room d :
  rooms s !! r = Some room → docs s !! doc room = Some d →
  joinRoom ws r (mkWorld s n) =
  (tt,
   mkWorld (joined s ws r) (n + length (snapshot ws d n)),
   snapshot ws d n
   ++ [Log (ClientJoinedRoom r (length (Set_add ws (clients room))))]).
Proof.
  intros Hr Hd. unfold joinRoom, joined, room_for, snapshot.
  unfold_M. rewrite Hr. rewrite !decide_False by done.
  cbn [default]. proj_simpl. rewrite Hr. proj_simpl.
  rewrite Hd.
  destruct (bool_decide (0 < length (encodeStateAsUpdate d)));
    simpl; by rewrite ?Nat.add_1_r, ?Nat.add_0_r.
Qed.

Lemma leaveRoom_existing s n ws r room :
  rooms s !! r = Some room →
  leaveRoom ws r (mkWorld s n) =
  (tt, mkWorld (left s ws r room) n,
   Log (ClientLeftRoom r (length (Set_delete ws (clients room))))
   :: if bool_decide (length (Set_delete ws (clients room)) = 0)
      then [Log (EmptyRoomDeleted r)] else []).
Proof.
  intros Hr. unfold leaveRoom, left. unfold_M. rewrite Hr.
  destruct (bool_decide (length (Set_delete ws (clients room)) = 0)).
  - unfold_M. by rewrite delete_insert_eq.
  - unfold_M. reflexivity.
Qed.

Lemma leaveRoom_absent s n ws r :
  rooms s !! r = None →
  leaveRoom ws r (mkWorld s n) = (tt, mkWorld s n, []).
Proof. intros Hr. unfold leaveRoom. unfold_M. by rewrite Hr. Qed.

End Running.

(** ** Reachable states *)

Section Invariant.

Context `{Host} `{Yjs}.

Lemma quiet_refl s : quiet s s.
Proof. by repeat split. Qed.

Lemma quiet_trans s1 s2 s3 : quiet s1 s2 → quiet s2 s3 → quiet s1 s3.
Proof.
  intros (Hr1 & Hc1 & Hd1 & Hl1 & Hp1) (Hr2 & Hc2 & Hd2 & Hl2 & Hp2).
  repeat split; try congruence.
  - destruct (Hp1 ws), (Hp2 ws). congruence.
  - destruct (Hp1 ws), (Hp2 ws). congruence.
Qed.

Lemma quiet_wf s s' : wf s → quiet s s' → wf s'.
Proof.
  intros [Hnd Hses Hmem Hdoc] (Hr & Hc & Hd & Hl & Hp). split.
  - by rewrite Hc.
  - intros ws Hws. rewrite Hc in Hws.
    destruct (Hses ws Hws) as (r & room & ? & ? & ? & ? & ?).
    exists r, room. destruct (Hp ws) as [-> ->]. by rewrite Hr.
  - intros r room c. rewrite Hr, Hc. destruct (Hp c) as [-> _]. apply Hmem.
  - intros r room. rewrite Hr, Hd. apply Hdoc.
Qed.

Lemma peek_alter {A} (g : ExtendedWebSocket → option A) f ws ws' s :
  (∀ x, g (f x) = g x) →
  peek g (set_sockets (alter f ws) s) ws' = peek g s ws'.
Proof.
  intros Hg. unfold peek, set_sockets. proj_simpl.
  rewrite list_lookup_alter. case_decide; [subst | done].
  destruct (sockets s !! ws'); simpl; [apply Hg | done].
Qed.

Lemma quiet_alter f ws s :
  (∀ x, roomId (f x) = roomId x) → (∀ x, ws_doc (f x) = ws_doc x) →
  quiet s (set_sockets (alter f ws) s).
Proof.
  intros Hr Hd. repeat split; try done.
  - unfold set_sockets. proj_simpl. apply length_alter.
  - by apply peek_alter.
  - by apply peek_alter.
Qed.

Lemma quiet_docs g i s : quiet s (set_docs (alter g i) s).
Proof.
  repeat split; try done. unfold set_docs. proj_simpl. apply length_alter.
Qed.

Lemma elem_of_Set_add (c x : WsRef) (l : list WsRef) :
  c ∈ Set_add x l ↔ c = x ∨ c ∈ l.
Proof.
  unfold Set_add. case_decide.
  - split; [intros ?; by right | intros [-> | ?]; done].
  - rewrite elem_of_app, list_elem_of_singleton. tauto.
Qed.

Lemma elem_of_Set_delete (c x : WsRef) (l : list WsRef) :
  c ∈ Set_delete x l ↔ c ≠ x ∧ c ∈ l.
Proof. unfold Set_delete. by rewrite list_elem_of_filter. Qed.

Lemma elem_of_recipients s ws cs c :
  c ∈ recipients s ws cs ↔ c ≠ ws ∧ is_open s c = true ∧ c ∈ cs.
Proof.
  unfold recipients. rewrite list_elem_of_filter.
  rewrite Is_true_true. tauto.
Qed.

Lemma elem_of_stamped kind p n cs e :
  e ∈ stamped kind p n cs →
  ∃ c t, e = Send c (createMessage kind p t) ∧ c ∈ cs.
Proof.
  unfold stamped. intros (i & c & -> & Hc)%elem_of_lookup_imap.
  exists c, (Date_now (n + i)). split; [done | ].
  by apply list_elem_of_lookup_2 in Hc.
Qed.

Lemma handleAwarenessUpdate_cases s n ws update :
  relays "awareness-update" (PBytes update) s ws n
    (handleAwarenessUpdate ws update (mkWorld s n)).
Proof.
  destruct (truthy_string (roomId_of s ws)) eqn:Hr.
  - apply truthy_string_inv in Hr as (r & Hr & Hne).
    destruct (rooms s !! r) as [room | ] eqn:Hroom.
    + right. exists r, room. repeat split; try done.
      by eapply handleAwarenessUpdate_run.
    + left. apply handleAwarenessUpdate_skip. right. by rewrite Hr.
  - left. apply handleAwarenessUpdate_skip. by left.
Qed.

Lemma handleCustomMessage_cases s n ws p :
  relays "custom-message" p s ws n (handleCustomMessage ws p (mkWorld s n)).
Proof.
  destruct (truthy_string (roomId_of s ws)) eqn:Hr.
  - apply truthy_string_inv in Hr as (r & Hr & Hne).
    destruct (rooms s !! r) as [room | ] eqn:Hroom.
    + right. exists r, room. repeat split; try done.
      by eapply handleCustomMessage_run.
    + left. apply handleCustomMessage_skip. right. by rewrite Hr.
  - left. apply handleCustomMessage_skip. by left.
Qed.

Lemma try_catch_returns (m : M unit) handler w :
  try_catch (returns m) handler w = m w.
Proof.
  unfold try_catch, returns. unfold_M.
  destruct (m w) as [[[] w'] out]. by rewrite !app_nil_r.
Qed.

Lemma try_catch_run body handler w w' out :
  body w = (Ok tt, w', out) → try_catch body handler w = (tt, w', out).
Proof.
  intros Hbody. unfold try_catch. unfold_M. rewrite Hbody.
  by rewrite app_nil_r.
Qed.

Lemma try_catch_throw body w w' e :
  body w = (Throw e, w', []) →
  try_catch body caught w = (tt, w', [Log (ErrorHandlingMessage e)]).
Proof.
  intros Hbody. unfold try_catch, caught. unfold_M. by rewrite Hbody.
Qed.

(** The three ways a [sync-update] with bytes ends inside the [try]: at a
    guard, after the loop, or in the [catch] clause. *)
Lemma handleSyncUpdate_cases s n ws update :
  try_catch (handleSyncUpdate ws update) caught (mkWorld s n)
  = (tt, mkWorld s n, [])
  ∨ ∃ r room, roomId_of s ws = Some r ∧ r ≠ "" ∧ rooms s !! r = Some room
      ∧ is_Some (doc_of s ws)
      ∧ ((throws_at s (doc room) update = None
          ∧ try_catch (handleSyncUpdate ws update) caught (mkWorld s n) =
            (tt,
             mkWorld
               (set_docs (alter (λ d, applyUpdate d update) (doc room)) s)
               (n + length (recipients s ws (clients room))),
             stamped "sync-update" (PBytes update) n
               (recipients s ws (clients room))))
         ∨ (∃ e,
              throws_at s (doc room) update = Some e
              ∧ try_catch (handleSyncUpdate ws update) caught (mkWorld s n) =
                (tt,
                 mkWorld
                   (set_docs (alter (λ d, applyUpdate d update) (doc room)) s)
                   n,
                 [Log (ErrorHandlingMessage e)]))).
Proof.
  destruct (doc_of s ws) as [ref | ] eqn:Hd.
  - destruct (truthy_string (roomId_of s ws)) eqn:Hr.
    + apply truthy_string_inv in Hr as (r & Hr & Hne).
      destruct (rooms s !! r) as [room | ] eqn:Hroom.
      * right. exists r, room.
        split; [done | ]. split; [done | ]. split; [done | ].
        split; [done | ].
        destruct (throws_at s (doc room) update) as [e | ] eqn:Hthrows.
        -- right. exists e. split; [done | ].
           apply try_catch_throw. by eapply handleSyncUpdate_throw.
        -- left. split; [done | ].
           apply try_catch_run. by eapply handleSyncUpdate_run.
      * left. apply try_catch_run, handleSyncUpdate_skip.
        right. right. by rewrite Hr.
    + left. apply try_catch_run, handleSyncUpdate_skip. right. by left.
  - left. apply try_catch_run, handleSyncUpdate_skip. by left.
Qed.

Lemma handleMessage_sync_update ws raw message update w :
  parseMessage raw = Ok message →
  type message = Some (JStr "sync-update") →
  data message = PBytes update →
  handleMessage ws raw w = try_catch (handleSyncUpdate ws update) caught w.
Proof. intros Hp Ht Hd. unfold handleMessage. by rewrite Hp, Ht, Hd. Qed.

Lemma handleMessage_sync_request ws raw message w :
  parseMessage raw = Ok message →
  type message = Some (JStr "sync-request") →
  handleMessage ws raw w = handleSyncRequest ws w.
Proof.
  intros Hp Ht. unfold handleMessage. rewrite Hp, Ht. cbn [String.eqb].
  apply try_catch_returns.
Qed.

Lemma handleMessage_awareness_update ws raw message update w :
  parseMessage raw = Ok message →
  type message = Some (JStr "awareness-update") →
  data message = PBytes update →
  handleMessage ws raw w = handleAwarenessUpdate ws update w.
Proof.
  intros Hp Ht Hd. unfold handleMessage. rewrite Hp, Ht, Hd.
  apply try_catch_returns.
Qed.

Lemma handleMessage_custom_message ws raw message w :
  parseMessage raw = Ok message →
  type message = Some (JStr "custom-message") →
  handleMessage ws raw w = handleCustomMessage ws (data message) w.
Proof.
  intros Hp Ht. unfold handleMessage. rewrite Hp, Ht.
  apply try_catch_returns.
Qed.

Lemma handleMessage_throw ws raw e w :
  parseMessage raw = Throw e →
  handleMessage ws raw w = emit (Log (ErrorHandlingMessage e)) w.
Proof. intros Hp. unfold handleMessage. by rewrite Hp. Qed.

Lemma handleMessage_no_bytes ws raw message kind w :
  parseMessage raw = Ok message →
  type message = Some (JStr kind) →
  kind = "sync-update" ∨ kind = "awareness-update" →
  (∀ update, data message ≠ PBytes update) →
  handleMessage ws raw w = (tt, w, []).
Proof.
  intros Hp Ht Hkind Hd. unfold handleMessage. rewrite Hp, Ht.
  destruct Hkind as [-> | ->]; cbn;
    (destruct (data message) as [ | update | v ]; try done;
     by destruct (Hd update)).
Qed.

Lemma handleMessage_unknown ws raw message w :
  parseMessage raw = Ok message →
  (∀ kind, type message = Some (JStr kind) → kind ∉ dispatched) →
  handleMessage ws raw w = (tt, w, [Log (UnknownMessageType (type message))]).
Proof.
  intros Hp Hkind. unfold handleMessage. rewrite Hp.
  destruct (type message) as [[ | | | kind | | ] | ]; try done.
  specialize (Hkind kind eq_refl). unfold dispatched in Hkind.
  rewrite !not_elem_of_cons in Hkind.
  destruct Hkind as (H1 & H2 & H3 & H4 & _).
  apply String.eqb_neq in H1, H2, H3, H4.
  by rewrite H1, H2, H3, H4.
Qed.

Lemma handleSyncRequest_cases s n ws :
  handleSyncRequest ws (mkWorld s n) = (tt, mkWorld s n, [])
  ∨ ∃ ref d, doc_of s ws = Some ref ∧ docs s !! ref = Some d
      ∧ handleSyncRequest ws (mkWorld s n) =
        (tt, mkWorld s (S n),
         [Send ws (createMessage "sync-response"
                     (PBytes (encodeStateVector d)) (Date_now n))]).
Proof.
  destruct (doc_of s ws) as [ref | ] eqn:Hd.
  - destruct (docs s !! ref) as [d | ] eqn:Hdoc.
    + right. exists ref, d. repeat split; try done.
      by eapply handleSyncRequest_run.
    + left. unfold handleSyncRequest. unfold_M. rewrite Hd. proj_simpl.
      by rewrite Hdoc.
  - left. by apply handleSyncRequest_skip.
Qed.

Lemma relays_effects kind p s ws n o :
  relays kind p s ws n o →
  ∃ k out, o = (tt, mkWorld s k, out) ∧ Forall (message_effect s ws) out.
Proof.
  intros [-> | (r & room & Hr & Hne & Hroom & ->)].
  - by exists n, [].
  - eexists _, _. split; [done | ]. apply Forall_forall.
    intros e (c & t & -> & Hc)%elem_of_stamped. right. by exists r, room.
Qed.

Lemma handleMessage_effects ws raw s n :
  ∃ s' k out,
    handleMessage ws raw (mkWorld s n) = (tt, mkWorld s' k, out)
    ∧ quiet s s' ∧ sockets s' = sockets s
    ∧ Forall (message_effect s ws) out.
Proof.
  assert (∀ o,
    o = (tt, mkWorld s n, @nil Effect)
    ∨ (∃ entry, o = (tt, mkWorld s n, [Log entry])) →
    ∃ s' k out,
      o = (tt, mkWorld s' k, out)
      ∧ quiet s s' ∧ sockets s' = sockets s
      ∧ Forall (message_effect s ws) out) as Hsame.
  { intros o [-> | [entry ->]]; exists s, n; eexists;
      (split; [done | ]); (split; [apply quiet_refl | ]);
      (split; [done | ]); by repeat constructor. }
  destruct (parseMessage raw) as [message | e] eqn:Hp.
  2: { rewrite (handleMessage_throw _ _ _ _ Hp). apply Hsame. right.
       by eexists. }
  assert ((∀ kind, type message = Some (JStr kind) → kind ∉ dispatched) →
    ∃ s' k out,
      handleMessage ws raw (mkWorld s n) = (tt, mkWorld s' k, out)
      ∧ quiet s s' ∧ sockets s' = sockets s
      ∧ Forall (message_effect s ws) out) as Hunknown.
  { intros Hkind. rewrite (handleMessage_unknown _ _ _ _ Hp Hkind).
    apply Hsame. right. by eexists. }
  destruct (type message) as [[ | | | kind | | ] | ] eqn:Ht;
    try (apply Hunknown; intros kind' Hk; discriminate Hk).
  destruct (decide (kind ∈ dispatched)) as [Hkind | Hkind].
  2: { apply Hunknown. by intros kind' [= <-]. }
  unfold dispatched in Hkind. rewrite !elem_of_cons in Hkind.
  destruct Hkind as [-> | [-> | [-> | [-> | Hkind]]]];
    [ | | | | by apply elem_of_nil in Hkind ].
  - destruct (data message) as [ | update | v ] eqn:Hd;
      try (rewrite (handleMessage_no_bytes _ _ _ _ _ Hp Ht);
           [apply Hsame; by left | by left | by rewrite Hd ]).
    rewrite (handleMessage_sync_update _ _ _ _ _ Hp Ht Hd).
    destruct (handleSyncUpdate_cases s n ws update)
      as [-> | (r & room & Hr & Hne & Hroom & Hdoc
                & [[_ ->] | (e & _ & ->)])].
    + apply Hsame. by left.
    + eexists _, _, _. split; [done | ]. split; [apply quiet_docs | ].
      split; [done | ]. apply Forall_forall.
      intros e (c & t & -> & Hc)%elem_of_stamped. right. by exists r, room.
    + eexists _, _, _. split; [done | ]. split; [apply quiet_docs | ].
      split; [done | ]. by repeat constructor.
  - rewrite (handleMessage_sync_request _ _ _ _ Hp Ht).
    destruct (handleSyncRequest_cases s n ws)
      as [-> | (ref & d & Hd & Hdoc & ->)]; [apply Hsame; by left | ].
    eexists _, _, _. split; [done | ]. split; [apply quiet_refl | ].
    split; [done | ]. constructor; [ | constructor ]. left. by rewrite Hd.
  - destruct (data message) as [ | update | v ] eqn:Hd;
      try (rewrite (handleMessage_no_bytes _ _ _ _ _ Hp Ht);
           [apply Hsame; by left | by right | by rewrite Hd ]).
    rewrite (handleMessage_awareness_update _ _ _ _ _ Hp Ht Hd).
    destruct (relays_effects _ _ _ _ _ _
                (handleAwarenessUpdate_cases s n ws update))
      as (k & out & -> & Hout).
    exists s, k, out. split; [done | ]. split; [apply quiet_refl | done].
  - rewrite (handleMessage_custom_message _ _ _ _ Hp Ht).
    destruct (relays_effects _ _ _ _ _ _
                (handleCustomMessage_cases s n ws (data message)))
      as (k & out & -> & Hout).
    exists s, k, out. split; [done | ]. split; [apply quiet_refl | done].
Qed.

Lemma forEach_cons {A} (f : A → M unit) x l w :
  forEach (x :: l) f w =
  let '(_, w1, o1) := f x w in
  let '(_, w2, o2) := forEach l f w1 in
  (tt, w2, o1 ++ o2).
Proof.
  cbn [forEach]. unfold mbind, M_bind.
  destruct (f x w) as [[[] w1] o1].
  by destruct (forEach l f w1) as [[[] w2] o2].
Qed.

(** A loop whose body changes only [isAlive] and [readyState] and reads no
    clock does the same as a whole. *)
Lemma forEach_quiet {A} (f : A → M unit) (T : A → Effect → Prop) :
  (∀ x s n, ∃ s' out,
     f x (mkWorld s n) = (tt, mkWorld s' n, out)
     ∧ quiet s s' ∧ Forall (T x) out) →
  ∀ l s n, ∃ s' out,
    forEach l f (mkWorld s n) = (tt, mkWorld s' n, out)
    ∧ quiet s s' ∧ Forall (λ e, ∃ x, x ∈ l ∧ T x e) out.
Proof.
  intros Hf l. induction l as [ | x l IH ]; intros s n.
  - exists s, []. split; [done | ]. split; [apply quiet_refl | done].
  - rewrite forEach_cons.
    destruct (Hf x s n) as (s1 & o1 & -> & Hq1 & Ho1).
    destruct (IH s1 n) as (s2 & o2 & -> & Hq2 & Ho2).
    exists s2, (o1 ++ o2). split; [done | ].
    split; [by eapply quiet_trans | ].
    apply Forall_app. split.
    + eapply Forall_impl; [exact Ho1 | ]. intros e He. exists x.
      split; [apply list_elem_of_here | done].
    + eapply Forall_impl; [exact Ho2 | ]. intros e (y & Hy & He).
      exists y. split; [by apply list_elem_of_further | done].
Qed.

Lemma startHeartbeat_quiet s n :
  ∃ s' out,
    startHeartbeat (mkWorld s n) = (tt, mkWorld s' n, out)
    ∧ quiet s s'
    ∧ Forall (λ e, ∃ ws, ws ∈ wss_clients s ∧ probe_effect ws e) out.
Proof.
  unfold startHeartbeat.
  match goal with
  | |- context [forEach _ ?f] =>
      destruct (forEach_quiet f probe_effect) with (l := wss_clients s)
        (s := s) (n := n) as (s' & out & Hrun & Hq & Hout)
  end.
  - intros ws s0 n0. unfold terminate. unfold_M.
    destruct (negb (truthy_bool (peek isAlive s0 ws))).
    + eexists _, _. split; [done | ]. split.
      * apply (quiet_alter _ ws s0); intros x; by destruct (decide _).
      * simpl. repeat (constructor; [unfold probe_effect; auto | ]).
        constructor.
    + eexists _, _. split; [done | ]. split.
      * by apply (quiet_alter _ ws s0).
      * simpl. repeat (constructor; [unfold probe_effect; auto | ]).
        constructor.
  - exists s', out. split; [ | done].
    unfold mbind at 1, M_bind at 1, gets. proj_simpl. rewrite Hrun.
    by rewrite app_nil_l.
Qed.

Lemma requested_truthy room : requested room ≠ "".
Proof.
  unfold requested. destruct (truthy_string room) eqn:Hr; [ | done].
  apply truthy_string_inv in Hr as (r & -> & Hne). done.
Qed.

Lemma on_connection_run room s n :
  on_connection room (mkWorld s n) =
  let '(u, w', o) :=
    joinRoom (length (sockets s)) (requested room)
      (mkWorld (accepted s (requested room)) n) in
  (u, w', Log NewClientConnected :: o).
Proof.
  unfold on_connection, accepted. fold (requested room). unfold_M.
  assert (∀ f x, alter f (length (sockets s)) (sockets s ++ [x])
                 = sockets s ++ [f x]) as Halter.
  { intros f x.
    replace (length (sockets s)) with (length (sockets s) + 0) at 1 by lia.
    by rewrite alter_app_r. }
  rewrite !Halter. unfold set_roomId, set_isAlive.
  cbn [isAlive userId roomId ws_doc readyState].
  destruct (joinRoom _ _ _) as [[u w'] o]. reflexivity.
Qed.

Lemma wf_lt s ws : wf s → ws ∈ wss_clients s → ws < length (sockets s).
Proof.
  intros Hwf Hws.
  destruct (wf_session _ Hwf ws Hws) as (r & room & Hr & _).
  unfold peek in Hr. destruct (sockets s !! ws) eqn:Hx; [ | done].
  by eapply lookup_lt_Some.
Qed.

Lemma room_for_Some s r room :
  rooms s !! r = Some room → room_for s r = room.
Proof. intros Hr. unfold room_for. by rewrite Hr. Qed.

Lemma room_for_None s r :
  rooms s !! r = None → room_for s r = mkRoom (length (docs s)) [].
Proof. intros Hr. unfold room_for. by rewrite Hr. Qed.

Lemma wf_connection s r :
  wf s → r ≠ "" → wf (joined (accepted s r) (length (sockets s)) r).
Proof.
  intros Hwf Hne.
  set (k := length (sockets s)). set (s2 := accepted s r).
  assert (room_for s2 r = room_for s r) as Hfor by done.
  assert (sockets (joined s2 k r)
          = sockets s ++ [mkSocket (Some true) None (Some r)
                            (Some (doc (room_for s r))) OPEN]) as Hsock.
  { unfold joined, s2, accepted. proj_simpl.
    replace k with (length (sockets s) + 0) by (unfold k; lia).
    by rewrite alter_app_r. }
  assert (∀ A (g : ExtendedWebSocket → option A) ws,
            ws < k → peek g (joined s2 k r) ws = peek g s ws) as Hold.
  { intros A g ws Hlt. unfold peek. rewrite Hsock.
    by rewrite lookup_app_l. }
  assert (∀ A (g : ExtendedWebSocket → option A),
            peek g (joined s2 k r) k
            = g (mkSocket (Some true) None (Some r)
                   (Some (doc (room_for s r))) OPEN)) as Hnew.
  { intros A g. unfold peek. rewrite Hsock.
    rewrite lookup_app_r by done. fold k. by rewrite Nat.sub_diag. }
  assert (rooms (joined s2 k r)
          = <[r := mkRoom (doc (room_for s r))
                     (Set_add k (clients (room_for s r)))]> (rooms s))
    as Hrooms by done.
  split.
  - change (NoDup (Set_add k (wss_clients s))). unfold Set_add.
    case_decide; [by apply wf_nodup | ].
    apply NoDup_app. split; [by apply wf_nodup | ]. split.
    + intros x Hx ->%list_elem_of_singleton. done.
    + apply NoDup_singleton.
  - intros ws Hws. change (ws ∈ Set_add k (wss_clients s)) in Hws.
    apply elem_of_Set_add in Hws as [-> | Hws].
    + exists r, (mkRoom (doc (room_for s r))
                   (Set_add k (clients (room_for s r)))).
      rewrite !Hnew, Hrooms, lookup_insert_eq. proj_simpl.
      repeat split; try done. apply elem_of_Set_add. by left.
    + pose proof (wf_lt _ _ Hwf Hws) as Hlt. fold k in Hlt.
      destruct (wf_session _ Hwf ws Hws)
        as (r' & room & Hr' & Hne' & Hroom & Hin & Hdoc).
      rewrite !Hold by done. rewrite Hrooms.
      destruct (decide (r' = r)) as [-> | Hdiff].
      * eexists r, _. rewrite lookup_insert_eq.
        rewrite (room_for_Some _ _ _ Hroom). repeat split; try done.
        proj_simpl. apply elem_of_Set_add. by right.
      * exists r', room. rewrite lookup_insert_ne by done. done.
  - intros r' room c Hroom Hc. rewrite Hrooms in Hroom.
    change (wss_clients (joined s2 k r)) with (Set_add k (wss_clients s)).
    destruct (decide (r' = r)) as [-> | Hdiff].
    + rewrite lookup_insert_eq in Hroom. injection Hroom as <-.
      cbn [clients doc] in Hc. proj_simpl.
      apply elem_of_Set_add in Hc as [-> | Hc].
      * rewrite Hnew. split; [ | done]. apply elem_of_Set_add. by left.
      * destruct (rooms s !! r) as [room | ] eqn:Hr.
        -- rewrite (room_for_Some _ _ _ Hr) in Hc.
           destruct (wf_member _ Hwf r room c Hr Hc) as [Hc1 Hc2].
           rewrite Hold by (by apply wf_lt). split; [ | done].
           apply elem_of_Set_add. by right.
        -- rewrite (room_for_None _ _ Hr) in Hc. by apply elem_of_nil in Hc.
    + rewrite lookup_insert_ne in Hroom by done.
      destruct (wf_member _ Hwf r' room c Hroom Hc) as [Hc1 Hc2].
      rewrite Hold by (by apply wf_lt). split; [ | done].
      apply elem_of_Set_add. by right.
  - intros r' room Hroom. rewrite Hrooms in Hroom.
    assert (length (docs s) ≤ length (docs (joined s2 k r)))%nat as Hle.
    { unfold joined, s2, accepted. proj_simpl. case_decide; [ | done].
      rewrite length_app. lia. }
    destruct (decide (r' = r)) as [-> | Hdiff].
    + rewrite lookup_insert_eq in Hroom. injection Hroom as <-. proj_simpl.
      destruct (rooms s !! r) as [room | ] eqn:Hr.
      * rewrite (room_for_Some _ _ _ Hr).
        pose proof (wf_doc _ Hwf r room Hr). lia.
      * rewrite (room_for_None _ _ Hr). proj_simpl.
        unfold joined, s2, accepted. proj_simpl.
        rewrite decide_True by done. rewrite length_app. simpl. lia.
    + rewrite lookup_insert_ne in Hroom by done.
      pose proof (wf_doc _ Hwf r' room Hroom). lia.
Qed.

Lemma peek_closed {A} (g : ExtendedWebSocket → option A) s ws ws' :
  (∀ x, g (set_readyState CLOSED x) = g x) →
  peek g (closed s ws) ws' = peek g s ws'.
Proof. intros Hg. unfold closed. by apply (peek_alter g _ ws ws' s). Qed.

Lemma deliver_close_run s n ws r room :
  ws ∈ wss_clients s → roomId_of s ws = Some r → r ≠ "" →
  rooms s !! r = Some room →
  deliver (EClose ws) (mkWorld s n) =
  (tt, mkWorld (left (closed s ws) ws r room) n,
   Log ClientDisconnected
   :: Log (ClientLeftRoom r (length (Set_delete ws (clients room))))
   :: if bool_decide (length (Set_delete ws (clients room)) = 0)
      then [Log (EmptyRoomDeleted r)] else []).
Proof.
  intros Hws Hr Hne Hroom. unfold deliver, on_close. unfold_M.
  rewrite (bool_decide_eq_true_2 _ Hws). proj_simpl.
  change (mkServer (rooms s) (Set_delete ws (wss_clients s))
            (alter (set_readyState CLOSED) ws (sockets s)) (docs s))
    with (closed s ws).
  rewrite (peek_closed roomId) by done. rewrite Hr.
  rewrite (truthy_string_Some _ Hne). cbn [default].
  by rewrite (leaveRoom_existing _ _ _ _ room).
Qed.

Lemma deliver_not_listening s n ws e :
  ws ∉ wss_clients s →
  e = EPong ws ∨ (∃ data, e = EMessage ws data) ∨ e = EClosing ws
  ∨ e = EClose ws ∨ e = EError ws →
  deliver e (mkWorld s n) = (tt, mkWorld s n, []).
Proof.
  intros Hws He.
  destruct He as [-> | [[data ->] | [-> | [-> | ->]]]];
    unfold deliver; unfold_M; by rewrite (bool_decide_eq_false_2 _ Hws).
Qed.

Lemma wf_close s ws r room :
  wf s → ws ∈ wss_clients s → roomId_of s ws = Some r →
  rooms s !! r = Some room →
  wf (left (closed s ws) ws r room).
Proof.
  intros Hwf Hws Hr Hroom.
  assert (∀ ws', roomId_of (left (closed s ws) ws r room) ws'
                 = roomId_of s ws') as Hrid.
  { intros ws'. by apply (peek_closed roomId). }
  assert (∀ ws', doc_of (left (closed s ws) ws r room) ws' = doc_of s ws')
    as Hdid.
  { intros ws'. by apply (peek_closed ws_doc). }
  assert (∀ r' room', r' ≠ r →
            rooms (left (closed s ws) ws r room) !! r' = Some room' ↔
            rooms s !! r' = Some room') as Hother.
  { intros r' room' Hdiff. unfold left, closed. unfold_M.
    destruct (bool_decide _).
    - by rewrite lookup_delete_ne.
    - by rewrite lookup_insert_ne. }
  split.
  - change (NoDup (Set_delete ws (wss_clients s))).
    apply NoDup_filter. by apply wf_nodup.
  - intros ws' Hws'. change (ws' ∈ Set_delete ws (wss_clients s)) in Hws'.
    apply elem_of_Set_delete in Hws' as [Hdiff Hws'].
    destruct (wf_session _ Hwf ws' Hws')
      as (r' & room' & Hr' & Hne' & Hroom' & Hin & Hdoc).
    rewrite Hrid, Hdid.
    destruct (decide (r' = r)) as [-> | Hrdiff].
    + assert (room' = room) as -> by congruence.
      assert (ws' ∈ Set_delete ws (clients room)) as Hstay.
      { by apply elem_of_Set_delete. }
      exists r, (mkRoom (doc room) (Set_delete ws (clients room))).
      repeat split; try done.
      unfold left, closed. unfold_M.
      rewrite bool_decide_eq_false_2.
      * by rewrite lookup_insert_eq.
      * intros Hlen. apply nil_length_inv in Hlen. rewrite Hlen in Hstay.
        by apply elem_of_nil in Hstay.
    + exists r', room'. repeat split; try done. by apply Hother.
  - intros r' room' c Hroom' Hc. rewrite Hrid.
    change (wss_clients (left (closed s ws) ws r room))
      with (Set_delete ws (wss_clients s)).
    destruct (decide (r' = r)) as [-> | Hrdiff].
    + unfold left, closed in Hroom'. revert Hroom'. unfold_M.
      destruct (bool_decide _).
      * by rewrite lookup_delete_eq.
      * rewrite lookup_insert_eq. intros [= <-]. cbn [clients] in Hc.
        apply elem_of_Set_delete in Hc as [Hdiff Hc].
        destruct (wf_member _ Hwf r room c Hroom Hc) as [Hc1 Hc2].
        split; [ | done]. by apply elem_of_Set_delete.
    + apply Hother in Hroom'; [ | done].
      destruct (wf_member _ Hwf r' room' c Hroom' Hc) as [Hc1 Hc2].
      split; [ | done]. apply elem_of_Set_delete. split; [ | done].
      intros ->. congruence.
  - intros r' room' Hroom'.
    change (docs (left (closed s ws) ws r room)) with (docs s).
    destruct (decide (r' = r)) as [-> | Hrdiff].
    + unfold left, closed in Hroom'. revert Hroom'. unfold_M.
      destruct (bool_decide _).
      * by rewrite lookup_delete_eq.
      * rewrite lookup_insert_eq. intros [= <-]. cbn [doc].
        by eapply wf_doc.
    + apply Hother in Hroom'; [ | done]. by eapply wf_doc.
Qed.

Lemma listening_run ws (m : M unit) s n :
  ws ∈ wss_clients s → listening ws m (mkWorld s n) = m (mkWorld s n).
Proof.
  intros Hws. unfold listening. unfold_M.
  rewrite (bool_decide_eq_true_2 _ Hws).
  by destruct (m (mkWorld s n)) as [[[] w'] out].
Qed.

Lemma quiet_lt s s' c :
  quiet s s' → c < length (sockets s) → c < length (sockets s').
Proof. intros (_ & _ & _ & Hl & _). by rewrite Hl. Qed.

(** Every event keeps the server well formed, never shrinks the heap of
    sockets, and acts only on sockets that exist. *)
Lemma deliver_wf e s n :
  wf s →
  ∃ s' k out,
    deliver e (mkWorld s n) = (tt, mkWorld s' k, out)
    ∧ wf s'
    ∧ (length (sockets s) ≤ length (sockets s'))%nat
    ∧ ∀ e' c, e' ∈ out → target e' = Some c → c < length (sockets s').
Proof.
  intros Hwf.
  assert (∀ ws, ws ∉ wss_clients s →
    ∃ s' k out, (tt, mkWorld s n, @nil Effect) = (tt, mkWorld s' k, out)
      ∧ wf s' ∧ (length (sockets s) ≤ length (sockets s'))%nat
      ∧ ∀ e' c, e' ∈ out → target e' = Some c → c < length (sockets s'))
    as Hidle.
  { intros ws Hws. exists s, n, [].
    split; [done | ]. split; [done | ]. split; [done | ].
    intros e' c He'. by apply elem_of_nil in He'. }
  destruct e as [room | ws | ws data | ws | ws | ws | ].
  - (* connection *)
    cbn [deliver]. rewrite on_connection_run.
    pose proof (wf_connection s (requested room) Hwf (requested_truthy room))
      as Hwf'.
    assert (length (sockets (joined (accepted s (requested room))
                               (length (sockets s)) (requested room)))
            = S (length (sockets s))) as Hlen.
    { unfold joined, accepted. proj_simpl.
      rewrite length_alter, length_app. simpl. lia. }
    assert (∀ d k (e' : Effect) c,
              e' ∈ snapshot (length (sockets s)) d k →
              target e' = Some c → c = length (sockets s)) as Hsnap.
    { intros d k e' c He' Ht. unfold snapshot in He'.
      destruct (bool_decide _).
      - apply list_elem_of_singleton in He' as ->. by injection Ht.
      - by apply elem_of_nil in He'. }
    destruct (rooms s !! requested room) as [room0 | ] eqn:Hroom.
    + destruct (lookup_lt_is_Some_2 (docs s) (doc room0)) as [d Hd].
      { by eapply wf_doc. }
      rewrite (joinRoom_existing _ _ _ _ room0 d) by done.
      eexists _, _, _. split; [done | ]. split; [done | ].
      split; [lia | ]. intros e' c He' Ht. rewrite Hlen.
      apply elem_of_cons in He' as [-> | He']; [done | ].
      apply elem_of_app in He' as [He' | He'].
      * rewrite (Hsnap _ _ _ _ He' Ht). lia.
      * apply list_elem_of_singleton in He' as ->. done.
    + rewrite (joinRoom_new _ _ _ _) by done.
      eexists _, _, _. split; [done | ]. split; [done | ].
      split; [lia | ]. intros e' c He' Ht. rewrite Hlen.
      apply elem_of_cons in He' as [-> | He']; [done | ].
      apply elem_of_cons in He' as [-> | He']; [done | ].
      apply elem_of_app in He' as [He' | He'].
      * rewrite (Hsnap _ _ _ _ He' Ht). lia.
      * apply list_elem_of_singleton in He' as ->. done.
  - (* pong *)
    destruct (decide (ws ∈ wss_clients s)) as [Hws | Hws].
    2: { rewrite (deliver_not_listening s n ws) by auto. by apply (Hidle ws). }
    unfold deliver. rewrite listening_run by done.
    unfold on_pong. unfold_M.
    pose proof (quiet_alter (set_isAlive true) ws s
                  (λ _, eq_refl) (λ _, eq_refl)) as Hq.
    eexists _, _, _. split; [done | ].
    split; [by eapply quiet_wf | ].
    split; [proj_simpl; by rewrite length_alter | ].
    intros e' c He'. by apply elem_of_nil in He'.
  - (* message *)
    destruct (decide (ws ∈ wss_clients s)) as [Hws | Hws].
    2: { rewrite (deliver_not_listening s n ws) by eauto. by apply (Hidle ws). }
    unfold deliver. rewrite listening_run by done. unfold on_message.
    destruct (handleMessage_effects ws data s n)
      as (s' & k & out & -> & Hq & _ & Hout).
    exists s', k, out. split; [done | ].
    split; [by eapply quiet_wf | ].
    split; [destruct Hq as (_ & _ & _ & -> & _); done | ].
    intros e' c He' Ht. apply (quiet_lt s s' c Hq).
    rewrite Forall_forall in Hout. specialize (Hout e' He').
    destruct e' as [c' frame | c' | c' | entry]; try done.
    injection Ht as ->.
    destruct Hout as [[-> _] | (r & room & Hr & Hroom & Hc)].
    + by apply wf_lt.
    + apply elem_of_recipients in Hc as (_ & _ & Hc).
      apply wf_lt; [done | ]. by eapply wf_member.
  - (* closing *)
    destruct (decide (ws ∈ wss_clients s)) as [Hws | Hws].
    2: { rewrite (deliver_not_listening s n ws) by auto. by apply (Hidle ws). }
    unfold deliver. rewrite listening_run by done. unfold_M.
    pose proof (quiet_alter (set_readyState CLOSING) ws s
                  (λ _, eq_refl) (λ _, eq_refl)) as Hq.
    eexists _, _, _. split; [done | ].
    split; [by eapply quiet_wf | ].
    split; [proj_simpl; by rewrite length_alter | ].
    intros e' c He'. by apply elem_of_nil in He'.
  - (* close *)
    destruct (decide (ws ∈ wss_clients s)) as [Hws | Hws].
    2: { rewrite (deliver_not_listening s n ws) by auto 6. by apply (Hidle ws). }
    destruct (wf_session _ Hwf ws Hws) as (r & room & Hr & Hne & Hroom & _).
    rewrite (deliver_close_run s n ws r room) by done.
    eexists _, _, _. split; [done | ].
    split; [by apply wf_close | ].
    split.
    { unfold left, closed. unfold_M. by rewrite length_alter. }
    intros e' c He' Ht.
    apply elem_of_cons in He' as [-> | He']; [done | ].
    apply elem_of_cons in He' as [-> | He']; [done | ].
    destruct (bool_decide _).
    + apply list_elem_of_singleton in He' as ->. done.
    + by apply elem_of_nil in He'.
  - (* error *)
    destruct (decide (ws ∈ wss_clients s)) as [Hws | Hws].
    2: { rewrite (deliver_not_listening s n ws) by auto 6. by apply (Hidle ws). }
    unfold deliver. rewrite listening_run by done. unfold on_error. unfold_M.
    eexists _, _, _. split; [done | ]. split; [done | ]. split; [done | ].
    intros e' c He' Ht. apply list_elem_of_singleton in He' as ->. done.
  - (* heartbeat *)
    unfold deliver.
    destruct (startHeartbeat_quiet s n) as (s' & out & -> & Hq & Hout).
    exists s', n, out. split; [done | ].
    split; [by eapply quiet_wf | ].
    split; [destruct Hq as (_ & _ & _ & -> & _); done | ].
    intros e' c He' Ht. apply (quiet_lt s s' c Hq).
    rewrite Forall_forall in Hout.
    destruct (Hout e' He') as (ws & Hws & Hprobe).
    destruct Hprobe as [-> | [-> | ->]]; try done;
      injection Ht as <-; by apply wf_lt.
Qed.

Lemma run_snoc evs e :
  run (evs ++ [e]) =
  let '(w, out) := run evs in
  let '(_, w', o) := deliver e w in
  (w', out ++ o).
Proof.
  unfold run. rewrite forEach_app.
  destruct (forEach evs deliver initial) as [[[] w] out].
  rewrite forEach_cons. destruct (deliver e w) as [[[] w'] o].
  cbn [forEach]. unfold mret, M_ret. by rewrite app_nil_r.
Qed.

(** Every state the server reaches is well formed, and everything it has
    done so far was done to a socket that exists. *)
Lemma run_wf evs w out :
  run evs = (w, out) →
  wf (server w)
  ∧ ∀ e c, e ∈ out → target e = Some c → c < length (sockets (server w)).
Proof.
  revert w out. induction evs as [ | e evs IH ] using rev_ind; intros w out.
  - intros [= <- <-]. split.
    + split; cbn.
      * apply NoDup_nil_2.
      * intros ws Hws. by apply elem_of_nil in Hws.
      * intros r room c Hroom. by rewrite lookup_empty in Hroom.
      * intros r room Hroom. by rewrite lookup_empty in Hroom.
    + intros e c He. by apply elem_of_nil in He.
  - rewrite run_snoc. destruct (run evs) as [[s n] out0].
    destruct (IH _ _ eq_refl) as [Hwf Hout0].
    destruct (deliver_wf e s n Hwf) as (s' & k & o & -> & Hwf' & Hle & Ho).
    intros [= <- <-]. split; [done | ].
    intros e' c He' Ht. cbn [server] in *.
    apply elem_of_app in He' as [He' | He'].
    + specialize (Hout0 e' c He' Ht). lia.
    + by eapply Ho.
Qed.

End Invariant.

(** ** The specification's claims *)

Section Claims.

Context `{Host} `{Yjs}.

Lemma deliver_message s n ws raw :
  ws ∈ wss_clients s →
  deliver (EMessage ws raw) (mkWorld s n) = handleMessage ws raw (mkWorld s n).
Proof. intros Hws. cbn [deliver]. by rewrite listening_run. Qed.

Lemma handleMessage_awareness_other ws raw message w :
  parseMessage raw = Ok message →
  type message = Some (JStr "awareness-update") →
  (∀ update, data message ≠ PBytes update) →
  handleMessage ws raw w = (tt, w, []).
Proof.
  intros Hp Ht Hd. unfold handleMessage. rewrite Hp, Ht. cbn.
  destruct (data message) as [ | update | v ]; try done.
  by destruct (Hd update).
Qed.

Lemma parseMessage_object props :
  parseMessage (Text (JObj props)) =
  match get "data" props with
  | Some (JArr elems) =>
      match new_Uint8Array elems with
      | Throw e => Throw e
      | Ok bytes => Ok (mkMessage (get "type" props) (PBytes bytes))
      end
  | Some v => Ok (mkMessage (get "type" props) (PValue v))
  | None => Ok (mkMessage (get "type" props) PUndefined)
  end.
Proof. reflexivity. Qed.

(** C7. A frame the decoder rejects, and a decoded frame whose kind is not
    one the server dispatches on (every kind outside the five of the
    protocol, and [sync-response] itself), is answered by one console entry
    and nothing else: the world is the one before the frame, nothing is
    sent, and the events that follow on the connection are handled as if
    the frame had not come. *)
Theorem undecodable_or_unknown_frame_dropped ws raw s n evs :
  ws ∈ wss_clients s →
  (∃ e, parseMessage raw = Throw e)
  ∨ (∃ message, parseMessage raw = Ok message
       ∧ ∀ kind, type message = Some (JStr kind) → kind ∉ dispatched) →
  ∃ entry,
    deliver (EMessage ws raw) (mkWorld s n) = (tt, mkWorld s n, [Log entry])
    ∧ forEach (EMessage ws raw :: evs) deliver (mkWorld s n)
      = let '(u, w', out) := forEach evs deliver (mkWorld s n) in
        (u, w', Log entry :: out).
Proof.
  intros Hws Hbad.
  assert (∃ entry, handleMessage ws raw (mkWorld s n)
                   = (tt, mkWorld s n, [Log entry])) as [entry Hrun].
  { unfold handleMessage.
    destruct Hbad as [[e ->] | (message & -> & Hkind)]; [by eexists | ].
    destruct (type message) as [[ | | | kind | | ] | ]; try by eexists.
    specialize (Hkind kind eq_refl). unfold dispatched in Hkind.
    rewrite !not_elem_of_cons in Hkind.
    destruct Hkind as (H1 & H2 & H3 & H4 & _).
    apply String.eqb_neq in H1, H2, H3, H4.
    rewrite H1, H2, H3, H4. by eexists. }
  exists entry. rewrite forEach_cons, deliver_message, Hrun by done.
  split; [done | ].
  by destruct (forEach evs deliver (mkWorld s n)) as [[[] w'] out].
Qed.

(** C10 (amended). Each handler returns without sending anything or
    changing any state when one of its own guards fails: [handleSyncUpdate]
    when the session has no document, no room id, or a room id absent from
    the registry; [handleSyncRequest] when the session has no document;
    [handleAwarenessUpdate] and [handleCustomMessage] when the session has
    no room id or a room id absent from the registry. Leaving a room whose
    id is not in the registry changes nothing. *)
Theorem handlers_return_at_their_guards s n ws :
  (∀ update,
     doc_of s ws = None ∨ truthy_string (roomId_of s ws) = false
     ∨ rooms s !! default "" (roomId_of s ws) = None →
     handleSyncUpdate ws update (mkWorld s n) = (Ok tt, mkWorld s n, []))
  ∧ (doc_of s ws = None →
     handleSyncRequest ws (mkWorld s n) = (tt, mkWorld s n, []))
  ∧ (∀ update,
       truthy_string (roomId_of s ws) = false
       ∨ rooms s !! default "" (roomId_of s ws) = None →
       handleAwarenessUpdate ws update (mkWorld s n) = (tt, mkWorld s n, []))
  ∧ (∀ p,
       truthy_string (roomId_of s ws) = false
       ∨ rooms s !! default "" (roomId_of s ws) = None →
       handleCustomMessage ws p (mkWorld s n) = (tt, mkWorld s n, []))
  ∧ (∀ r, rooms s !! r = None →
       leaveRoom ws r (mkWorld s n) = (tt, mkWorld s n, [])).
Proof.
  split; [ | split; [ | split; [ | split ]]].
  - intros update. apply handleSyncUpdate_skip.
  - apply handleSyncRequest_skip.
  - intros update. apply handleAwarenessUpdate_skip.
  - intros p. apply handleCustomMessage_skip.
  - intros r. apply leaveRoom_absent.
Qed.

(** C9. A [sync-request] frame from a connected session is answered with
    exactly one [sync-response] frame, sent to the requester only, whose
    payload is the current state vector of the document of the requester's
    room; the server is unchanged. *)
Theorem sync_request_answered_to_requester evs w out0 ws raw message :
  run evs = (w, out0) →
  ws ∈ wss_clients (server w) →
  parseMessage raw = Ok message →
  type message = Some (JStr "sync-request") →
  ∃ r room d,
    roomId_of (server w) ws = Some r
    ∧ rooms (server w) !! r = Some room
    ∧ ws ∈ clients room
    ∧ docs (server w) !! doc room = Some d
    ∧ deliver (EMessage ws raw) w =
      (tt, mkWorld (server w) (S (reads w)),
       [Send ws (createMessage "sync-response"
                   (PBytes (encodeStateVector d)) (Date_now (reads w)))])
    ∧ parseMessage (createMessage "sync-response"
                      (PBytes (encodeStateVector d)) (Date_now (reads w)))
      = Ok (mkMessage (Some (JStr "sync-response"))
              (PBytes (encodeStateVector d))).
Proof.
  intros Hrun Hws Hp Ht. destruct (run_wf _ _ _ Hrun) as [Hwf _].
  destruct w as [s n]. cbn [server reads] in *.
  destruct (wf_session _ Hwf ws Hws)
    as (r & room & Hr & Hne & Hroom & Hin & Hdoc).
  destruct (lookup_lt_is_Some_2 (docs s) (doc room)) as [d Hd].
  { by eapply wf_doc. }
  exists r, room, d. repeat split; try done.
  - rewrite deliver_message by done.
    rewrite (handleMessage_sync_request _ _ _ _ Hp Ht).
    by eapply handleSyncRequest_run.
  - apply parse_create_bytes.
Qed.

Lemma target_stamped kind p n cs : omap target (stamped kind p n cs) = cs.
Proof.
  revert n. induction cs as [ | c cs IH ]; intros n; [done | ].
  rewrite stamped_cons. cbn [omap list_omap target]. by rewrite IH.
Qed.

Lemma stamped_nil_inv kind p n cs : stamped kind p n cs = [] → cs = [].
Proof. destruct cs; [done | ]. by rewrite stamped_cons. Qed.

Lemma elem_of_stamped_2 kind p n cs c :
  c ∈ cs → ∃ t, Send c (createMessage kind p t) ∈ stamped kind p n cs.
Proof.
  intros (i & Hi)%list_elem_of_lookup_1. exists (Date_now (n + i)).
  unfold stamped.
  by apply (elem_of_lookup_imap_2
              (λ i c, Send c (createMessage kind p (Date_now (n + i)))) cs c i).
Qed.

Lemma Send_in_stamped kind p n cs c frame :
  Send c frame ∈ stamped kind p n cs →
  c ∈ cs ∧ ∃ t, frame = createMessage kind p t.
Proof.
  intros (c' & t & [= -> ->] & Hc)%elem_of_stamped. split; [done | by exists t].
Qed.

(** C2 (amended). A [sync-update] frame with a byte-sequence payload,
    received from a connected session, is handed to [Y.applyUpdate] on the
    document of the sender's room. When the library accepts the bytes, the
    same bytes are sent, as a [sync-update] frame, to every other member of
    that room whose socket is open, and to no one else. When the library
    throws on them, the exception is written to the console and nothing is
    sent. *)
Theorem sync_update_applied_and_relayed evs w out0 ws raw message update :
  run evs = (w, out0) →
  ws ∈ wss_clients (server w) →
  parseMessage raw = Ok message →
  type message = Some (JStr "sync-update") →
  data message = PBytes update →
  ∃ r room d w' out,
    roomId_of (server w) ws = Some r
    ∧ rooms (server w) !! r = Some room
    ∧ ws ∈ clients room
    ∧ docs (server w) !! doc room = Some d
    ∧ deliver (EMessage ws raw) w = (tt, w', out)
    ∧ server w'
      = set_docs (alter (λ d, applyUpdate d update) (doc room)) (server w)
    ∧ docs (server w') !! doc room = Some (applyUpdate d update)
    ∧ match applyUpdate_throws d update with
      | None =>
          out = stamped "sync-update" (PBytes update) (reads w)
                  (recipients (server w) ws (clients room))
          ∧ (∀ c, c ∈ clients room → c ≠ ws → is_open (server w) c = true →
               ∃ frame, Send c frame ∈ out)
          ∧ (∀ c frame, Send c frame ∈ out →
               c ∈ clients room ∧ c ≠ ws ∧ is_open (server w) c = true
               ∧ parseMessage frame
                 = Ok (mkMessage (Some (JStr "sync-update")) (PBytes update)))
      | Some e => out = [Log (ErrorHandlingMessage e)]
      end.
Proof.
  intros Hrun Hws Hp Ht Hdata. destruct (run_wf _ _ _ Hrun) as [Hwf _].
  destruct w as [s n]. cbn [server reads] in *.
  destruct (wf_session _ Hwf ws Hws)
    as (r & room & Hr & Hne & Hroom & Hin & Hdoc).
  destruct (lookup_lt_is_Some_2 (docs s) (doc room)) as [d Hd].
  { by eapply wf_doc. }
  assert (throws_at s (doc room) update = applyUpdate_throws d update)
    as Hthrows.
  { unfold throws_at. by rewrite Hd. }
  assert (docs (set_docs (alter (λ d, applyUpdate d update) (doc room)) s)
            !! doc room = Some (applyUpdate d update)) as Hafter.
  { unfold set_docs. proj_simpl. rewrite list_lookup_alter_eq. by rewrite Hd. }
  exists r, room, d.
  rewrite deliver_message by done.
  rewrite (handleMessage_sync_update _ _ _ _ _ Hp Ht Hdata).
  destruct (applyUpdate_throws d update) as [e | ].
  - rewrite (try_catch_throw _ _ _ e
               (handleSyncUpdate_throw s n ws update r room e
                  (ex_intro _ _ Hdoc) Hr Hne Hroom Hthrows)).
    eexists _, _.
    split; [done | ]. split; [done | ]. split; [done | ]. split; [done | ].
    split; [done | ]. cbn [server]. by split.
  - rewrite (try_catch_run _ _ _ _ _
               (handleSyncUpdate_run s n ws update r room
                  (ex_intro _ _ Hdoc) Hr Hne Hroom Hthrows)).
    eexists _, _.
    split; [done | ]. split; [done | ]. split; [done | ]. split; [done | ].
    split; [done | ]. cbn [server]. split; [done | ]. split; [done | ].
    split; [done | ]. split.
    + intros c Hc Hcne Hopen.
      destruct (elem_of_stamped_2 "sync-update" (PBytes update) n
                  (recipients s ws (clients room)) c) as [t Ht'].
      { by apply elem_of_recipients. }
      by eexists.
    + intros c frame (Hc & t & ->)%Send_in_stamped.
      apply elem_of_recipients in Hc as (? & ? & ?).
      repeat split; try done. apply parse_create_bytes.
Qed.

(** C4. Whatever the state of the server, handling a [sync-update], an
    [awareness-update] or a [custom-message] frame sends nothing to the
    session the frame came from and nothing to a socket that is not open;
    and when the handler's guards pass (and, for a [sync-update], the
    library accepts the bytes), the server does nothing but send the frame,
    in order, to all the other members of the room whose socket is open: a
    member that is not open is passed over without a console entry and the
    loop goes on. *)
Theorem broadcast_excludes_sender_and_skips_closed
    ws raw s n message kind :
  parseMessage raw = Ok message →
  type message = Some (JStr kind) →
  kind ∈ ["sync-update"; "awareness-update"; "custom-message"] →
  ∃ s' k out,
    handleMessage ws raw (mkWorld s n) = (tt, mkWorld s' k, out)
    ∧ (∀ frame, Send ws frame ∉ out)
    ∧ (∀ c frame, Send c frame ∈ out → is_open s c = true)
    ∧ (∀ r room,
         roomId_of s ws = Some r → r ≠ "" → rooms s !! r = Some room →
         (kind = "sync-update" → is_Some (doc_of s ws)) →
         (kind = "sync-update" →
          ∀ update, data message = PBytes update →
                    throws_at s (doc room) update = None) →
         (kind ≠ "custom-message" → ∃ update, data message = PBytes update) →
         out = stamped kind (data message) n (recipients s ws (clients room))
         ∧ omap target out = recipients s ws (clients room)).
Proof.
  intros Hp Ht Hkind.
  assert (∀ kind' p (room : RoomData),
    (∀ frame, Send ws frame ∉ stamped kind' p n (recipients s ws (clients room)))
    ∧ (∀ c frame,
         Send c frame ∈ stamped kind' p n (recipients s ws (clients room)) →
         is_open s c = true)) as Hsent.
  { intros kind' p room. split.
    - intros frame [Hc _]%Send_in_stamped.
      by apply elem_of_recipients in Hc as (? & ? & ?).
    - intros c frame [Hc _]%Send_in_stamped.
      by apply elem_of_recipients in Hc as (? & ? & ?). }
  assert (∀ out : list Effect,
    out = [] ∨ (∃ entry, out = [Log entry]) →
    (∀ frame, Send ws frame ∉ out)
    ∧ (∀ c frame, Send c frame ∈ out → is_open s c = true)) as Hnone.
  { intros out [-> | [entry ->]]; split.
    - intros frame. apply not_elem_of_nil.
    - by intros c frame ?%not_elem_of_nil.
    - by intros frame ?%list_elem_of_singleton.
    - by intros c frame ?%list_elem_of_singleton. }
  assert (∀ kind' p (room : RoomData),
    [] = stamped kind' p n (recipients s ws (clients room)) →
    [] = stamped kind' p n (recipients s ws (clients room))
    ∧ omap target (@nil Effect) = recipients s ws (clients room)) as Hempty.
  { intros kind' p room Hout. split; [done | ].
    symmetry in Hout. by rewrite (stamped_nil_inv _ _ _ _ Hout). }
  rewrite !elem_of_cons in Hkind.
  destruct Hkind as [-> | [-> | [-> | Hkind]]];
    [ | | | by apply elem_of_nil in Hkind ].
  - (* sync-update *)
    destruct (data message) as [ | update | v ] eqn:Hdata.
    + rewrite (handleMessage_no_bytes _ _ _ _ _ Hp Ht (or_introl eq_refl))
        by (by rewrite Hdata).
      destruct (Hnone [] (or_introl eq_refl)) as [Hs1 Hs2].
      exists s, n, []. split; [done | ]. split; [done | ]. split; [done | ].
      intros r room _ _ _ _ _ Hbytes. by destruct Hbytes as [? ?].
    + rewrite (handleMessage_sync_update _ _ _ _ _ Hp Ht Hdata).
      destruct (handleSyncUpdate_cases s n ws update)
        as [Hskip | (r & room & Hr & Hne & Hroom & Hd
                     & [[Hreturns Hrun] | (e & Hthrows & Hrun)])].
      * rewrite Hskip. destruct (Hnone [] (or_introl eq_refl)) as [Hs1 Hs2].
        exists s, n, []. split; [done | ]. split; [done | ].
        split; [done | ].
        intros r room Hr Hne Hroom Hd Hreturns _. apply Hempty.
        pose proof (try_catch_run _ caught _ _ _
                      (handleSyncUpdate_run s n ws update r room
                         (Hd eq_refl) Hr Hne Hroom
                         (Hreturns eq_refl update eq_refl))) as Hrun.
        rewrite Hskip in Hrun. congruence.
      * rewrite Hrun.
        destruct (Hsent "sync-update" (PBytes update) room) as [Hs1 Hs2].
        eexists _, _, _. split; [done | ]. split; [done | ]. split; [done | ].
        intros r' room' Hr' _ Hroom' _ _ _.
        assert (room' = room) as -> by congruence.
        split; [done | apply target_stamped].
      * rewrite Hrun.
        destruct (Hnone [Log (ErrorHandlingMessage e)])
          as [Hs1 Hs2]; [right; by eexists | ].
        eexists _, _, _. split; [done | ]. split; [done | ]. split; [done | ].
        intros r' room' Hr' _ Hroom' _ Hreturns _.
        assert (room' = room) as -> by congruence.
        rewrite (Hreturns eq_refl update eq_refl) in Hthrows. discriminate.
    + rewrite (handleMessage_no_bytes _ _ _ _ _ Hp Ht (or_introl eq_refl))
        by (by rewrite Hdata).
      destruct (Hnone [] (or_introl eq_refl)) as [Hs1 Hs2].
      exists s, n, []. split; [done | ]. split; [done | ]. split; [done | ].
      intros r room _ _ _ _ _ Hbytes. by destruct Hbytes as [? ?].
  - (* awareness-update *)
    destruct (data message) as [ | update | v ] eqn:Hdata.
    + rewrite (handleMessage_no_bytes _ _ _ _ _ Hp Ht (or_intror eq_refl))
        by (by rewrite Hdata).
      destruct (Hnone [] (or_introl eq_refl)) as [Hs1 Hs2].
      exists s, n, []. split; [done | ]. split; [done | ]. split; [done | ].
      intros r room _ _ _ _ _ Hbytes. by destruct Hbytes as [? ?].
    + rewrite (handleMessage_awareness_update _ _ _ _ _ Hp Ht Hdata).
      destruct (handleAwarenessUpdate_cases s n ws update)
        as [Hskip | (r & room & Hr & Hne & Hroom & Hrun)].
      * rewrite Hskip. destruct (Hnone [] (or_introl eq_refl)) as [Hs1 Hs2].
        exists s, n, []. split; [done | ]. split; [done | ].
        split; [done | ].
        intros r room Hr Hne Hroom _ _ _. apply Hempty.
        rewrite (handleAwarenessUpdate_run s n ws update r room Hr Hne Hroom)
          in Hskip.
        congruence.
      * rewrite Hrun.
        destruct (Hsent "awareness-update" (PBytes update) room)
          as [Hs1 Hs2].
        eexists _, _, _. split; [done | ]. split; [done | ]. split; [done | ].
        intros r' room' Hr' _ Hroom' _ _ _.
        assert (room' = room) as -> by congruence.
        split; [done | apply target_stamped].
    + rewrite (handleMessage_no_bytes _ _ _ _ _ Hp Ht (or_intror eq_refl))
        by (by rewrite Hdata).
      destruct (Hnone [] (or_introl eq_refl)) as [Hs1 Hs2].
      exists s, n, []. split; [done | ]. split; [done | ]. split; [done | ].
      intros r room _ _ _ _ _ Hbytes. by destruct Hbytes as [? ?].
  - (* custom-message *)
    rewrite (handleMessage_custom_message _ _ _ _ Hp Ht).
    destruct (handleCustomMessage_cases s n ws (data message))
      as [Hskip | (r & room & Hr & Hne & Hroom & Hrun)].
    + rewrite Hskip. destruct (Hnone [] (or_introl eq_refl)) as [Hs1 Hs2].
      exists s, n, []. split; [done | ]. split; [done | ]. split; [done | ].
      intros r room Hr Hne Hroom _ _ _. apply Hempty.
      rewrite (handleCustomMessage_run s n ws _ r room Hr Hne Hroom) in Hskip.
      congruence.
    + rewrite Hrun.
      destruct (Hsent "custom-message" (data message) room) as [Hs1 Hs2].
      eexists _, _, _. split; [done | ]. split; [done | ]. split; [done | ].
      intros r' room' Hr' _ Hroom' _ _ _.
      assert (room' = room) as -> by congruence.
      split; [done | apply target_stamped].
Qed.

Lemma createMessage_props kind p t :
  ∃ props,
    createMessage kind p t = Text (JObj props)
    ∧ get "type" props = Some (JStr kind)
    ∧ get "data" props = match p with
                         | PBytes bytes => Some (JArr (Array_from bytes))
                         | PValue v => Some (wire v)
                         | PUndefined => None
                         end.
Proof.
  destruct p as [ | bytes | v ]; eexists; (split; [reflexivity | ]);
    cbn; try done.
  by rewrite wire_Array_from.
Qed.

(** C6 (amended). An [awareness-update] or [custom-message] frame received
    from a connected session leaves the server as it was: registry, member
    sets, sockets and documents. When its [data] is an array of integers
    between 0 and 255, or, for a custom message, a value that is not an
    array and holds no [NaN], infinity or negative zero, or is missing, every
    other member of the room whose socket is open is sent a frame of the
    same kind with that very [data]. *)
Theorem presence_and_custom_relayed_verbatim evs w out0 ws props kind :
  run evs = (w, out0) →
  ws ∈ wss_clients (server w) →
  get "type" props = Some (JStr kind) →
  kind = "awareness-update" ∨ kind = "custom-message" →
  ∃ k out,
    deliver (EMessage ws (Text (JObj props))) w
    = (tt, mkWorld (server w) k, out)
    ∧ (verbatim kind (get "data" props) →
       ∃ r room,
         roomId_of (server w) ws = Some r
         ∧ rooms (server w) !! r = Some room
         ∧ omap target out = recipients (server w) ws (clients room)
         ∧ ∀ c frame, Send c frame ∈ out →
             ∃ props',
               frame = Text (JObj props')
               ∧ get "type" props' = Some (JStr kind)
               ∧ get "data" props' = get "data" props).
Proof.
  intros Hrun Hws Htype Hkind. destruct (run_wf _ _ _ Hrun) as [Hwf _].
  destruct w as [s n]. cbn [server reads] in *.
  destruct (wf_session _ Hwf ws Hws)
    as (r & room & Hr & Hne & Hroom & Hin & Hdoc).
  rewrite deliver_message by done.
  (* what a relayed frame carries *)
  assert (∀ p (o : option json),
    match p with
    | PBytes bytes => Some (JArr (Array_from bytes))
    | PValue v => Some (wire v)
    | PUndefined => None
    end = o →
    ∀ c frame,
      Send c frame ∈ stamped kind p n (recipients s ws (clients room)) →
      ∃ props', frame = Text (JObj props')
                ∧ get "type" props' = Some (JStr kind)
                ∧ get "data" props' = o) as Hframe.
  { intros p o Ho c frame (_ & t & ->)%Send_in_stamped.
    destruct (createMessage_props kind p t) as (props' & -> & Ht' & Hd').
    exists props'. by rewrite Hd', Ho. }
  pose proof (parseMessage_object props) as Hp. rewrite Htype in Hp.
  destruct Hkind as [-> | ->].
  - (* awareness-update *)
    destruct (get "data" props) as [[ | b | x | str | elems | kvs ] | ] eqn:Hd;
      try (rewrite (handleMessage_awareness_other _ _ _ _ Hp eq_refl)
             by (intros u; discriminate);
           exists n, []; split; [done | ]; cbn;
           first [ by intros [Hv _] | by intros Hv ]).
    destruct (new_Uint8Array elems) as [bytes | e] eqn:Hnew.
    + rewrite (handleMessage_awareness_update _ _ _ _ _ Hp eq_refl eq_refl).
      rewrite (handleAwarenessUpdate_run s n ws bytes r room Hr Hne Hroom).
      eexists _, _. split; [done | ]. intros [bytes' ->].
      rewrite new_Uint8Array_from in Hnew. injection Hnew as ->.
      exists r, room. split; [done | ]. split; [done | ].
      split; [apply target_stamped | ]. by apply Hframe.
    + rewrite (handleMessage_throw _ _ _ _ Hp).
      eexists _, _. split; [done | ]. intros [bytes' ->].
      by rewrite new_Uint8Array_from in Hnew.
  - (* custom-message *)
    assert (∀ p o,
      match p with
      | PBytes bytes => Some (JArr (Array_from bytes))
      | PValue v => Some (wire v)
      | PUndefined => None
      end = o →
      ∃ k out,
        handleCustomMessage ws p (mkWorld s n) = (tt, mkWorld s k, out)
        ∧ ∃ r room,
            roomId_of s ws = Some r ∧ rooms s !! r = Some room
            ∧ omap target out = recipients s ws (clients room)
            ∧ ∀ c frame, Send c frame ∈ out →
                ∃ props', frame = Text (JObj props')
                          ∧ get "type" props' = Some (JStr "custom-message")
                          ∧ get "data" props' = o) as Hcustom.
    { intros p o Ho.
      rewrite (handleCustomMessage_run s n ws p r room Hr Hne Hroom).
      eexists _, _. split; [done | ]. exists r, room.
      split; [done | ]. split; [done | ].
      split; [apply target_stamped | ]. by apply Hframe. }
    destruct (get "data" props) as [[ | b | x | str | elems | kvs ] | ] eqn:Hd;
      try (rewrite (handleMessage_custom_message _ _ _ _ Hp eq_refl);
           cbn [data];
           match goal with
           | |- context [handleCustomMessage ws (PValue ?v) _] =>
               destruct (Hcustom (PValue v) _ eq_refl)
                 as (k & out & -> & Hrel)
           end;
           exists k, out; split; [done | ]; intros [_ Hst];
           by rewrite (wire_stable_id _ Hst) in Hrel).
    + destruct (new_Uint8Array elems) as [bytes | e] eqn:Hnew.
      * rewrite (handleMessage_custom_message _ _ _ _ Hp eq_refl). cbn [data].
        destruct (Hcustom (PBytes bytes) _ eq_refl) as (k & out & -> & Hrel).
        exists k, out. split; [done | ]. intros [bytes' ->].
        rewrite new_Uint8Array_from in Hnew. by injection Hnew as ->.
      * rewrite (handleMessage_throw _ _ _ _ Hp).
        eexists _, _. split; [done | ]. intros [bytes' ->].
        by rewrite new_Uint8Array_from in Hnew.
    + rewrite (handleMessage_custom_message _ _ _ _ Hp eq_refl). cbn [data].
      destruct (Hcustom PUndefined _ eq_refl) as (k & out & -> & Hrel).
      exists k, out. split; [done | ]. by intros _.
Qed.

Lemma joinRoom_server ws r s n :
  server (joinRoom ws r (mkWorld s n)).1.2 = joined s ws r.
Proof.
  destruct (rooms s !! r) as [room | ] eqn:Hr.
  - destruct (docs s !! doc room) as [d | ] eqn:Hd.
    + by rewrite (joinRoom_existing _ _ _ _ room d).
    + unfold joinRoom, joined, room_for. unfold_M. rewrite Hr.
      rewrite !decide_False by done. cbn [default]. proj_simpl. rewrite Hr.
      proj_simpl. by rewrite Hd.
  - by rewrite joinRoom_new.
Qed.

Lemma leaveRoom_server ws r s n :
  server (leaveRoom ws r (mkWorld s n)).1.2 =
  match rooms s !! r with
  | Some room => left s ws r room
  | None => s
  end.
Proof.
  destruct (rooms s !! r) as [room | ] eqn:Hr.
  - by rewrite (leaveRoom_existing _ _ _ _ room).
  - by rewrite leaveRoom_absent.
Qed.

Lemma Set_add_to_set (ws : WsRef) (l : list WsRef) :
  list_to_set (C := gset WsRef) (Set_add ws l) = {[ws]} ∪ list_to_set l.
Proof.
  apply set_eq. intros x.
  rewrite elem_of_list_to_set, elem_of_Set_add. set_solver.
Qed.

Lemma Set_delete_to_set (ws : WsRef) (l : list WsRef) :
  list_to_set (C := gset WsRef) (Set_delete ws l) = list_to_set l ∖ {[ws]}.
Proof.
  apply set_eq. intros x.
  rewrite elem_of_list_to_set, elem_of_Set_delete.
  rewrite elem_of_difference, elem_of_singleton, elem_of_list_to_set. tauto.
Qed.

Lemma Set_add_nonempty (ws : WsRef) (l : list WsRef) : Set_add ws l ≠ [].
Proof.
  intros Hnil. assert (ws ∈ Set_add ws l) as Hin.
  { apply elem_of_Set_add. by left. }
  rewrite Hnil in Hin. by apply elem_of_nil in Hin.
Qed.

Lemma perform_tracks op s n m :
  registry_tracks s m →
  registry_tracks (server (perform op (mkWorld s n)).1.2) (track m op).
Proof.
  intros Hrel r'. destruct op as [ws r | ws r]; cbn [perform track].
  - rewrite joinRoom_server. unfold joined. proj_simpl.
    destruct (decide (r' = r)) as [-> | Hdiff].
    + rewrite lookup_insert_eq. proj_simpl.
      split; [apply Set_add_nonempty | ]. rewrite Set_add_to_set.
      f_equal. specialize (Hrel r). unfold room_for.
      destruct (rooms s !! r) as [room | ]; cbn [default clients].
      * by destruct Hrel.
      * by rewrite Hrel.
    + rewrite lookup_insert_ne by done. apply Hrel.
  - rewrite leaveRoom_server. pose proof (Hrel r) as Hr.
    destruct (rooms s !! r) as [room | ] eqn:Hroom.
    + destruct Hr as [Hne Hset]. unfold left, set_rooms. proj_simpl.
      destruct (decide (r' = r)) as [-> | Hdiff].
      * rewrite <- Hset, <- Set_delete_to_set. case_bool_decide as Hlen.
        -- rewrite lookup_delete_eq. apply nil_length_inv in Hlen.
           by rewrite Hlen.
        -- rewrite lookup_insert_eq. proj_simpl. split; [ | done].
           intros Hnil. by rewrite Hnil in Hlen.
      * specialize (Hrel r'). case_bool_decide.
        -- by rewrite lookup_delete_ne.
        -- by rewrite lookup_insert_ne.
    + destruct (decide (r' = r)) as [-> | Hdiff].
      * rewrite Hroom, Hr. apply set_eq. intros x.
        rewrite elem_of_difference. split; [by intros [? _] | done].
      * apply Hrel.
Qed.

Lemma forEach_perform_tracks ops s n m :
  registry_tracks s m →
  registry_tracks (server (forEach ops perform (mkWorld s n)).1.2)
    (fold_left track ops m).
Proof.
  revert s n m. induction ops as [ | op ops IH ]; intros s n m Hrel.
  - done.
  - rewrite forEach_cons. cbn [fold_left].
    pose proof (perform_tracks op s n m Hrel) as Hstep.
    destruct (perform op (mkWorld s n)) as [[[] [s1 n1]] o1].
    specialize (IH s1 n1 _ Hstep).
    by destruct (forEach ops perform (mkWorld s1 n1)) as [[[] w2] o2].
Qed.

(** C1. After every sequence of joins and leaves, a room id is in the
    registry exactly when the room has a member, and the room then holds
    just its members. A join for an id that is not in the registry creates
    the room with a document of its own, newly made; the leave that takes
    the last member out deletes the room in the same call. *)
Theorem room_in_registry_iff_has_member ops r :
  (let registry := rooms (server (forEach ops perform initial).1.2) in
   (is_Some (registry !! r) ↔ members ops r ≠ ∅)
   ∧ ∀ room, registry !! r = Some room →
       list_to_set (clients room) = members ops r)
  ∧ (∀ s n ws,
       rooms s !! r = None →
       let s' := server (joinRoom ws r (mkWorld s n)).1.2 in
       rooms s' = <[r := mkRoom (length (docs s)) [ws]]> (rooms s)
       ∧ docs s' = docs s ++ [new_Doc (length (docs s))])
  ∧ (∀ s n ws room,
       rooms s !! r = Some room → Set_delete ws (clients room) = [] →
       rooms (server (leaveRoom ws r (mkWorld s n)).1.2) = delete r (rooms s)).
Proof.
  split; [ | split].
  - assert (registry_tracks (server initial) (λ _, ∅)) as Hinit.
    { intros r'. cbn. by rewrite lookup_empty. }
    pose proof (forEach_perform_tracks ops _ 0 _ Hinit r) as Hr.
    fold (members ops) in Hr. cbn zeta. change (mkWorld _ 0) with initial in Hr.
    destruct (rooms _ !! r) as [room' | ].
    + destruct Hr as [Hne Hset]. split.
      * split; [ | by eexists]. intros _. rewrite <- Hset.
        destruct (clients room') as [ | c cs]; [done | ].
        intros Hempty. apply (not_elem_of_empty (C := gset WsRef) c).
        rewrite <- Hempty. apply elem_of_list_to_set, list_elem_of_here.
      * by intros ? [= <-].
    + split; [ | done]. split.
      * by intros [? ?].
      * by intros Hne.
  - intros s n ws Hr. cbn zeta. rewrite joinRoom_server.
    unfold joined, room_for. rewrite Hr. proj_simpl. cbn [default].
    proj_simpl. by rewrite decide_True.
  - intros s n ws room Hr Hlast.
    rewrite leaveRoom_server, Hr. unfold left, set_rooms.
    proj_simpl. by rewrite Hlast.
Qed.

Lemma frames_to_app ws out1 out2 :
  frames_to ws (out1 ++ out2) = frames_to ws out1 ++ frames_to ws out2.
Proof. unfold frames_to. apply omap_app. Qed.

Lemma frames_to_other ws out :
  (∀ e c, e ∈ out → target e = Some c → c ≠ ws) → frames_to ws out = [].
Proof.
  induction out as [ | e out IH ]; intros Hout; [done | ].
  unfold frames_to. cbn [omap list_omap]. fold (frames_to ws out).
  rewrite IH.
  - destruct e as [c frame | | | ]; try done.
    case_decide as Hc; [ | done].
    destruct (Hout (Send c frame) c); [apply list_elem_of_here | done | done].
  - intros e' c He'. apply Hout. by apply list_elem_of_further.
Qed.

Lemma frames_to_snapshot ws d n :
  frames_to ws (snapshot ws d n) =
  if bool_decide (0 < length (encodeStateAsUpdate d))
  then [createMessage "sync-update" (PBytes (encodeStateAsUpdate d))
          (Date_now n)]
  else [].
Proof.
  unfold snapshot. case_bool_decide; [ | done].
  unfold frames_to. cbn. by rewrite decide_True.
Qed.


Lemma startHeartbeat_probe s n :
  startHeartbeat (mkWorld s n) = forEach (wss_clients s) probe (mkWorld s n).
Proof.
  unfold startHeartbeat. unfold mbind at 1, M_bind at 1, gets. proj_simpl.
  fold probe.
  by destruct (forEach (wss_clients s) probe (mkWorld s n)) as [[[] w'] out].
Qed.

Lemma probe_run ws s n :
  probe ws (mkWorld s n) =
  if truthy_bool (peek isAlive s ws)
  then (tt, mkWorld (set_sockets (alter (set_isAlive false) ws) s) n,
        [Ping ws])
  else (tt, mkWorld (set_sockets (alter terminated ws) s) n,
        [Log TerminatingDeadConnection; Terminate ws]).
Proof.
  unfold probe, terminate. unfold_M.
  by destruct (truthy_bool (peek isAlive s ws)).
Qed.

Lemma isAlive_terminated x : isAlive (terminated x) = isAlive x.
Proof. unfold terminated. by case_decide. Qed.

Lemma peek_alter_ne {A} (g : ExtendedWebSocket → option A) f ws ws' s :
  ws ≠ ws' → peek g (set_sockets (alter f ws) s) ws' = peek g s ws'.
Proof.
  intros Hne. unfold peek, set_sockets. proj_simpl.
  by rewrite list_lookup_alter_ne.
Qed.

Lemma sweep_spec cs s n :
  NoDup cs →
  ∃ s' out,
    forEach cs probe (mkWorld s n) = (tt, mkWorld s' n, out)
    ∧ rooms s' = rooms s ∧ wss_clients s' = wss_clients s
    ∧ (∀ ws, ws ∉ cs → sockets s' !! ws = sockets s !! ws)
    ∧ (∀ e c, e ∈ out → target e = Some c → c ∈ cs)
    ∧ ∀ ws, ws ∈ cs → swept s s' out ws.
Proof.
  intros Hnd. revert s. induction Hnd as [ | c cs Hc Hnd IH ]; intros s.
  - exists s, []. split; [done | ]. repeat split; try done.
    + intros e c He. by apply elem_of_nil in He.
    + intros ws Hws. by apply elem_of_nil in Hws.
  - rewrite forEach_cons, probe_run.
    assert (∀ f o1,
      (∀ x, isAlive (f x) = isAlive x ∨ isAlive (f x) = Some false) →
      (∀ e, e ∈ o1 → target e = None ∨ target e = Some c) →
      ∃ s' out,
        (let '(_, w2, o2) :=
           forEach cs probe (mkWorld (set_sockets (alter f c) s) n) in
         (tt, w2, o1 ++ o2)) = (tt, mkWorld s' n, out)
        ∧ out = o1 ++ drop (length o1) out
        ∧ rooms s' = rooms s ∧ wss_clients s' = wss_clients s
        ∧ (∀ ws, ws ∉ c :: cs → sockets s' !! ws = sockets s !! ws)
        ∧ (∀ e c', e ∈ out → target e = Some c' → c' ∈ c :: cs)
        ∧ sockets s' !! c = f <$> sockets s !! c
        ∧ (∀ e, e ∈ drop (length o1) out → target e ≠ Some c)
        ∧ ∀ ws, ws ∈ cs →
            swept s s' (drop (length o1) out) ws) as Hstep.
    { intros f o1 Hf Ho1.
      destruct (IH (set_sockets (alter f c) s))
        as (s' & out & -> & Hrooms & Hwss & Hrest & Htargets & Hswept).
      exists s', (o1 ++ out). rewrite drop_app_length.
      split; [done | ]. split; [done | ]. split; [done | ]. split; [done | ].
      split.
      { intros ws Hws. apply not_elem_of_cons in Hws as [Hne Hws].
        rewrite Hrest by done. unfold set_sockets. proj_simpl.
        by rewrite list_lookup_alter_ne. }
      split.
      { intros e c' He Ht. apply elem_of_app in He as [He | He].
        - destruct (Ho1 e He) as [Hnone | Hsome]; [congruence | ].
          rewrite Hsome in Ht. injection Ht as <-. apply list_elem_of_here.
        - apply list_elem_of_further. by eapply Htargets. }
      split.
      { rewrite Hrest by done. unfold set_sockets. proj_simpl.
        apply list_lookup_alter_eq. }
      split.
      { intros e He Ht. apply Hc. by eapply Htargets. }
      intros ws Hws. specialize (Hswept ws Hws). unfold swept in *.
      assert (c ≠ ws) as Hne by (intros ->; done).
      by rewrite (peek_alter_ne isAlive f c ws s Hne) in Hswept. }
    assert (∀ (o1 out : list Effect) e,
      out = o1 ++ drop (length o1) out →
      (∀ e', e' ∈ o1 → e' ≠ e) →
      e ∉ drop (length o1) out → e ∉ out) as Hnotin.
    { intros o1 out e -> Ho1 Hrest. rewrite drop_app_length in Hrest.
      intros [He | He]%elem_of_app; [by eapply Ho1 | done]. }
    assert (∀ (o1 out : list Effect) e,
      out = o1 ++ drop (length o1) out →
      e ∈ drop (length o1) out → e ∈ out) as Hin.
    { intros o1 out e -> He. rewrite drop_app_length in He.
      apply elem_of_app. by right. }
    destruct (truthy_bool (peek isAlive s c)) eqn:Halive.
    + destruct (Hstep (set_isAlive false) [Ping c])
        as (s' & out & -> & Hout & Hrooms & Hwss & Hrest & Htargets
            & Hself & Hnoc & Hswept).
      { intros x. by right. }
      { intros e ->%list_elem_of_singleton. by right. }
      exists s', out. split; [done | ]. split; [done | ]. split; [done | ].
      split; [done | ]. split; [done | ].
      intros ws [-> | Hws]%elem_of_cons.
      * unfold swept. rewrite Halive. split; [ | split].
        -- rewrite Hout. apply list_elem_of_here.
        -- apply (Hnotin [Ping c]); [done | | ].
           ++ intros e' ->%list_elem_of_singleton. done.
           ++ intros He. by eapply Hnoc.
        -- unfold peek in *. rewrite Hself.
           by destruct (sockets s !! c).
      * specialize (Hswept ws Hws). unfold swept in *.
        assert (c ≠ ws) as Hne by (intros ->; done).
        destruct (truthy_bool (peek isAlive s ws));
          destruct Hswept as (H1 & H2 & H3); split; [ | split | | split];
          try done; try (by eapply Hin).
        -- apply (Hnotin [Ping c]); [done | | done].
           intros e' ->%list_elem_of_singleton. done.
        -- apply (Hnotin [Ping c]); [done | | done].
           intros e' ->%list_elem_of_singleton. congruence.
    + destruct (Hstep terminated [Log TerminatingDeadConnection; Terminate c])
        as (s' & out & -> & Hout & Hrooms & Hwss & Hrest & Htargets
            & Hself & Hnoc & Hswept).
      { intros x. left. apply isAlive_terminated. }
      { intros e [-> | ->%list_elem_of_singleton]%elem_of_cons;
          [by left | by right]. }
      exists s', out. split; [done | ]. split; [done | ]. split; [done | ].
      split; [done | ]. split; [done | ].
      intros ws [-> | Hws]%elem_of_cons.
      * unfold swept. rewrite Halive. split; [ | split].
        -- rewrite Hout. apply list_elem_of_further, list_elem_of_here.
        -- apply (Hnotin [Log TerminatingDeadConnection; Terminate c]);
             [done | | ].
           ++ intros e' [-> | ->%list_elem_of_singleton]%elem_of_cons; done.
           ++ intros He. by eapply Hnoc.
        -- unfold peek in *. rewrite Hself.
           destruct (sockets s !! c); [ | done]. cbn.
           apply isAlive_terminated.
      * specialize (Hswept ws Hws). unfold swept in *.
        assert (c ≠ ws) as Hne by (intros ->; done).
        destruct (truthy_bool (peek isAlive s ws));
          destruct Hswept as (H1 & H2 & H3); split; [ | split | | split];
          try done; try (by eapply Hin).
        -- apply (Hnotin [Log TerminatingDeadConnection; Terminate c]);
             [done | | done].
           intros e' [-> | ->%list_elem_of_singleton]%elem_of_cons;
             [done | congruence].
        -- apply (Hnotin [Log TerminatingDeadConnection; Terminate c]);
             [done | | done].
           intros e' [-> | ->%list_elem_of_singleton]%elem_of_cons; done.
Qed.

Lemma peek_connection {A} (g : ExtendedWebSocket → option A) s r ws :
  ws < length (sockets s) →
  peek g (joined (accepted s r) (length (sockets s)) r) ws = peek g s ws.
Proof.
  intros Hlt. unfold peek, joined, accepted. proj_simpl.
  rewrite list_lookup_alter_ne by lia. by rewrite lookup_app_l.
Qed.

(** A flag found false stays false until the socket answers a probe. *)
Lemma deliver_keeps_dead e s n ws :
  wf s → ws ∈ wss_clients s →
  truthy_bool (peek isAlive s ws) = false →
  e ≠ EPong ws → e ≠ EClose ws →
  ∃ s' k out,
    deliver e (mkWorld s n) = (tt, mkWorld s' k, out)
    ∧ ws ∈ wss_clients s'
    ∧ truthy_bool (peek isAlive s' ws) = false.
Proof.
  intros Hwf Hws Hdead Hpong Hclose.
  assert (∃ s' k out,
            (tt, mkWorld s n, @nil Effect) = (tt, mkWorld s' k, out)
            ∧ ws ∈ wss_clients s'
            ∧ truthy_bool (peek isAlive s' ws) = false) as Hidle.
  { by exists s, n, []. }
  destruct e as [room | ws' | ws' data | ws' | ws' | ws' | ].
  - cbn [deliver]. rewrite on_connection_run.
    pose proof (joinRoom_server (length (sockets s)) (requested room)
                  (accepted s (requested room)) n) as Hsrv.
    destruct (joinRoom _ _ _) as [[[] [s' k]] out]. cbn in Hsrv. subst s'.
    eexists _, _, _. split; [done | ]. split.
    + change (ws ∈ Set_add (length (sockets s)) (wss_clients s)).
      apply elem_of_Set_add. by right.
    + rewrite peek_connection; [done | by apply wf_lt].
  - destruct (decide (ws' ∈ wss_clients s)) as [Hws' | Hws'].
    2: { by rewrite (deliver_not_listening s n ws') by auto. }
    cbn [deliver]. rewrite listening_run by done. unfold on_pong. unfold_M.
    eexists _, _, _. split; [done | ]. split; [done | ].
    assert (ws' ≠ ws) as Hne by congruence. fold_alter s.
    by rewrite (peek_alter_ne isAlive _ ws' ws s Hne).
  - destruct (decide (ws' ∈ wss_clients s)) as [Hws' | Hws'].
    2: { by rewrite (deliver_not_listening s n ws') by eauto. }
    cbn [deliver]. rewrite listening_run by done. unfold on_message.
    destruct (handleMessage_effects ws' data s n)
      as (s' & k & out & -> & Hq & Hsock & _).
    exists s', k, out. split; [done | ].
    destruct Hq as (_ & -> & _). split; [done | ].
    unfold peek in *. by rewrite Hsock.
  - destruct (decide (ws' ∈ wss_clients s)) as [Hws' | Hws'].
    2: { by rewrite (deliver_not_listening s n ws') by auto. }
    cbn [deliver]. rewrite listening_run by done. unfold_M.
    eexists _, _, _. split; [done | ]. split; [done | ]. fold_alter s.
    by rewrite (peek_alter isAlive (set_readyState CLOSING) ws' ws s).
  - destruct (decide (ws' ∈ wss_clients s)) as [Hws' | Hws'].
    2: { by rewrite (deliver_not_listening s n ws') by auto 6. }
    destruct (wf_session _ Hwf ws' Hws') as (r & room & Hr & Hne & Hroom & _).
    rewrite (deliver_close_run s n ws' r room) by done.
    eexists _, _, _. split; [done | ]. split.
    + change (ws ∈ Set_delete ws' (wss_clients s)).
      apply elem_of_Set_delete. split; [congruence | done].
    + change (peek isAlive (left (closed s ws') ws' r room) ws)
        with (peek isAlive (closed s ws') ws).
      by rewrite (peek_closed isAlive s ws' ws).
  - destruct (decide (ws' ∈ wss_clients s)) as [Hws' | Hws'].
    2: { by rewrite (deliver_not_listening s n ws') by auto 6. }
    cbn [deliver]. rewrite listening_run by done. unfold on_error. unfold_M.
    by eexists _, _, _.
  - cbn [deliver]. rewrite startHeartbeat_probe.
    destruct (sweep_spec (wss_clients s) s n (wf_nodup _ Hwf))
      as (s' & out & -> & _ & Hwss & _ & _ & Hswept).
    exists s', n, out. split; [done | ]. rewrite Hwss. split; [done | ].
    specialize (Hswept ws Hws). unfold swept in Hswept.
    rewrite Hdead in Hswept. destruct Hswept as (_ & _ & ->). done.
Qed.

Lemma forEach_keeps_dead mid s n ws :
  wf s → ws ∈ wss_clients s →
  truthy_bool (peek isAlive s ws) = false →
  Forall (λ e, e ≠ EPong ws ∧ e ≠ EClose ws) mid →
  ∃ s' k out,
    forEach mid deliver (mkWorld s n) = (tt, mkWorld s' k, out)
    ∧ wf s' ∧ ws ∈ wss_clients s'
    ∧ truthy_bool (peek isAlive s' ws) = false.
Proof.
  intros Hwf Hws Hdead Hmid. revert s n Hwf Hws Hdead.
  induction Hmid as [ | e mid [Hpong Hclose] _ IH ]; intros s n Hwf Hws Hdead.
  - by exists s, n, [].
  - rewrite forEach_cons.
    destruct (deliver_keeps_dead e s n ws Hwf Hws Hdead Hpong Hclose)
      as (s1 & k1 & o1 & Hrun & Hws1 & Hdead1).
    destruct (deliver_wf e s n Hwf) as (s1' & k1' & o1' & Hrun' & Hwf1 & _).
    rewrite Hrun in Hrun'. injection Hrun' as <- <- <-. rewrite Hrun.
    destruct (IH s1 k1 Hwf1 Hws1 Hdead1)
      as (s2 & k2 & o2 & -> & Hwf2 & Hws2 & Hdead2).
    by eexists _, _, _.
Qed.

(** C8. A sweep of the heartbeat terminates a connected socket whose alive
    flag it finds false, without probing it, and otherwise sets the flag
    false and sends a probe; a probe response sets the flag true. Hence a
    connected socket that answers no probe is terminated by the second of
    two sweeps at the latest, whatever else happens in between; and when
    the close event of the terminated socket arrives, the socket is taken
    out of its room, and the room is deleted if it has no other member. *)
Theorem silent_session_evicted evs w out0 ws mid :
  run evs = (w, out0) →
  ws ∈ wss_clients (server w) →
  Forall (λ e, e ≠ EPong ws ∧ e ≠ EClose ws) mid →
  (∃ w1 out1,
     deliver EInterval w = (tt, w1, out1)
     ∧ swept (server w) (server w1) out1 ws)
  ∧ (∃ w1,
       deliver (EPong ws) w = (tt, w1, [])
       ∧ peek isAlive (server w1) ws = Some true)
  ∧ ∃ w2 out2 w3 out3 r room,
      forEach (EInterval :: mid) deliver w = (tt, w2, out2)
      ∧ deliver EInterval w2 = (tt, w3, out3)
      ∧ Terminate ws ∈ out3
      ∧ (Ping ws ∉ out3)
      ∧ ws ∈ wss_clients (server w3)
      ∧ roomId_of (server w3) ws = Some r
      ∧ rooms (server w3) !! r = Some room
      ∧ ws ∈ clients room
      ∧ ∃ w4 out4,
          deliver (EClose ws) w3 = (tt, w4, out4)
          ∧ (ws ∉ wss_clients (server w4))
          ∧ rooms (server w4) !! r
            = (if bool_decide (Set_delete ws (clients room) = [])
               then None
               else Some (mkRoom (doc room) (Set_delete ws (clients room))))
          ∧ (clients room = [ws] → rooms (server w4) !! r = None).
Proof.
  intros Hrun Hws Hmid. destruct (run_wf _ _ _ Hrun) as [Hwf _].
  destruct w as [s n]. cbn [server reads] in *.
  (* the first sweep *)
  destruct (sweep_spec (wss_clients s) s n (wf_nodup _ Hwf))
    as (s1 & out1 & Hrun1 & Hrooms1 & Hwss1 & _ & _ & Hswept1).
  assert (deliver EInterval (mkWorld s n) = (tt, mkWorld s1 n, out1))
    as Hsweep1.
  { cbn [deliver]. by rewrite startHeartbeat_probe. }
  pose proof (Hswept1 ws Hws) as Hfirst.
  split; [by exists (mkWorld s1 n), out1 | ].
  split.
  { cbn [deliver]. rewrite listening_run by done. unfold on_pong. unfold_M.
    eexists. split; [done | ]. cbn [server]. unfold peek. proj_simpl.
    rewrite list_lookup_alter_eq.
    destruct (wf_session _ Hwf ws Hws) as (r & room & Hr & _).
    unfold peek in Hr. by destruct (sockets s !! ws). }
  (* the flag is false after the first sweep and stays so *)
  destruct (deliver_wf EInterval s n Hwf)
    as (s1' & k1' & o1' & Hrun1' & Hwf1 & _).
  rewrite Hsweep1 in Hrun1'. injection Hrun1' as <- <- <-.
  assert (truthy_bool (peek isAlive s1 ws) = false) as Hdead1.
  { unfold swept in Hfirst.
    destruct (truthy_bool (peek isAlive s ws)) eqn:Halive;
      destruct Hfirst as (_ & _ & ->); done. }
  assert (ws ∈ wss_clients s1) as Hws1 by (by rewrite Hwss1).
  destruct (forEach_keeps_dead mid s1 n ws Hwf1 Hws1 Hdead1 Hmid)
    as (s2 & k2 & o2 & Hrun2 & Hwf2 & Hws2 & Hdead2).
  (* the second sweep *)
  destruct (sweep_spec (wss_clients s2) s2 k2 (wf_nodup _ Hwf2))
    as (s3 & out3 & Hrun3 & Hrooms3 & Hwss3 & _ & _ & Hswept3).
  assert (deliver EInterval (mkWorld s2 k2) = (tt, mkWorld s3 k2, out3))
    as Hsweep2.
  { cbn [deliver]. by rewrite startHeartbeat_probe. }
  destruct (deliver_wf EInterval s2 k2 Hwf2)
    as (s3' & k3' & o3' & Hrun3' & Hwf3 & _).
  rewrite Hsweep2 in Hrun3'. injection Hrun3' as <- <- <-.
  pose proof (Hswept3 ws Hws2) as Hsecond. unfold swept in Hsecond.
  rewrite Hdead2 in Hsecond. destruct Hsecond as (Hterm & Hnoping & _).
  assert (ws ∈ wss_clients s3) as Hws3 by (by rewrite Hwss3).
  destruct (wf_session _ Hwf3 ws Hws3)
    as (r & room & Hr & Hne & Hroom & Hin & _).
  exists (mkWorld s2 k2), (out1 ++ o2), (mkWorld s3 k2), out3, r, room.
  split.
  { rewrite forEach_cons, Hsweep1. by rewrite Hrun2. }
  split; [done | ]. split; [done | ]. split; [done | ].
  split; [done | ]. split; [done | ]. split; [done | ]. split; [done | ].
  eexists _, _. split; [by apply deliver_close_run | ]. cbn [server].
  assert (rooms (left (closed s3 ws) ws r room) !! r
          = (if bool_decide (Set_delete ws (clients room) = [])
             then None
             else Some (mkRoom (doc room) (Set_delete ws (clients room)))))
    as Hafter.
  { unfold left, closed. unfold_M.
    destruct (Set_delete ws (clients room)) as [ | c cs] eqn:Hdel.
    - rewrite bool_decide_eq_true_2 by done. cbn.
      by rewrite lookup_delete_eq.
    - rewrite bool_decide_eq_false_2 by done. cbn.
      by rewrite lookup_insert_eq. }
  split; [ | split; [done | ]].
  - change (ws ∉ Set_delete ws (wss_clients s3)).
    rewrite elem_of_Set_delete. by intros [? _].
  - intros Hsole. rewrite Hafter, Hsole. unfold Set_delete.
    rewrite filter_cons, decide_False by (intros Hn; by apply Hn).
    done.
Qed.

End Claims.

(** ** Further properties *)

Section Further.

Context `{Host} `{Yjs}.

Lemma new_Uint8Array_throws elems e :
  new_Uint8Array elems = Throw e ↔
  e = TypeError
  ∧ ∃ v, v ∈ elems ∧ primitive v = false ∧ ToNumber_ext v = None.
Proof.
  induction elems as [ | v elems IH ]; cbn [new_Uint8Array].
  - split; [done | ]. intros (_ & v & Hv & _). by apply elem_of_nil in Hv.
  - assert (∀ x, match new_Uint8Array elems with
                 | Ok bytes => Ok (ToUint8 x :: bytes)
                 | Throw e0 => Throw e0
                 end = Throw e ↔ new_Uint8Array elems = Throw e) as Hrest.
    { intros x. destruct (new_Uint8Array elems); split; congruence. }
    assert ((e = TypeError
             ∧ ∃ v0, v0 ∈ elems ∧ primitive v0 = false
                     ∧ ToNumber_ext v0 = None) →
            e = TypeError
            ∧ ∃ v0, v0 ∈ v :: elems ∧ primitive v0 = false
                    ∧ ToNumber_ext v0 = None) as Hlater.
    { intros (-> & v0 & Hv0 & Hrestv). split; [done | ].
      exists v0. split; [by apply list_elem_of_further | done]. }
    assert (primitive v = true →
            (e = TypeError
             ∧ ∃ v0, v0 ∈ v :: elems ∧ primitive v0 = false
                     ∧ ToNumber_ext v0 = None) →
            e = TypeError
            ∧ ∃ v0, v0 ∈ elems ∧ primitive v0 = false
                    ∧ ToNumber_ext v0 = None) as Hskip.
    { intros Hprim (-> & v0 & Hv0 & Hnp & Hnone). split; [done | ].
      exists v0. apply elem_of_cons in Hv0 as [-> | Hv0]; [congruence | done]. }
    destruct v as [ | b | x | str | l | kvs ]; cbn [ToNumber];
      try (rewrite Hrest, IH; split; [apply Hlater | by apply Hskip]).
    all: match goal with
         | |- context [ToNumber_ext ?v] =>
             destruct (ToNumber_ext v) as [x | ] eqn:Hext
         end.
    all: try (rewrite Hrest, IH; split; [apply Hlater | ];
              intros (-> & v0 & Hv0 & Hnp & Hnone); split; [done | ];
              exists v0; apply elem_of_cons in Hv0 as [-> | Hv0];
              [congruence | done]).
    all: split;
      [ intros [= <-]; split; [done | ]; eexists;
        split; [apply list_elem_of_here | done]
      | by intros (-> & _) ].
Qed.

(** X1. [parseMessage] throws in three cases and no other: the text is
    not JSON ([SyntaxError]); the text is [null] ([TypeError]); the
    message is an object whose [data] is an array with an element, not a
    number, boolean or [null], that the host cannot convert to a number
    ([TypeError]). *)
Theorem parseMessage_throws_iff raw e :
  parseMessage raw = Throw e ↔
  (raw = Malformed ∧ e = SyntaxError)
  ∨ (e = TypeError
     ∧ (raw = Text JNull
        ∨ ∃ props elems v,
            raw = Text (JObj props)
            ∧ get "data" props = Some (JArr elems)
            ∧ v ∈ elems ∧ primitive v = false ∧ ToNumber_ext v = None)).
Proof.
  destruct raw as [ | message ].
  - cbn. split.
    + intros [= <-]. by left.
    + intros [[_ ->] | (_ & [? | (? & ? & ? & ? & _)])]; done.
  - destruct message as [ | b | x | str | l | props ];
      try (cbn; split;
           [ done
           | intros [[? _] | (_ & [? | (? & ? & ? & ? & _)])]; done ]).
    + cbn. split.
      * intros [= <-]. right. split; [done | by left].
      * intros [[? _] | (-> & _)]; done.
    + rewrite parseMessage_object.
      destruct (get "data" props) as [[ | b | x | str | elems | kvs ] | ]
        eqn:Hd;
        try (split;
             [ done
             | intros [[? _] | (_ & [? | (? & ? & ? & [= <-] & Hd' & _)])];
               try done; congruence ]).
      destruct (new_Uint8Array elems) as [bytes | e'] eqn:Hnew.
      * split; [done | ].
        intros [[? _] | (-> & [? | (? & elems' & v & [= <-] & Hd' & Hv)])];
          try done.
        rewrite Hd in Hd'. injection Hd' as <-.
        assert (new_Uint8Array elems = Throw TypeError) as Hthrow.
        { apply new_Uint8Array_throws. split; [done | by exists v]. }
        congruence.
      * apply new_Uint8Array_throws in Hnew as (-> & v & Hv).
        split.
        -- intros [= <-]. right. split; [done | ]. right.
           by exists props, elems, v.
        -- intros [[? _] | (-> & _)]; done.
Qed.

Lemma new_Uint8Array_length elems bytes :
  new_Uint8Array elems = Ok bytes → length bytes = length elems.
Proof.
  revert bytes. induction elems as [ | v elems IH ]; intros bytes.
  - by intros [= <-].
  - cbn [new_Uint8Array]. destruct (ToNumber v) as [x | e]; [ | done].
    destruct (new_Uint8Array elems) as [bytes' | e]; [ | done].
    intros [= <-]. cbn. by rewrite (IH bytes').
Qed.

(** X2. A decoded message never carries an array: whenever the [data] of
    a frame is an array, the message holds a byte sequence with one byte
    per element. An array of numbers, booleans and [null]s always
    decodes. *)
Theorem array_payload_becomes_bytes props elems :
  get "data" props = Some (JArr elems) →
  (∀ message,
     parseMessage (Text (JObj props)) = Ok message →
     ∃ bytes, data message = PBytes bytes ∧ length bytes = length elems)
  ∧ (forallb primitive elems = true →
     ∃ bytes,
       parseMessage (Text (JObj props))
       = Ok (mkMessage (get "type" props) (PBytes bytes)))
  ∧ (∀ raw message elems',
       parseMessage raw = Ok message → data message ≠ PValue (JArr elems')).
Proof.
  intros Hd. split; [ | split].
  - intros message. rewrite parseMessage_object, Hd.
    destruct (new_Uint8Array elems) as [bytes | e] eqn:Hnew; [ | done].
    intros [= <-]. exists bytes. split; [done | ].
    by apply new_Uint8Array_length.
  - intros Hprim. rewrite parseMessage_object, Hd.
    destruct (new_Uint8Array elems) as [bytes | e] eqn:Hnew; [by eexists | ].
    apply new_Uint8Array_throws in Hnew as (_ & v & Hv & Hnp & _).
    rewrite forallb_forall in Hprim.
    apply list_elem_of_In in Hv. rewrite (Hprim v Hv) in Hnp. done.
  - intros raw message elems'. destruct raw as [ | v ]; [done | ].
    destruct v as [ | b | x | str | l | kvs ]; try (by intros [= <-]).
    rewrite parseMessage_object.
    destruct (get "data" kvs) as [[ | b | x | str | l | kvs' ] | ];
      try (by intros [= <-]).
    destruct (new_Uint8Array l); [ | done]. by intros [= <-].
Qed.

Lemma wire_stable_wire (v : json) : wire_stable (wire v) = true.
Proof.
  induction v as [ | b | x | s | elems IH | props IH ] using json_ind;
    try reflexivity.
  - cbn [wire].
    destruct (PrimFloat.is_nan x || PrimFloat.is_infinity x) eqn:Hfin;
      [reflexivity | ].
    destruct (PrimFloat.is_zero x && PrimFloat.get_sign x) eqn:Hneg;
      [reflexivity | ].
    cbn [wire_stable]. by rewrite Hfin, Hneg.
  - cbn [wire wire_stable]. induction IH as [ | v elems Hv _ IHelems ].
    + reflexivity.
    + cbn. by rewrite Hv, IHelems.
  - cbn [wire wire_stable]. induction IH as [ | [k v] props Hv _ IHprops ].
    + reflexivity.
    + cbn in *. by rewrite Hv, IHprops.
Qed.

(** X3. One passage through the codec settles a payload: whatever a frame
    built from a payload that is not an array decodes to, encoding and
    decoding that again, under any kind and at any time, gives it back
    unchanged. *)
Theorem decoded_payload_is_settled kind kind' p t t' :
  (∀ elems, p ≠ PValue (JArr elems)) →
  ∃ p',
    parseMessage (createMessage kind p t)
    = Ok (mkMessage (Some (JStr kind)) p')
    ∧ parseMessage (createMessage kind' p' t')
      = Ok (mkMessage (Some (JStr kind')) p').
Proof.
  intros Hp. destruct p as [ | bytes | v ].
  - by exists PUndefined.
  - exists (PBytes bytes). by rewrite !parse_create_bytes.
  - exists (PValue (wire v)).
    assert (∀ k s, parseMessage (createMessage k (PValue v) s)
                   = Ok (mkMessage (Some (JStr k)) (PValue (wire v))))
      as Hfirst.
    { intros k s. unfold parseMessage, createMessage, JSON_stringify.
      cbn [omap list_omap JSON_parse get String.eqb Ascii.eqb Bool.eqb].
      destruct v; try done.
      - cbn [wire].
        destruct (PrimFloat.is_nan x || PrimFloat.is_infinity x); [done | ].
        by destruct (PrimFloat.is_zero x && PrimFloat.get_sign x).
      - by destruct (Hp elems). }
    split; [apply Hfirst | ].
    unfold parseMessage, createMessage, JSON_stringify.
    cbn [omap list_omap JSON_parse get String.eqb Ascii.eqb Bool.eqb].
    rewrite (wire_stable_id _ (wire_stable_wire v)).
    destruct v; try done.
    + cbn [wire].
      destruct (PrimFloat.is_nan x || PrimFloat.is_infinity x); [done | ].
      by destruct (PrimFloat.is_zero x && PrimFloat.get_sign x).
    + by destruct (Hp elems).
Qed.

Lemma Set_delete_Set_add (ws : WsRef) (l : list WsRef) :
  ws ∉ l → Set_delete ws (Set_add ws l) = l.
Proof.
  intros Hws. unfold Set_add, Set_delete. rewrite decide_False by done.
  rewrite filter_app, filter_cons, decide_False by (intros Hn; by apply Hn).
  rewrite filter_nil, app_nil_r.
  induction l as [ | x l IH ]; [done | ].
  apply not_elem_of_cons in Hws as [Hne Hws].
  rewrite filter_cons, decide_True by done. by rewrite IH.
Qed.

Lemma Set_delete_absent (ws : WsRef) (l : list WsRef) :
  ws ∉ l → Set_delete ws l = l.
Proof.
  intros Hws. unfold Set_delete. induction l as [ | x l IH ]; [done | ].
  apply not_elem_of_cons in Hws as [Hne Hws].
  rewrite filter_cons, decide_True by done. by rewrite IH.
Qed.

Lemma Set_add_present (ws : WsRef) (l : list WsRef) :
  ws ∈ l → Set_add ws l = l.
Proof. intros Hws. unfold Set_add. by rewrite decide_True. Qed.

(** X4. A join followed by the leave of the same session gives the
    registry back, whether the join created the room or added the session
    to a room it was not a member of. The document a created room was
    given stays allocated. *)
Theorem join_then_leave_restores_registry s n ws r :
  (∀ room, rooms s !! r = Some room →
     (ws ∉ clients room) ∧ clients room ≠ []) →
  rooms (server (leaveRoom ws r (joinRoom ws r (mkWorld s n)).1.2).1.2)
  = rooms s.
Proof.
  intros Hroom.
  pose proof (joinRoom_server ws r s n) as Hjoin.
  destruct (joinRoom ws r (mkWorld s n)) as [[[] [s1 n1]] o1].
  cbn [fst snd server] in *. subst s1.
  rewrite leaveRoom_server. unfold joined at 1. proj_simpl.
  rewrite lookup_insert_eq. unfold left, joined, set_rooms. proj_simpl.
  destruct (rooms s !! r) as [room | ] eqn:Hr.
  - destruct (Hroom room eq_refl) as [Hws Hne].
    rewrite (room_for_Some _ _ _ Hr), Set_delete_Set_add by done.
    rewrite bool_decide_eq_false_2.
    + rewrite insert_insert_eq. apply insert_id. by destruct room.
    + intros Hlen. by apply nil_length_inv in Hlen.
  - rewrite (room_for_None _ _ Hr). proj_simpl.
    rewrite Set_delete_Set_add by apply not_elem_of_nil.
    rewrite bool_decide_eq_true_2 by done.
    rewrite delete_insert_eq. by apply delete_id.
Qed.

(** X5. The leave of a session that is not a member of the room changes
    nothing: the world stays as it was and only the console entry with the
    unchanged member count is written. *)
Theorem leave_by_non_member_changes_nothing s n ws r room :
  rooms s !! r = Some room → ws ∉ clients room → clients room ≠ [] →
  leaveRoom ws r (mkWorld s n)
  = (tt, mkWorld s n, [Log (ClientLeftRoom r (length (clients room)))]).
Proof.
  intros Hr Hws Hne. rewrite (leaveRoom_existing _ _ _ _ room Hr).
  rewrite Set_delete_absent by done.
  rewrite bool_decide_eq_false_2.
  - unfold left, set_rooms. rewrite Set_delete_absent by done.
    rewrite bool_decide_eq_false_2.
    + rewrite insert_id; [by destruct s | by destruct room].
    + intros Hlen. by apply nil_length_inv in Hlen.
  - intros Hlen. by apply nil_length_inv in Hlen.
Qed.

Lemma joined_twice s ws r :
  joined (joined s ws r) ws r = joined s ws r.
Proof.
  assert (rooms (joined s ws r) !! r
          = Some (mkRoom (doc (room_for s r))
                    (Set_add ws (clients (room_for s r))))) as Hr.
  { unfold joined. proj_simpl. by rewrite lookup_insert_eq. }
  unfold joined at 1. rewrite (room_for_Some _ _ _ Hr). proj_simpl.
  rewrite decide_False by (by rewrite Hr).
  rewrite (Set_add_present ws (Set_add ws _))
    by (apply elem_of_Set_add; by left).
  unfold joined. proj_simpl. rewrite insert_insert_eq.
  f_equal. rewrite list_alter_alter_eq. apply list_alter_ext; [ | done].
  by intros [? ? ? ? ?] _.
Qed.

(** X6. A session is a member at most once: a second [joinRoom] of the
    same session for the same room leaves the server exactly as the first
    left it. *)
Theorem second_join_changes_nothing s n ws r :
  let w1 := (joinRoom ws r (mkWorld s n)).1.2 in
  server (joinRoom ws r w1).1.2 = server w1.
Proof.
  intros w1. subst w1.
  pose proof (joinRoom_server ws r s n) as Hfirst.
  destruct (joinRoom ws r (mkWorld s n)) as [[[] [s1 n1]] o1].
  cbn in Hfirst. subst s1. cbn [fst snd server].
  rewrite joinRoom_server. apply joined_twice.
Qed.

Lemma deliver_shape e s n :
  wf s →
  ∃ s' k out,
    deliver e (mkWorld s n) = (tt, mkWorld s' k, out) ∧ step_shape e s s'.
Proof.
  intros Hwf.
  assert ((∀ room, e ≠ EConnection room) →
    ∃ s' k out, (tt, mkWorld s n, @nil Effect) = (tt, mkWorld s' k, out)
                ∧ step_shape e s s') as Hidle.
  { intros He. exists s, n, []. split; [done | ]. by left. }
  assert (∀ f (ws : WsRef), (∀ room, e ≠ EConnection room) →
    step_shape e s (set_sockets (alter f ws) s)) as Halter.
  { intros f ws He. left. repeat split; try done. }
  destruct e as [room | ws | ws data | ws | ws | ws | ].
  - cbn [deliver]. rewrite on_connection_run.
    pose proof (joinRoom_server (length (sockets s)) (requested room)
                  (accepted s (requested room)) n) as Hsrv.
    destruct (joinRoom _ _ _) as [[[] [s' k]] out]. cbn in Hsrv. subst s'.
    eexists _, _, _. split; [done | ]. right. left. by exists room.
  - destruct (decide (ws ∈ wss_clients s)) as [Hws | Hws].
    2: { rewrite (deliver_not_listening s n ws) by auto. by apply Hidle. }
    cbn [deliver]. rewrite listening_run by done. unfold on_pong.
    unfold mbind, update, modify. cbn.
    eexists _, _, _. split; [done | ]. by apply Halter.
  - destruct (decide (ws ∈ wss_clients s)) as [Hws | Hws].
    2: { rewrite (deliver_not_listening s n ws) by eauto. by apply Hidle. }
    cbn [deliver]. rewrite listening_run by done. unfold on_message.
    destruct (handleMessage_effects ws data s n)
      as (s' & k & out & -> & (Hr & Hc & Hd & _) & _).
    exists s', k, out. split; [done | ]. left. by repeat split.
  - destruct (decide (ws ∈ wss_clients s)) as [Hws | Hws].
    2: { rewrite (deliver_not_listening s n ws) by auto. by apply Hidle. }
    cbn [deliver]. rewrite listening_run by done.
    unfold update, modify. cbn.
    eexists _, _, _. split; [done | ]. by apply Halter.
  - destruct (decide (ws ∈ wss_clients s)) as [Hws | Hws].
    2: { rewrite (deliver_not_listening s n ws) by auto 6. by apply Hidle. }
    destruct (wf_session _ Hwf ws Hws)
      as (r & room & Hr & Hne & Hroom & Hin & _).
    rewrite (deliver_close_run s n ws r room) by done.
    eexists _, _, _. split; [done | ]. right. right. by exists ws, r, room.
  - destruct (decide (ws ∈ wss_clients s)) as [Hws | Hws].
    2: { rewrite (deliver_not_listening s n ws) by auto 6. by apply Hidle. }
    cbn [deliver]. rewrite listening_run by done. unfold on_error, emit.
    eexists _, _, _. split; [done | ]. by left.
  - cbn [deliver].
    destruct (startHeartbeat_quiet s n)
      as (s' & out & -> & (Hr & Hc & Hd & _) & _).
    exists s', n, out. split; [done | ]. left. by repeat split.
Qed.

Lemma NoDup_Set_add (x : WsRef) (l : list WsRef) :
  NoDup l → NoDup (Set_add x l).
Proof.
  intros Hl. unfold Set_add. case_decide; [done | ].
  apply NoDup_app. split; [done | ]. split.
  - by intros y Hy ->%list_elem_of_singleton.
  - apply NoDup_singleton.
Qed.

Lemma step_wf_rooms e s s' :
  wf s → wf_rooms s → step_shape e s s' → wf_rooms s'.
Proof.
  intros Hwf [Hne Hnd Hdoc]
    [(Hr & _) | [(p & -> & ->) | (ws & r & room & -> & _ & _ & Hroom & _ & ->)]].
  - split; rewrite Hr; done.
  - set (r := requested p). set (k := length (sockets s)).
    assert (∀ r' room',
      rooms (joined (accepted s r) k r) !! r' = Some room' →
      (r' = r ∧ room' = mkRoom (doc (room_for s r))
                          (Set_add k (clients (room_for s r))))
      ∨ (r' ≠ r ∧ rooms s !! r' = Some room')) as Hlook.
    { intros r' room'. unfold joined. proj_simpl.
      destruct (decide (r' = r)) as [-> | Hdiff].
      - rewrite lookup_insert_eq. intros [= <-]. by left.
      - rewrite lookup_insert_ne by done. by right. }
    assert (NoDup (clients (room_for s r))) as Hnd0.
    { unfold room_for. destruct (rooms s !! r) as [room0 | ] eqn:Hr0.
      - by eapply Hnd.
      - apply NoDup_nil_2. }
    split.
    + intros r' room' [[-> ->] | [_ Hold]]%Hlook.
      * apply Set_add_nonempty.
      * by eapply Hne.
    + intros r' room' [[-> ->] | [_ Hold]]%Hlook.
      * by apply NoDup_Set_add.
      * by eapply Hnd.
    + assert (∀ r2 room2, r2 ≠ r → rooms s !! r2 = Some room2 →
                doc room2 ≠ doc (room_for s r)) as Hfresh.
      { intros r2 room2 Hdiff Hroom2 Heq. unfold room_for in Heq.
        destruct (rooms s !! r) as [room0 | ] eqn:Hr0; cbn in Heq.
        - by apply Hdiff, (Hdoc r2 r room2 room0).
        - pose proof (wf_doc _ Hwf r2 room2 Hroom2). lia. }
      intros r1 r2 room1 room2
        [[-> ->] | [Hd1 Hold1]]%Hlook [[-> ->] | [Hd2 Hold2]]%Hlook Heq;
        try done.
      * cbn in Heq. by destruct (Hfresh r2 room2).
      * cbn in Heq. by destruct (Hfresh r1 room1).
      * by eapply Hdoc.
  - assert (∀ r' room',
      rooms (left (closed s ws) ws r room) !! r' = Some room' →
      (r' = r ∧ Set_delete ws (clients room) ≠ []
       ∧ room' = mkRoom (doc room) (Set_delete ws (clients room)))
      ∨ (r' ≠ r ∧ rooms s !! r' = Some room')) as Hlook.
    { intros r' room'. unfold left, closed, set_rooms, set_wss_clients,
        set_sockets. proj_simpl.
      destruct (decide (r' = r)) as [-> | Hdiff].
      - case_bool_decide as Hlen.
        + by rewrite lookup_delete_eq.
        + rewrite lookup_insert_eq. intros [= <-]. left.
          split; [done | ]. split; [ | done].
          intros Hnil. by rewrite Hnil in Hlen.
      - case_bool_decide; [rewrite lookup_delete_ne by done
                          | rewrite lookup_insert_ne by done]; by right. }
    split.
    + intros r' room' [(-> & Hsome & ->) | [_ Hold]]%Hlook; [done | ].
      by eapply Hne.
    + intros r' room' [(-> & Hsome & ->) | [_ Hold]]%Hlook.
      * apply NoDup_filter. by eapply Hnd.
      * by eapply Hnd.
    + intros r1 r2 room1 room2
        [(-> & _ & ->) | [Hd1 Hold1]]%Hlook
        [(-> & _ & ->) | [Hd2 Hold2]]%Hlook Heq; try done.
      * cbn in Heq. by eapply (Hdoc r r2 room room2).
      * cbn in Heq. by eapply (Hdoc r1 r room1 room).
      * by eapply Hdoc.
Qed.

Lemma run_wf_rooms evs w out : run evs = (w, out) → wf_rooms (server w).
Proof.
  revert w out. induction evs as [ | e evs IH ] using rev_ind; intros w out.
  - intros [= <- <-]. split; cbn; intros *; by rewrite lookup_empty.
  - rewrite run_snoc. destruct (run evs) as [[s n] out0] eqn:Hrun.
    destruct (run_wf _ _ _ Hrun) as [Hwf _].
    destruct (deliver_shape e s n Hwf) as (s' & k & o & -> & Hshape).
    intros [= <- <-]. cbn [server].
    eapply step_wf_rooms; [done | | done]. by apply (IH _ out0).
Qed.

Lemma member_iff s r room c :
  wf s → rooms s !! r = Some room →
  c ∈ clients room ↔ c ∈ wss_clients s ∧ roomId_of s c = Some r.
Proof.
  intros Hwf Hroom. split.
  - by apply (wf_member _ Hwf).
  - intros [Hc Hr].
    destruct (wf_session _ Hwf c Hc) as (r' & room' & Hr' & _ & Hroom' & Hin & _).
    congruence.
Qed.

(** X7. In every state the server reaches, the rooms of the registry
    divide the connected sessions among them: a room has at least one
    member and lists none twice, its members are exactly the connected
    sessions whose [roomId] is its id, and every connected session has
    such a room. *)
Theorem rooms_partition_connected_sessions evs :
  let s := server (run evs).1 in
  (∀ r room,
     rooms s !! r = Some room →
     clients room ≠ [] ∧ NoDup (clients room)
     ∧ ∀ c, c ∈ clients room ↔ c ∈ wss_clients s ∧ roomId_of s c = Some r)
  ∧ (∀ ws,
       ws ∈ wss_clients s →
       ∃ r room, roomId_of s ws = Some r ∧ rooms s !! r = Some room).
Proof.
  destruct (run evs) as [w out] eqn:Hrun. cbn.
  destruct (run_wf _ _ _ Hrun) as [Hwf _].
  pose proof (run_wf_rooms _ _ _ Hrun) as Hrooms.
  split.
  - intros r room Hroom. split; [by eapply wfr_nonempty | ].
    split; [by eapply wfr_nodup | ]. intros c. by apply member_iff.
  - intros ws Hws.
    destruct (wf_session _ Hwf ws Hws) as (r & room & Hr & _ & Hroom & _).
    by exists r, room.
Qed.

Lemma members_count s r room :
  wf s → wf_rooms s → rooms s !! r = Some room →
  length (clients room)
  = length (filter (λ ws, roomId_of s ws = Some r) (wss_clients s)).
Proof.
  intros Hwf Hrooms Hroom. apply Permutation_length, NoDup_Permutation.
  - by eapply wfr_nodup.
  - apply NoDup_filter, (wf_nodup _ Hwf).
  - intros c. rewrite list_elem_of_filter, (member_iff s r room c Hwf Hroom).
    tauto.
Qed.

Lemma getRoomStats_lookup s r n :
  getRoomStats s !! r = Some n ↔
  r ≠ "__proto__" ∧ ∃ room, rooms s !! r = Some room ∧ n = length (clients room).
Proof.
  unfold getRoomStats. rewrite map_lookup_filter_Some, lookup_fmap. cbn.
  destruct (rooms s !! r) as [room | ]; cbn.
  - split.
    + intros [[= <-] Hr]. split; [done | by exists room].
    + intros [Hr (room' & [= <-] & ->)]. done.
  - split; [by intros [? _] | by intros [_ (? & ? & _)]].
Qed.

(** X8. In every state the server reaches, [getRoomStats] reports the
    number [n] for the room [r] exactly when [r] is not [__proto__], [n]
    is positive and [n] is the number of connected sessions whose
    [roomId] is [r]. *)
Theorem room_stats_count_connected_sessions evs r n :
  let s := server (run evs).1 in
  getRoomStats s !! r = Some n ↔
  r ≠ "__proto__" ∧ 0 < n
  ∧ n = length (filter (λ ws, roomId_of s ws = Some r) (wss_clients s)).
Proof.
  destruct (run evs) as [w out] eqn:Hrun. cbn.
  destruct (run_wf _ _ _ Hrun) as [Hwf _].
  pose proof (run_wf_rooms _ _ _ Hrun) as Hrooms.
  rewrite getRoomStats_lookup. split.
  - intros (Hr & room & Hroom & ->). split; [done | ].
    split; [ | by apply members_count].
    pose proof (wfr_nonempty _ Hrooms r room Hroom).
    destruct (clients room); [done | cbn; lia].
  - intros (Hr & Hpos & Hn). split; [done | ].
    destruct (filter (λ ws, roomId_of (server w) ws = Some r)
                (wss_clients (server w))) as [ | c cs ] eqn:Hfilter.
    { cbn in Hn. lia. }
    assert (c ∈ filter (λ ws, roomId_of (server w) ws = Some r)
                  (wss_clients (server w))) as Hc.
    { rewrite Hfilter. apply list_elem_of_here. }
    apply list_elem_of_filter in Hc as [Hrc Hc].
    destruct (wf_session _ Hwf c Hc) as (r' & room & Hr' & _ & Hroom & _).
    assert (r' = r) as -> by congruence.
    exists room. split; [done | ].
    rewrite (members_count _ _ _ Hwf Hrooms Hroom), Hfilter. done.
Qed.

(** X9. In every state the server reaches, the statistics timer writes
    nothing exactly when no session is connected to a room other than
    [__proto__]; otherwise it writes the statistics. *)
Theorem stats_logged_iff_session_connected evs :
  let s := server (run evs).1 in
  (logRoomStats s = None ↔
   ∀ ws, ws ∈ wss_clients s → roomId_of s ws = Some "__proto__")
  ∧ (∀ stats, logRoomStats s = Some stats → stats = getRoomStats s).
Proof.
  destruct (run evs) as [w out] eqn:Hrun. cbn.
  destruct (run_wf _ _ _ Hrun) as [Hwf _].
  pose proof (run_wf_rooms _ _ _ Hrun) as Hrooms.
  unfold logRoomStats. cbn zeta. split.
  - case_bool_decide as Hsize.
    + split; [done | ]. intros Hall. exfalso.
      assert (size (getRoomStats (server w)) ≠ 0) as Hne by lia.
      apply map_size_ne_0_lookup in Hne as (r & [n Hn]).
      apply getRoomStats_lookup in Hn as (Hr & room & Hroom & _).
      pose proof (wfr_nonempty _ Hrooms r room Hroom) as Hmem.
      destruct (clients room) as [ | c cs ] eqn:Hcs; [done | ].
      assert (c ∈ clients room) as Hc by (rewrite Hcs; apply list_elem_of_here).
      destruct (wf_member _ Hwf r room c Hroom Hc) as [Hconn Hrc].
      rewrite (Hall c Hconn) in Hrc. congruence.
    + split; [ | done]. intros _ ws Hws.
      destruct (wf_session _ Hwf ws Hws) as (r & room & Hr & _ & Hroom & _).
      destruct (decide (r = "__proto__")) as [-> | Hdiff]; [done | ].
      exfalso. apply Hsize.
      assert (getRoomStats (server w) !! r = Some (length (clients room)))
        as Hstat.
      { apply getRoomStats_lookup. split; [done | by exists room]. }
      assert (size (getRoomStats (server w)) ≠ 0); [ | lia].
      apply map_size_ne_0_lookup. by exists r, (length (clients room)).
  - intros stats. by case_bool_decide; intros [= <-].
Qed.

(** X10. A frame is relayed inside the sender's room only: everything the
    server does while it handles a frame from a connected session is a
    send to a connected session whose [roomId] is the sender's, or a
    console entry; it probes and terminates no socket. *)
Theorem relay_stays_in_room evs w out0 ws raw :
  run evs = (w, out0) →
  ws ∈ wss_clients (server w) →
  ∃ w' out,
    deliver (EMessage ws raw) w = (tt, w', out)
    ∧ ∀ e, e ∈ out →
        match e with
        | Send c _ =>
            c ∈ wss_clients (server w)
            ∧ roomId_of (server w) c = roomId_of (server w) ws
        | Log _ => True
        | _ => False
        end.
Proof.
  intros Hrun Hws. destruct (run_wf _ _ _ Hrun) as [Hwf _].
  destruct w as [s n]. cbn [server] in *.
  rewrite deliver_message by done.
  destruct (handleMessage_effects ws raw s n)
    as (s' & k & out & -> & _ & _ & Hout).
  eexists _, out. split; [done | ]. intros e He.
  rewrite Forall_forall in Hout. specialize (Hout e He).
  destruct e as [c frame | c | c | entry]; try done.
  destruct Hout as [[-> _] | (r & room & Hr & Hroom & Hc)]; [done | ].
  apply elem_of_recipients in Hc as (_ & _ & Hc).
  destruct (wf_member _ Hwf r room c Hroom Hc) as [Hconn Hrc].
  split; [done | congruence].
Qed.

Lemma handleMessage_docs ws raw s n :
  ∃ s' k out,
    handleMessage ws raw (mkWorld s n) = (tt, mkWorld s' k, out)
    ∧ (s' = s
       ∨ ∃ update r room,
           is_sync_update raw update
           ∧ roomId_of s ws = Some r ∧ rooms s !! r = Some room
           ∧ s' = set_docs (alter (λ d, applyUpdate d update) (doc room)) s).
Proof.
  assert (∀ o : unit * World * list Effect,
    (∃ k out, o = (tt, mkWorld s k, out)) →
    ∃ s' k out,
      o = (tt, mkWorld s' k, out)
      ∧ (s' = s
         ∨ ∃ update r room,
             is_sync_update raw update
             ∧ roomId_of s ws = Some r ∧ rooms s !! r = Some room
             ∧ s' = set_docs (alter (λ d, applyUpdate d update) (doc room)) s))
    as Hsame.
  { intros o (k & out & ->). exists s, k, out. split; [done | by left]. }
  destruct (parseMessage raw) as [message | e] eqn:Hp.
  2: { rewrite (handleMessage_throw _ _ _ _ Hp). apply Hsame.
       by eexists _, _. }
  assert ((∀ kind, type message = Some (JStr kind) → kind ∉ dispatched) →
    ∃ s' k out,
      handleMessage ws raw (mkWorld s n) = (tt, mkWorld s' k, out)
      ∧ (s' = s
         ∨ ∃ update r room,
             is_sync_update raw update
             ∧ roomId_of s ws = Some r ∧ rooms s !! r = Some room
             ∧ s' = set_docs (alter (λ d, applyUpdate d update) (doc room)) s))
    as Hunknown.
  { intros Hkind. rewrite (handleMessage_unknown _ _ _ _ Hp Hkind).
    apply Hsame. by eexists _, _. }
  destruct (type message) as [[ | b | x | kind | l | kvs ] | ] eqn:Ht;
    try (apply Hunknown; intros kind' Hk; discriminate Hk).
  destruct (decide (kind ∈ dispatched)) as [Hkind | Hkind].
  2: { apply Hunknown. by intros kind' [= <-]. }
  unfold dispatched in Hkind. rewrite !elem_of_cons in Hkind.
  destruct Hkind as [-> | [-> | [-> | [-> | Hkind]]]];
    [ | | | | by apply elem_of_nil in Hkind ].
  - destruct (data message) as [ | update | v ] eqn:Hd;
      try (rewrite (handleMessage_no_bytes _ _ _ _ _ Hp Ht);
           [apply Hsame; by eexists _, _ | by left | by rewrite Hd ]).
    rewrite (handleMessage_sync_update _ _ _ _ _ Hp Ht Hd).
    destruct (handleSyncUpdate_cases s n ws update)
      as [-> | (r & room & Hr & Hne & Hroom & _
                & [[_ ->] | (e & _ & ->)])].
    + apply Hsame. by eexists _, _.
    + eexists _, _, _. split; [done | ]. right.
      exists update, r, room. split; [by exists message | done].
    + eexists _, _, _. split; [done | ]. right.
      exists update, r, room. split; [by exists message | done].
  - rewrite (handleMessage_sync_request _ _ _ _ Hp Ht).
    destruct (handleSyncRequest_cases s n ws)
      as [-> | (ref & d & _ & _ & ->)]; apply Hsame; by eexists _, _.
  - destruct (data message) as [ | update | v ] eqn:Hd;
      try (rewrite (handleMessage_no_bytes _ _ _ _ _ Hp Ht);
           [apply Hsame; by eexists _, _ | by right | by rewrite Hd ]).
    rewrite (handleMessage_awareness_update _ _ _ _ _ Hp Ht Hd).
    apply Hsame.
    destruct (relays_effects _ _ _ _ _ _
                (handleAwarenessUpdate_cases s n ws update))
      as (k & out & -> & _). by eexists _, _.
  - rewrite (handleMessage_custom_message _ _ _ _ Hp Ht). apply Hsame.
    destruct (relays_effects _ _ _ _ _ _
                (handleCustomMessage_cases s n ws (data message)))
      as (k & out & -> & _). by eexists _, _.
Qed.

Lemma sweep_docs cs s n :
  docs (server (forEach cs probe (mkWorld s n)).1.2) = docs s.
Proof.
  revert s. induction cs as [ | c cs IH ]; intros s; [done | ].
  rewrite forEach_cons, probe_run.
  destruct (truthy_bool (peek isAlive s c)).
  - specialize (IH (set_sockets (alter (set_isAlive false) c) s)).
    by destruct (forEach cs probe _) as [[[] w2] o2].
  - specialize (IH (set_sockets (alter terminated c) s)).
    by destruct (forEach cs probe _) as [[[] w2] o2].
Qed.

(** X11. A document changes only when a [sync-update] frame is applied to
    it, and the heap of documents grows only when a connection creates a
    room: every other event, a frame of any other kind included, leaves
    every document as it was. *)
Theorem documents_change_only_by_update_or_creation evs w out0 e :
  run evs = (w, out0) →
  ∃ w' out,
    deliver e w = (tt, w', out) ∧ docs_step e (server w) (server w').
Proof.
  intros Hrun. destruct (run_wf _ _ _ Hrun) as [Hwf _].
  destruct w as [s n]. cbn [server] in *.
  assert (∃ w' out, (tt, mkWorld s n, @nil Effect) = (tt, w', out)
                    ∧ docs_step e s (server w')) as Hidle.
  { eexists _, _. split; [done | by left]. }
  destruct e as [room | ws | ws data | ws | ws | ws | ].
  - cbn [deliver]. rewrite on_connection_run.
    pose proof (joinRoom_server (length (sockets s)) (requested room)
                  (accepted s (requested room)) n) as Hsrv.
    destruct (joinRoom _ _ _) as [[[] [s' k]] out]. cbn in Hsrv. subst s'.
    eexists _, _. split; [done | ]. cbn [server].
    unfold joined, accepted. proj_simpl. case_decide as Hnew.
    + right. left. by exists room.
    + by left.
  - destruct (decide (ws ∈ wss_clients s)) as [Hws | Hws].
    2: { by rewrite (deliver_not_listening s n ws) by auto. }
    cbn [deliver]. rewrite listening_run by done. unfold on_pong.
    unfold update, modify. cbn. eexists _, _. split; [done | by left].
  - destruct (decide (ws ∈ wss_clients s)) as [Hws | Hws].
    2: { by rewrite (deliver_not_listening s n ws) by eauto. }
    rewrite deliver_message by done.
    destruct (handleMessage_docs ws data s n)
      as (s' & k & out & -> & [-> | (update & r & room & Hup & Hr & Hroom & ->)]).
    + eexists _, _. split; [done | by left].
    + eexists _, _. split; [done | ]. right. right.
      by exists ws, data, update, r, room.
  - destruct (decide (ws ∈ wss_clients s)) as [Hws | Hws].
    2: { by rewrite (deliver_not_listening s n ws) by auto. }
    cbn [deliver]. rewrite listening_run by done.
    unfold update, modify. cbn. eexists _, _. split; [done | by left].
  - destruct (decide (ws ∈ wss_clients s)) as [Hws | Hws].
    2: { by rewrite (deliver_not_listening s n ws) by auto 6. }
    destruct (wf_session _ Hwf ws Hws)
      as (r & room & Hr & Hne & Hroom & Hin & _).
    rewrite (deliver_close_run s n ws r room) by done.
    eexists _, _. split; [done | by left].
  - destruct (decide (ws ∈ wss_clients s)) as [Hws | Hws].
    2: { by rewrite (deliver_not_listening s n ws) by auto 6. }
    cbn [deliver]. rewrite listening_run by done. unfold on_error, emit.
    eexists _, _. split; [done | by left].
  - cbn [deliver]. rewrite startHeartbeat_probe.
    pose proof (sweep_docs (wss_clients s) s n) as Hdocs.
    destruct (forEach _ probe _) as [[[] w'] out].
    eexists _, _. split; [done | by left].
Qed.

(** X12. The rooms are isolated from one another: a frame from a
    connected session leaves every other room, and the contents of every
    other room's document, as they were. *)
Theorem other_rooms_untouched_by_frame evs w out0 ws raw :
  run evs = (w, out0) →
  ws ∈ wss_clients (server w) →
  ∃ w' out,
    deliver (EMessage ws raw) w = (tt, w', out)
    ∧ rooms (server w') = rooms (server w)
    ∧ ∀ r room,
        rooms (server w) !! r = Some room →
        roomId_of (server w) ws ≠ Some r →
        docs (server w') !! doc room = docs (server w) !! doc room.
Proof.
  intros Hrun Hws. destruct (run_wf _ _ _ Hrun) as [Hwf _].
  pose proof (run_wf_rooms _ _ _ Hrun) as Hrooms.
  destruct w as [s n]. cbn [server] in *.
  rewrite deliver_message by done.
  destruct (handleMessage_docs ws raw s n)
    as (s' & k & out & -> & [-> | (update & r & room & _ & Hr & Hroom & ->)]).
  - by eexists _, _.
  - eexists _, _. split; [done | ]. cbn [server]. split; [done | ].
    intros r' room' Hroom' Hother. unfold set_docs. proj_simpl.
    apply list_lookup_alter_ne. intros Hsame.
    apply Hother. rewrite Hr. f_equal.
    by apply (wfr_doc _ Hrooms r r' room room').
Qed.

Lemma frames_to_stamped_out kind p n cs c :
  c ∉ cs → frames_to c (stamped kind p n cs) = [].
Proof.
  intros Hc. apply frames_to_other.
  intros e c' (c'' & t & -> & Hin)%elem_of_stamped [= <-]. by intros ->.
Qed.

Lemma frames_to_stamped_in kind p n cs c :
  NoDup cs → c ∈ cs →
  ∃ t, frames_to c (stamped kind p n cs) = [createMessage kind p t].
Proof.
  intros Hnd. revert n. induction Hnd as [ | x cs Hx Hnd IH ]; intros n Hc.
  - by apply elem_of_nil in Hc.
  - rewrite stamped_cons.
    change (Send x ?f :: ?l) with ([Send x f] ++ l). rewrite frames_to_app.
    apply elem_of_cons in Hc as [-> | Hc].
    + exists (Date_now n). rewrite frames_to_stamped_out by done.
      unfold frames_to. cbn. by rewrite decide_True.
    + destruct (IH (S n) Hc) as [t ->]. exists t.
      unfold frames_to at 1. cbn. rewrite decide_False; [done | ].
      by intros ->.
Qed.

Lemma sync_updates_run ws r room raws us :
  Forall2 is_sync_update raws us →
  ∀ s n d,
    ws ∈ wss_clients s → is_Some (doc_of s ws) → roomId_of s ws = Some r →
    r ≠ "" → rooms s !! r = Some room → docs s !! doc room = Some d →
    ∃ s' k out,
      forEach (EMessage ws <$> raws) deliver (mkWorld s n)
      = (tt, mkWorld s' k, out)
      ∧ rooms s' = rooms s ∧ sockets s' = sockets s
      ∧ wss_clients s' = wss_clients s
      ∧ length (docs s') = length (docs s)
      ∧ docs s' !! doc room = Some (foldl applyUpdate d us)
      ∧ (∀ c, NoDup (clients room) →
              c ∈ recipients s ws (clients room) →
              Forall2 carries (frames_to c out) (accepted_updates d us))
      ∧ (∀ c, c ∉ recipients s ws (clients room) → frames_to c out = []).
Proof.
  induction 1 as [ | raw u raws us (message & Hp & Ht & Hd) _ IH ];
    intros s n d Hws Hdoc Hr Hne Hroom Hlookup.
  - exists s, n, []. cbn. split; [done | ]. repeat split; try done.
  - rewrite fmap_cons, forEach_cons, deliver_message by done.
    rewrite (handleMessage_sync_update _ _ _ _ _ Hp Ht Hd).
    assert (throws_at s (doc room) u = applyUpdate_throws d u) as Hthrows.
    { unfold throws_at. by rewrite Hlookup. }
    set (s1 := set_docs (alter (λ d, applyUpdate d u) (doc room)) s).
    assert (docs s1 !! doc room = Some (applyUpdate d u)) as Hlookup1.
    { unfold s1, set_docs. proj_simpl. rewrite list_lookup_alter_eq.
      by rewrite Hlookup. }
    cbn [accepted_updates foldl].
    destruct (applyUpdate_throws d u) as [e | ].
    + rewrite (try_catch_throw _ _ _ e
                 (handleSyncUpdate_throw s n ws u r room e
                    Hdoc Hr Hne Hroom Hthrows)).
      fold s1.
      destruct (IH s1 n (applyUpdate d u))
        as (s' & k & out & -> & Hrooms & Hsock & Hwss & Hlen & Hdocs
            & Hin & Hout); try done.
      eexists _, _, _. split; [done | ].
      split; [done | ]. split; [done | ]. split; [done | ].
      split; [by rewrite Hlen; apply length_alter | ]. split; [done | ].
      split.
      * intros c Hnd Hc. rewrite frames_to_app. by apply Hin.
      * intros c Hc. rewrite frames_to_app. by apply Hout.
    + rewrite (try_catch_run _ _ _ _ _
                 (handleSyncUpdate_run s n ws u r room
                    Hdoc Hr Hne Hroom Hthrows)).
      fold s1.
      destruct (IH s1 (n + length (recipients s ws (clients room)))
                  (applyUpdate d u))
        as (s' & k & out & -> & Hrooms & Hsock & Hwss & Hlen & Hdocs
            & Hin & Hout); try done.
      eexists _, _, _. split; [done | ].
      split; [done | ]. split; [done | ]. split; [done | ].
      split; [by rewrite Hlen; apply length_alter | ]. split; [done | ].
      split.
      * intros c Hnd Hc. rewrite frames_to_app.
        destruct (frames_to_stamped_in "sync-update" (PBytes u) n
                    (recipients s ws (clients room)) c) as [t ->];
          [by apply NoDup_filter | done | ].
        constructor; [apply parse_create_bytes | by apply Hin].
      * intros c Hc. rewrite frames_to_app, (Hout c Hc).
        by rewrite frames_to_stamped_out.
Qed.

Lemma accepted_updates_all d us :
  (∀ d u e, applyUpdate_throws d u = Some e → applyUpdate d u = d) →
  foldl applyUpdate d us = foldl applyUpdate d (accepted_updates d us).
Proof.
  intros Hatomic. revert d. induction us as [ | u us IH ]; intros d; [done | ].
  cbn [accepted_updates foldl].
  destruct (applyUpdate_throws d u) as [e | ] eqn:Hthrows.
  - rewrite (Hatomic _ _ _ Hthrows). apply IH.
  - cbn [foldl]. apply IH.
Qed.

(** X13. The [sync-update] frames a connected session sends one after the
    other are handed to the library, on its room's document, in the order
    sent; every other member of the room whose socket is open is sent
    exactly the updates the library accepted, each once, as a [sync-update]
    frame, in that order; the sender is sent nothing. *)
Theorem updates_applied_and_relayed_in_order evs w out0 ws raws us :
  run evs = (w, out0) →
  ws ∈ wss_clients (server w) →
  Forall2 is_sync_update raws us →
  ∃ r room d w' out,
    roomId_of (server w) ws = Some r
    ∧ rooms (server w) !! r = Some room
    ∧ docs (server w) !! doc room = Some d
    ∧ forEach (EMessage ws <$> raws) deliver w = (tt, w', out)
    ∧ docs (server w') !! doc room = Some (foldl applyUpdate d us)
    ∧ (∀ c, c ∈ clients room → c ≠ ws → is_open (server w) c = true →
         Forall2 carries (frames_to c out) (accepted_updates d us))
    ∧ frames_to ws out = [].
Proof.
  intros Hrun Hws Hups. destruct (run_wf _ _ _ Hrun) as [Hwf _].
  pose proof (run_wf_rooms _ _ _ Hrun) as Hrooms.
  destruct w as [s n]. cbn [server] in *.
  destruct (wf_session _ Hwf ws Hws)
    as (r & room & Hr & Hne & Hroom & Hin & Hdoc).
  destruct (lookup_lt_is_Some_2 (docs s) (doc room)) as [d Hd].
  { by eapply wf_doc. }
  destruct (sync_updates_run ws r room raws us Hups s n d)
    as (s' & k & out & Hfor & _ & _ & _ & _ & Hdocs & Hrecv & Hnot);
    try done.
  exists r, room, d. eexists _, out.
  split; [done | ]. split; [done | ]. split; [done | ]. split; [done | ].
  cbn [server]. split; [done | ]. split.
  - intros c Hc Hcne Hopen. apply Hrecv; [by eapply wfr_nodup | ].
    by apply elem_of_recipients.
  - apply Hnot. by intros (? & _)%elem_of_recipients.
Qed.

Lemma run_app evs evs' :
  run (evs ++ evs') =
  let '(w, out) := run evs in
  let '(_, w', o) := forEach evs' deliver w in
  (w', out ++ o).
Proof.
  unfold run. rewrite forEach_app.
  destruct (forEach evs deliver initial) as [[[] w] out].
  by destruct (forEach evs' deliver w) as [[[] w'] o].
Qed.

(** X14. A session that joins a room after a member has sent
    [sync-update] frames is sent, as the first and only frame so far, the
    encoded state of the room's document as the library left it after it
    was handed these updates in the order sent (or nothing, if that
    encoding is empty). When the library leaves a document as it was
    whenever it throws, that is the document with exactly the accepted
    updates applied. *)
Theorem late_joiner_receives_all_updates evs w out0 ws raws us p :
  run evs = (w, out0) →
  ws ∈ wss_clients (server w) →
  Forall2 is_sync_update raws us →
  roomId_of (server w) ws = Some (requested p) →
  ∃ room d t,
    rooms (server w) !! requested p = Some room
    ∧ docs (server w) !! doc room = Some d
    ∧ frames_to (length (sockets (server w)))
        (run (evs ++ (EMessage ws <$> raws) ++ [EConnection p])).2
      = (if bool_decide
              (0 < length (encodeStateAsUpdate (foldl applyUpdate d us)))
         then [createMessage "sync-update"
                 (PBytes (encodeStateAsUpdate (foldl applyUpdate d us))) t]
         else [])
    ∧ ((∀ d u e, applyUpdate_throws d u = Some e → applyUpdate d u = d) →
       foldl applyUpdate d us
       = foldl applyUpdate d (accepted_updates d us)).
Proof.
  intros Hrun Hws Hups Hp. destruct (run_wf _ _ _ Hrun) as [Hwf _].
  destruct w as [s n]. cbn [server] in *.
  destruct (wf_session _ Hwf ws Hws)
    as (r & room & Hr & Hne & Hroom & Hin & Hdoc).
  assert (r = requested p) as -> by congruence.
  destruct (lookup_lt_is_Some_2 (docs s) (doc room)) as [d Hd].
  { by eapply wf_doc. }
  destruct (sync_updates_run ws (requested p) room raws us Hups s n d)
    as (s' & k & out & Hfor & Hrooms & Hsock & _ & _ & Hdocs & _);
    try done.
  assert (run (evs ++ (EMessage ws <$> raws)) = (mkWorld s' k, out0 ++ out))
    as Hrun1.
  { by rewrite run_app, Hrun, Hfor. }
  destruct (run_wf _ _ _ Hrun1) as [Hwf1 Hbound]. cbn [server] in *.
  exists room, d, (Date_now k). split; [done | ]. split; [done | ].
  split; [ | apply accepted_updates_all].
  rewrite app_assoc, run_snoc, Hrun1. cbn [deliver].
  rewrite on_connection_run.
  assert (rooms (accepted s' (requested p)) !! requested p = Some room)
    as Hroom1 by (unfold accepted; proj_simpl; by rewrite Hrooms).
  assert (docs (accepted s' (requested p)) !! doc room
          = Some (foldl applyUpdate d us)) as Hd1.
  { unfold accepted. by proj_simpl. }
  rewrite (joinRoom_existing _ _ _ _ room _ Hroom1 Hd1). cbn [snd].
  rewrite <- Hsock. rewrite frames_to_app.
  rewrite (frames_to_other _ (out0 ++ out)).
  - change (Log NewClientConnected :: ?l) with ([Log NewClientConnected] ++ l).
    rewrite !frames_to_app, frames_to_snapshot. cbn.
    by rewrite app_nil_r.
  - intros e c He Ht. specialize (Hbound e c He Ht). lia.
Qed.

Lemma connection_run p s n :
  wf s →
  ∃ k out,
    deliver (EConnection p) (mkWorld s n)
    = (tt, mkWorld (joined (accepted s (requested p)) (length (sockets s))
                      (requested p)) k, out)
    ∧ ∀ e c, e ∈ out → target e = Some c →
        c = length (sockets s) ∧ e ≠ Terminate c ∧ e ≠ Ping c.
Proof.
  intros Hwf. cbn [deliver]. rewrite on_connection_run.
  assert (∀ d k (e : Effect) c,
            e ∈ snapshot (length (sockets s)) d k →
            target e = Some c →
            c = length (sockets s) ∧ e ≠ Terminate c ∧ e ≠ Ping c) as Hsnap.
  { intros d k e c He Ht. unfold snapshot in He.
    destruct (bool_decide _).
    - apply list_elem_of_singleton in He as ->. by injection Ht as <-.
    - by apply elem_of_nil in He. }
  destruct (rooms s !! requested p) as [room0 | ] eqn:Hroom.
  - destruct (lookup_lt_is_Some_2 (docs s) (doc room0)) as [d Hd].
    { by eapply wf_doc. }
    rewrite (joinRoom_existing _ _ _ _ room0 d) by done.
    eexists _, _. split; [done | ]. intros e c He Ht.
    apply elem_of_cons in He as [-> | He]; [done | ].
    apply elem_of_app in He as [He | He]; [by eapply Hsnap | ].
    apply list_elem_of_singleton in He as ->. done.
  - rewrite (joinRoom_new _ _ _ _) by done.
    eexists _, _. split; [done | ]. intros e c He Ht.
    apply elem_of_cons in He as [-> | He]; [done | ].
    apply elem_of_cons in He as [-> | He]; [done | ].
    apply elem_of_app in He as [He | He]; [by eapply Hsnap | ].
    apply list_elem_of_singleton in He as ->. done.
Qed.

(** Whom an event can reach: the sockets the server listens to, and the
    socket of the connection the event brings. *)
Lemma deliver_scope e s n :
  wf s →
  ∃ s' k out,
    deliver e (mkWorld s n) = (tt, mkWorld s' k, out)
    ∧ (∀ e' c, e' ∈ out → target e' = Some c →
         c ∈ wss_clients s ∨ c = length (sockets s))
    ∧ (∀ c, c ∈ wss_clients s' →
         c ∈ wss_clients s ∨ c = length (sockets s))
    ∧ (e ≠ EInterval → ∀ c, Terminate c ∉ out).
Proof.
  intros Hwf.
  assert (∃ s' k out,
    (tt, mkWorld s n, @nil Effect) = (tt, mkWorld s' k, out)
    ∧ (∀ e' c, e' ∈ out → target e' = Some c →
         c ∈ wss_clients s ∨ c = length (sockets s))
    ∧ (∀ c, c ∈ wss_clients s' →
         c ∈ wss_clients s ∨ c = length (sockets s))
    ∧ (e ≠ EInterval → ∀ c, Terminate c ∉ out)) as Hidle.
  { exists s, n, []. split; [done | ]. split.
    - intros e' c He'. by apply elem_of_nil in He'.
    - split; [by left | ]. intros _ c. apply not_elem_of_nil. }
  destruct e as [p | ws | ws data | ws | ws | ws | ].
  - destruct (connection_run p s n Hwf) as (k & out & -> & Hout).
    eexists _, _, _. split; [done | ]. split.
    + intros e' c He' Ht. right. by destruct (Hout e' c He' Ht).
    + split.
      * intros c Hc. change (c ∈ Set_add (length (sockets s)) (wss_clients s))
          in Hc.
        apply elem_of_Set_add in Hc. tauto.
      * intros _ c Hc. by destruct (Hout (Terminate c) c Hc eq_refl) as (_ & ? & _).
  - destruct (decide (ws ∈ wss_clients s)) as [Hws | Hws].
    2: { by rewrite (deliver_not_listening s n ws) by auto. }
    cbn [deliver]. rewrite listening_run by done. unfold on_pong.
    unfold update, modify. cbn.
    eexists _, _, _. split; [done | ]. split.
    + intros e' c He'. by apply elem_of_nil in He'.
    + split; [by left | ]. intros _ c. apply not_elem_of_nil.
  - destruct (decide (ws ∈ wss_clients s)) as [Hws | Hws].
    2: { by rewrite (deliver_not_listening s n ws) by eauto. }
    rewrite deliver_message by done.
    destruct (handleMessage_effects ws data s n)
      as (s' & k & out & -> & (_ & Hwss & _) & _ & Hout).
    rewrite Forall_forall in Hout.
    exists s', k, out. split; [done | ]. split.
    + intros e' c He' Ht. left. specialize (Hout e' He').
      destruct e' as [c' frame | c' | c' | entry]; try done.
      injection Ht as ->.
      destruct Hout as [[-> _] | (r & room & Hr & Hroom & Hc)]; [done | ].
      apply elem_of_recipients in Hc as (_ & _ & Hc).
      by eapply wf_member.
    + split; [rewrite Hwss; by left | ].
      intros _ c Hc. by apply (Hout _ Hc).
  - destruct (decide (ws ∈ wss_clients s)) as [Hws | Hws].
    2: { by rewrite (deliver_not_listening s n ws) by auto. }
    cbn [deliver]. rewrite listening_run by done.
    unfold update, modify. cbn.
    eexists _, _, _. split; [done | ]. split.
    + intros e' c He'. by apply elem_of_nil in He'.
    + split; [by left | ]. intros _ c. apply not_elem_of_nil.
  - destruct (decide (ws ∈ wss_clients s)) as [Hws | Hws].
    2: { by rewrite (deliver_not_listening s n ws) by auto 6. }
    destruct (wf_session _ Hwf ws Hws)
      as (r & room & Hr & Hne & Hroom & Hin & _).
    rewrite (deliver_close_run s n ws r room) by done.
    eexists _, _, _. split; [done | ]. split.
    + intros e' c He' Ht.
      apply elem_of_cons in He' as [-> | He']; [done | ].
      apply elem_of_cons in He' as [-> | He']; [done | ].
      destruct (bool_decide _).
      * apply list_elem_of_singleton in He' as ->. done.
      * by apply elem_of_nil in He'.
    + split.
      * intros c Hc. change (c ∈ Set_delete ws (wss_clients s)) in Hc.
        apply elem_of_Set_delete in Hc as [_ Hc]. by left.
      * intros _ c Hc.
        apply elem_of_cons in Hc as [? | Hc]; [done | ].
        apply elem_of_cons in Hc as [? | Hc]; [done | ].
        destruct (bool_decide _).
        -- by apply list_elem_of_singleton in Hc.
        -- by apply elem_of_nil in Hc.
  - destruct (decide (ws ∈ wss_clients s)) as [Hws | Hws].
    2: { by rewrite (deliver_not_listening s n ws) by auto 6. }
    cbn [deliver]. rewrite listening_run by done. unfold on_error, emit.
    eexists _, _, _. split; [done | ]. split.
    + intros e' c He' Ht. apply list_elem_of_singleton in He' as ->. done.
    + split; [by left | ]. intros _ c Hc.
      by apply list_elem_of_singleton in Hc.
  - cbn [deliver].
    destruct (startHeartbeat_quiet s n)
      as (s' & out & -> & (_ & Hwss & _) & Hout).
    rewrite Forall_forall in Hout.
    exists s', n, out. split; [done | ]. split.
    + intros e' c He' Ht. left.
      destruct (Hout e' He') as (ws & Hws & [-> | [-> | ->]]); try done;
        by injection Ht as <-.
    + split; [rewrite Hwss; by left | done].
Qed.

(** X15. Once the close event of a socket has been handled, the server
    leaves that socket alone: whatever events follow, it lists the socket
    neither in [wss.clients] nor in a room, and it sends it no frame, no
    probe and no termination. *)
Theorem closed_socket_left_alone evs ws w out0 later :
  run (evs ++ [EClose ws]) = (w, out0) →
  ws < length (sockets (server w)) →
  ∃ w' out,
    forEach later deliver w = (tt, w', out)
    ∧ (ws ∉ wss_clients (server w'))
    ∧ (∀ r room, rooms (server w') !! r = Some room → ws ∉ clients room)
    ∧ ∀ e, e ∈ out → target e ≠ Some ws.
Proof.
  intros Hrun Hlt. destruct (run_wf _ _ _ Hrun) as [Hwf _].
  assert (ws ∉ wss_clients (server w)) as Hgone.
  { rewrite run_snoc in Hrun. destruct (run evs) as [[s0 n0] o0] eqn:Hrun0.
    destruct (run_wf _ _ _ Hrun0) as [Hwf0 _]. cbn [server] in *.
    destruct (decide (ws ∈ wss_clients s0)) as [Hws | Hws].
    - destruct (wf_session _ Hwf0 ws Hws)
        as (r & room & Hr & Hne & Hroom & _).
      rewrite (deliver_close_run s0 n0 ws r room) in Hrun by done.
      injection Hrun as <- _.
      change (ws ∉ Set_delete ws (wss_clients s0)).
      rewrite elem_of_Set_delete. by intros [? _].
    - rewrite (deliver_not_listening s0 n0 ws) in Hrun by auto 6.
      by injection Hrun as <- _. }
  clear Hrun. destruct w as [s n]. cbn [server] in *.
  revert s n Hwf Hlt Hgone.
  induction later as [ | e later IH ]; intros s n Hwf Hlt Hgone.
  - eexists _, []. split; [done | ]. cbn [server]. split; [done | ]. split.
    + intros r room Hroom Hin. by destruct (wf_member _ Hwf r room ws Hroom Hin).
    + intros e He. by apply elem_of_nil in He.
  - rewrite forEach_cons.
    destruct (deliver_scope e s n Hwf)
      as (s1 & k1 & o1 & Hstep & Htargets & Hwss & _).
    destruct (deliver_wf e s n Hwf) as (s1' & k1' & o1' & Hstep' & Hwf1 & Hle & _).
    rewrite Hstep in Hstep'. injection Hstep' as <- <- <-. rewrite Hstep.
    destruct (IH s1 k1 Hwf1) as (w' & out & -> & Hgone' & Hrooms' & Hout).
    { lia. }
    { intros [Hin | ->]%Hwss; [done | lia]. }
    eexists _, _. split; [done | ]. split; [done | ]. split; [done | ].
    intros e' [He' | He']%elem_of_app; [ | by apply Hout].
    intros Ht. destruct (Htargets e' ws He' Ht) as [Hin | ->]; [done | lia].
Qed.

(** X16. A sweep of the heartbeat touches nothing but the alive flag and
    the state of the sockets in [wss.clients]: rooms, memberships and
    documents stay as they are, no clock is read, no frame is sent, and
    every effect is a probe or a termination of a connected socket, or the
    console entry that goes with a termination. *)
Theorem heartbeat_touches_only_connected_sockets evs w out0 :
  run evs = (w, out0) →
  ∃ s' out,
    deliver EInterval w = (tt, mkWorld s' (reads w), out)
    ∧ rooms s' = rooms (server w)
    ∧ wss_clients s' = wss_clients (server w)
    ∧ docs s' = docs (server w)
    ∧ (∀ ws, roomId_of s' ws = roomId_of (server w) ws
             ∧ doc_of s' ws = doc_of (server w) ws)
    ∧ (∀ ws, ws ∉ wss_clients (server w) →
             sockets s' !! ws = sockets (server w) !! ws)
    ∧ ∀ e, e ∈ out →
        e = Log TerminatingDeadConnection
        ∨ ∃ ws, ws ∈ wss_clients (server w) ∧ (e = Ping ws ∨ e = Terminate ws).
Proof.
  intros Hrun. destruct (run_wf _ _ _ Hrun) as [Hwf _].
  destruct w as [s n]. cbn [server reads] in *.
  destruct (startHeartbeat_quiet s n)
    as (s' & out & Hsweep & (Hrooms & Hwss & _ & _ & Hpeek) & Hout).
  destruct (sweep_spec (wss_clients s) s n (wf_nodup _ Hwf))
    as (s'' & out' & Hsweep' & _ & _ & Hrest & _).
  pose proof (sweep_docs (wss_clients s) s n) as Hdocs.
  rewrite <- startHeartbeat_probe in Hsweep', Hdocs.
  rewrite Hsweep in Hsweep', Hdocs. injection Hsweep' as <- <-.
  exists s', out. cbn [deliver]. split; [done | ].
  split; [done | ]. split; [done | ]. split; [done | ]. split; [done | ].
  split; [done | ]. intros e He. rewrite Forall_forall in Hout.
  destruct (Hout e He) as (ws & Hws & [-> | [-> | ->]]);
    [by left | right; exists ws; auto | right; exists ws; auto].
Qed.

(** A flag found true stays true until the next sweep. *)
Lemma deliver_keeps_alive e s n ws :
  wf s → ws ∈ wss_clients s →
  peek isAlive s ws = Some true →
  e ≠ EInterval → e ≠ EClose ws →
  ∃ s' k out,
    deliver e (mkWorld s n) = (tt, mkWorld s' k, out)
    ∧ ws ∈ wss_clients s'
    ∧ peek isAlive s' ws = Some true.
Proof.
  intros Hwf Hws Halive Hsweep Hclose.
  assert (∃ s' k out,
            (tt, mkWorld s n, @nil Effect) = (tt, mkWorld s' k, out)
            ∧ ws ∈ wss_clients s'
            ∧ peek isAlive s' ws = Some true) as Hidle.
  { by exists s, n, []. }
  destruct e as [room | ws' | ws' data | ws' | ws' | ws' | ]; [ | | | | | | done].
  - cbn [deliver]. rewrite on_connection_run.
    pose proof (joinRoom_server (length (sockets s)) (requested room)
                  (accepted s (requested room)) n) as Hsrv.
    destruct (joinRoom _ _ _) as [[[] [s' k]] out]. cbn in Hsrv. subst s'.
    eexists _, _, _. split; [done | ]. split.
    + change (ws ∈ Set_add (length (sockets s)) (wss_clients s)).
      apply elem_of_Set_add. by right.
    + rewrite peek_connection; [done | by apply wf_lt].
  - destruct (decide (ws' ∈ wss_clients s)) as [Hws' | Hws'].
    2: { by rewrite (deliver_not_listening s n ws') by auto. }
    cbn [deliver]. rewrite listening_run by done. unfold on_pong. unfold_M.
    eexists _, _, _. split; [done | ]. split; [done | ].
    unfold peek in *. proj_simpl. rewrite list_lookup_alter.
    case_decide; [subst ws' | done].
    by destruct (sockets s !! ws).
  - destruct (decide (ws' ∈ wss_clients s)) as [Hws' | Hws'].
    2: { by rewrite (deliver_not_listening s n ws') by eauto. }
    cbn [deliver]. rewrite listening_run by done. unfold on_message.
    destruct (handleMessage_effects ws' data s n)
      as (s' & k & out & -> & Hq & Hsock & _).
    exists s', k, out. split; [done | ].
    destruct Hq as (_ & -> & _). split; [done | ].
    unfold peek in *. by rewrite Hsock.
  - destruct (decide (ws' ∈ wss_clients s)) as [Hws' | Hws'].
    2: { by rewrite (deliver_not_listening s n ws') by auto. }
    cbn [deliver]. rewrite listening_run by done. unfold_M.
    eexists _, _, _. split; [done | ]. split; [done | ]. fold_alter s.
    by rewrite (peek_alter isAlive (set_readyState CLOSING) ws' ws s).
  - destruct (decide (ws' ∈ wss_clients s)) as [Hws' | Hws'].
    2: { by rewrite (deliver_not_listening s n ws') by auto 6. }
    destruct (wf_session _ Hwf ws' Hws') as (r & room & Hr & Hne & Hroom & _).
    rewrite (deliver_close_run s n ws' r room) by done.
    eexists _, _, _. split; [done | ]. split.
    + change (ws ∈ Set_delete ws' (wss_clients s)).
      apply elem_of_Set_delete. split; [congruence | done].
    + change (peek isAlive (left (closed s ws') ws' r room) ws)
        with (peek isAlive (closed s ws') ws).
      by rewrite (peek_closed isAlive s ws' ws).
  - destruct (decide (ws' ∈ wss_clients s)) as [Hws' | Hws'].
    2: { by rewrite (deliver_not_listening s n ws') by auto 6. }
    cbn [deliver]. rewrite listening_run by done. unfold on_error. unfold_M.
    by eexists _, _, _.
Qed.

Lemma events_keep_alive mid s n ws :
  wf s → ws ∈ wss_clients s →
  peek isAlive s ws = Some true →
  Forall (λ e, e ≠ EInterval ∧ e ≠ EClose ws) mid →
  ∃ s' k out,
    forEach mid deliver (mkWorld s n) = (tt, mkWorld s' k, out)
    ∧ wf s' ∧ ws ∈ wss_clients s'
    ∧ peek isAlive s' ws = Some true
    ∧ ∀ c, Terminate c ∉ out.
Proof.
  intros Hwf Hws Halive Hmid. revert s n Hwf Hws Halive.
  induction Hmid as [ | e mid [Hsweep Hclose] _ IH ];
    intros s n Hwf Hws Halive.
  - exists s, n, []. split; [done | ]. split; [done | ]. split; [done | ].
    split; [done | ]. intros c. apply not_elem_of_nil.
  - rewrite forEach_cons.
    destruct (deliver_keeps_alive e s n ws Hwf Hws Halive Hsweep Hclose)
      as (s1 & k1 & o1 & Hstep & Hws1 & Halive1).
    destruct (deliver_wf e s n Hwf) as (s1' & k1' & o1' & Hstep' & Hwf1 & _).
    destruct (deliver_scope e s n Hwf)
      as (s1'' & k1'' & o1'' & Hstep'' & _ & _ & Hterm).
    rewrite Hstep in Hstep', Hstep''.
    injection Hstep' as <- <- <-. injection Hstep'' as <- <- <-.
    rewrite Hstep.
    destruct (IH s1 k1 Hwf1 Hws1 Halive1)
      as (s' & k & out & -> & Hwf' & Hws' & Halive' & Hout).
    exists s', k, (o1 ++ out). split; [done | ]. split; [done | ].
    split; [done | ]. split; [done | ].
    intros c [Hc | Hc]%elem_of_app; [by apply (Hterm Hsweep c) | by apply (Hout c)].
Qed.

(** X17. A session that answers a probe survives the next sweep: from its
    pong on, whatever events come in before the timer fires (the session's
    own close apart), the sweep finds the flag set, pings the socket and
    clears the flag, and nothing in between or in the sweep terminates
    it. *)
Theorem responsive_session_survives_sweep evs w out0 ws mid :
  run evs = (w, out0) →
  ws ∈ wss_clients (server w) →
  Forall (λ e, e ≠ EInterval ∧ e ≠ EClose ws) mid →
  ∃ w' out,
    forEach (EPong ws :: mid ++ [EInterval]) deliver w = (tt, w', out)
    ∧ (Ping ws ∈ out) ∧ (Terminate ws ∉ out)
    ∧ (ws ∈ wss_clients (server w'))
    ∧ peek isAlive (server w') ws = Some false.
Proof.
  intros Hrun Hws Hmid. destruct (run_wf _ _ _ Hrun) as [Hwf _].
  destruct w as [s n]. cbn [server] in *.
  assert (EPong ws ≠ EInterval ∧ EPong ws ≠ EClose ws) as Hpong by done.
  rewrite forEach_cons.
  destruct (deliver_wf (EPong ws) s n Hwf)
    as (s1 & k1 & o1 & Hstep & Hwf1 & _).
  assert (ws ∈ wss_clients s1 ∧ peek isAlive s1 ws = Some true
          ∧ o1 = []) as (Hws1 & Halive1 & ->).
  { cbn [deliver] in Hstep. rewrite listening_run in Hstep by done.
    unfold on_pong in Hstep. revert Hstep. unfold_M.
    intros Hstep. injection Hstep as <- _ <-. proj_simpl.
    split; [done | ]. split; [ | done].
    pose proof (wf_lt _ _ Hwf Hws) as Hlt.
    apply lookup_lt_is_Some_2 in Hlt as [x Hx].
    unfold peek. proj_simpl. rewrite list_lookup_alter.
    rewrite decide_True by done. by rewrite Hx. }
  rewrite Hstep. rewrite forEach_app.
  destruct (events_keep_alive mid s1 k1 ws Hwf1 Hws1 Halive1 Hmid)
    as (s2 & k2 & o2 & -> & Hwf2 & Hws2 & Halive2 & Hterm).
  rewrite forEach_cons. cbn [deliver forEach]. rewrite startHeartbeat_probe.
  destruct (sweep_spec (wss_clients s2) s2 k2 (wf_nodup _ Hwf2))
    as (s3 & o3 & -> & _ & Hwss & _ & _ & Hswept).
  specialize (Hswept ws Hws2). unfold swept in Hswept.
  rewrite Halive2 in Hswept. cbn [truthy_bool default] in Hswept.
  destruct Hswept as (Hping & Hnot & Hflag).
  unfold mret, M_ret.
  eexists _, _. split; [done | ]. cbn [server]. rewrite Hwss.
  split.
  { rewrite !elem_of_app. right. right. by left. }
  split; [ | done].
  rewrite !elem_of_app.
  intros [Hin | [Hin | [Hin | Hin]]];
    [by apply elem_of_nil in Hin | by apply (Hterm ws) | by apply Hnot
    | by apply elem_of_nil in Hin].
Qed.

(** X18. A connection makes a fresh socket, lists it last in
    [wss.clients] and last among the members of the room it asked for
    (the room [default] when it named none), with the flag set and that
    room's id and document on it; the sockets and the rooms there were stay
    as they are, and the members of the room are told nothing: every frame
    goes to the new socket. *)
Theorem connection_joins_requested_room evs w out0 p :
  run evs = (w, out0) →
  ∃ w' out room',
    deliver (EConnection p) w = (tt, w', out)
    ∧ wss_clients (server w')
      = wss_clients (server w) ++ [length (sockets (server w))]
    ∧ rooms (server w') !! requested p = Some room'
    ∧ clients room'
      = match rooms (server w) !! requested p with
        | Some room => clients room
        | None => []
        end ++ [length (sockets (server w))]
    ∧ sockets (server w')
      = sockets (server w)
        ++ [mkSocket (Some true) None (Some (requested p)) (Some (doc room'))
              OPEN]
    ∧ (∀ r, r ≠ requested p →
            rooms (server w') !! r = rooms (server w) !! r)
    ∧ (∀ e c, e ∈ out → target e = Some c →
              c = length (sockets (server w)))
    ∧ (requested p = "default"
       ↔ p = None ∨ p = Some "" ∨ p = Some "default").
Proof.
  intros Hrun. destruct (run_wf _ _ _ Hrun) as [Hwf _].
  destruct w as [s n]. cbn [server] in *.
  destruct (connection_run p s n Hwf) as (k & out & -> & Hout).
  eexists _, out, _. split; [done | ]. cbn [server].
  assert (length (sockets s) ∉ wss_clients s) as Hfresh.
  { intros Hin. apply (wf_lt _ _ Hwf) in Hin. lia. }
  unfold joined, accepted, room_for. proj_simpl.
  split.
  { unfold Set_add. by rewrite decide_False. }
  split; [by rewrite lookup_insert_eq | ]. proj_simpl.
  split.
  { unfold Set_add.
    destruct (rooms s !! requested p) as [room | ] eqn:Hroom; cbn [default];
      proj_simpl.
    - rewrite decide_False; [done | ].
      intros Hin. apply Hfresh. by eapply wf_member.
    - rewrite decide_False; [done | ]. apply not_elem_of_nil. }
  split.
  { replace (length (sockets s)) with (length (sockets s) + 0) at 1 by lia.
    by rewrite alter_app_r. }
  split.
  { intros r Hr. by rewrite lookup_insert_ne. }
  split.
  { intros e c He Ht. by destruct (Hout e c He Ht). }
  unfold requested. destruct p as [r | ]; cbn [truthy_string].
  - change (default "" (Some r)) with r.
    destruct (String.eqb r "") eqn:Heq; cbn [negb].
    + apply String.eqb_eq in Heq as ->. split; [auto | done].
    + apply String.eqb_neq in Heq. split.
      * intros Hr. right. right. by rewrite Hr.
      * intros [? | [Hr | Hr]]; [done | | ]; by injection Hr.
  - split; [auto | done].
Qed.

End Further.

(** ** The claims on concrete runs *)

#[local] Existing Instance LogHost.
#[local] Existing Instance LogDoc.

(** Witness of [room_in_registry_iff_has_member]: with client 0 alone in
    [r1], a join for [r2] creates that room and the leave of client 0
    deletes [r1]. *)
Lemma room_in_registry_iff_has_member_witness :
  let s := server (world_after [EConnection (Some "r1")]) in
  (rooms s !! "r2" = None
   ∧ rooms (server (joinRoom 7 "r2" (mkWorld s 0)).1.2)
     = <["r2" := mkRoom (length (docs s)) [7]]> (rooms s))
  ∧ (rooms s !! "r1" = Some (mkRoom 0 [0])
     ∧ rooms (server (leaveRoom 0 "r1" (mkWorld s 0)).1.2)
       = delete "r1" (rooms s)).
Proof.
  intros s.
  destruct (room_in_registry_iff_has_member [] "r2") as (_ & Hnew & _).
  destruct (room_in_registry_iff_has_member [] "r1") as (_ & _ & Hlast).
  split; split.
  - reflexivity.
  - apply (Hnew s 0 7). reflexivity.
  - reflexivity.
  - apply (Hlast s 0 0 (mkRoom 0 [0])); reflexivity.
Defined.

(** Witness of [sync_update_applied_and_relayed]: client 0 of [two_in_r1]
    sends the update 0, 0. *)
Lemma sync_update_applied_and_relayed_witness :
  let w := world_after two_in_r1 in
  let ws := 0 in
  let raw := sync_update_00 in
  let update := bytes_00 in
  ∃ r room d w' out,
    roomId_of (server w) ws = Some r
    ∧ rooms (server w) !! r = Some room
    ∧ ws ∈ clients room
    ∧ docs (server w) !! doc room = Some d
    ∧ deliver (EMessage ws raw) w = (tt, w', out)
    ∧ server w'
      = set_docs (alter (λ d, applyUpdate d update) (doc room)) (server w)
    ∧ docs (server w') !! doc room = Some (applyUpdate d update)
    ∧ match applyUpdate_throws d update with
      | None =>
          out = stamped "sync-update" (PBytes update) (reads w)
                  (recipients (server w) ws (clients room))
          ∧ (∀ c, c ∈ clients room → c ≠ ws → is_open (server w) c = true →
               ∃ frame, Send c frame ∈ out)
          ∧ (∀ c frame, Send c frame ∈ out →
               c ∈ clients room ∧ c ≠ ws ∧ is_open (server w) c = true
               ∧ parseMessage frame
                 = Ok (mkMessage (Some (JStr "sync-update")) (PBytes update)))
      | Some e => out = [Log (ErrorHandlingMessage e)]
      end.
Proof.
  intros w ws raw update.
  apply (sync_update_applied_and_relayed two_in_r1 w (output_after two_in_r1)
           ws raw (mkMessage (Some (JStr "sync-update")) (PBytes update))
           update).
  - apply surjective_pairing.
  - vm_compute. apply list_elem_of_here.
  - vm_compute. reflexivity.
  - reflexivity.
  - reflexivity.
Defined.

(** C2 as stated fails in two ways. A member of the room whose socket is
    no longer open is sent nothing: client 1 of [r1] is closing when
    client 0 sends the update 0, 0. And bytes the library throws on are
    sent to no one: client 0 sends the bytes 1, 2, 3 while client 1 is
    open, and the server only writes the exception to the console. *)
Lemma sync_update_not_sent_to_every_member :
  (let w := world_after (two_in_r1 ++ [EClosing 1]) in
   rooms (server w) !! "r1" = Some (mkRoom 0 [0; 1])
   ∧ (deliver (EMessage 0 sync_update_00) w).2 = [])
  ∧ (let w := world_after two_in_r1 in
     rooms (server w) !! "r1" = Some (mkRoom 0 [0; 1])
     ∧ is_open (server w) 1 = true
     ∧ (deliver (EMessage 0 sync_update_123) w).2
       = [Log (ErrorHandlingMessage OtherError)]).
Proof. vm_compute. repeat split; reflexivity. Qed.


(** Witness of [broadcast_excludes_sender_and_skips_closed]: three
    clients are in [r1]; client 1 is closing when client 0 sends the update
    0, 0, which goes to client 2 alone. *)
Lemma broadcast_excludes_sender_and_skips_closed_witness :
  let s := server (world_after (two_in_r1
                                ++ [EConnection (Some "r1"); EClosing 1])) in
  let n := 0 in
  let ws := 0 in
  let raw := sync_update_00 in
  let message := mkMessage (Some (JStr "sync-update")) (PBytes bytes_00) in
  let kind := "sync-update" in
  (rooms s !! "r1" = Some (mkRoom 0 [0; 1; 2])
   ∧ is_open s 1 = false
   ∧ recipients s ws [0; 1; 2] = [2])
  ∧ ∃ s' k out,
      handleMessage ws raw (mkWorld s n) = (tt, mkWorld s' k, out)
      ∧ (∀ frame, Send ws frame ∉ out)
      ∧ (∀ c frame, Send c frame ∈ out → is_open s c = true)
      ∧ (∀ r room,
           roomId_of s ws = Some r → r ≠ "" → rooms s !! r = Some room →
           (kind = "sync-update" → is_Some (doc_of s ws)) →
           (kind = "sync-update" →
            ∀ update, data message = PBytes update →
                      throws_at s (doc room) update = None) →
           (kind ≠ "custom-message" →
            ∃ update, data message = PBytes update) →
           out = stamped kind (data message) n
                   (recipients s ws (clients room))
           ∧ omap target out = recipients s ws (clients room)).
Proof.
  intros s n ws raw message kind. split.
  - vm_compute. repeat split; reflexivity.
  - apply (broadcast_excludes_sender_and_skips_closed ws raw s n message
             kind).
    + vm_compute. reflexivity.
    + reflexivity.
    + apply list_elem_of_here.
Defined.

(** Witness of [presence_and_custom_relayed_verbatim]: a custom message
    that carries an object. *)
Lemma presence_and_custom_relayed_verbatim_witness :
  let w := world_after two_in_r1 in
  let ws := 0 in
  let kind := "custom-message" in
  let props := [("type", JStr kind); ("data", JObj [("cursor", JNum 7)])] in
  verbatim kind (get "data" props)
  ∧ ∃ k out,
      deliver (EMessage ws (Text (JObj props))) w
      = (tt, mkWorld (server w) k, out)
      ∧ (verbatim kind (get "data" props) →
         ∃ r room,
           roomId_of (server w) ws = Some r
           ∧ rooms (server w) !! r = Some room
           ∧ omap target out = recipients (server w) ws (clients room)
           ∧ ∀ c frame, Send c frame ∈ out →
               ∃ props',
                 frame = Text (JObj props')
                 ∧ get "type" props' = Some (JStr kind)
                 ∧ get "data" props' = get "data" props).
Proof.
  intros w ws kind props. split.
  - split; reflexivity.
  - apply (presence_and_custom_relayed_verbatim two_in_r1 w
             (output_after two_in_r1) ws props kind).
    + apply surjective_pairing.
    + vm_compute. apply list_elem_of_here.
    + reflexivity.
    + by right.
Defined.

(** C6 as stated fails: a custom message whose payload is the array
    [[300]] reaches the other member as [[44]]. *)
Lemma custom_array_not_relayed_verbatim :
  (deliver (EMessage 0 (frame_of "custom-message" (JArr [JNum 300])))
     (world_after two_in_r1)).2
  = [Send 1 (Text (JObj [("type", JStr "custom-message");
                         ("data", JArr [JNum 44]);
                         ("timestamp", JNum 1700000000000)]))].
Proof. vm_compute. reflexivity. Qed.

(** Witness of [undecodable_or_unknown_frame_dropped]: client 0 sends
    text that is not JSON, then a valid update. *)
Lemma undecodable_or_unknown_frame_dropped_witness :
  let s := server (world_after two_in_r1) in
  let n := 0 in
  let ws := 0 in
  let raw := Malformed in
  let evs := [EMessage 0 sync_update_00] in
  ∃ entry,
    deliver (EMessage ws raw) (mkWorld s n) = (tt, mkWorld s n, [Log entry])
    ∧ forEach (EMessage ws raw :: evs) deliver (mkWorld s n)
      = let '(u, w', out) := forEach evs deliver (mkWorld s n) in
        (u, w', Log entry :: out).
Proof.
  intros s n ws raw evs.
  apply (undecodable_or_unknown_frame_dropped ws raw s n evs).
  - vm_compute. apply list_elem_of_here.
  - left. exists SyntaxError. reflexivity.
Defined.

(** Witness of [silent_session_evicted]: client 1 of [r1] stays silent
    while client 0 goes on. *)
Lemma silent_session_evicted_witness :
  let w := world_after two_in_r1 in
  let ws := 1 in
  let mid := [EMessage 0 sync_update_00; EPong 0] in
  (∃ w1 out1,
     deliver EInterval w = (tt, w1, out1)
     ∧ swept (server w) (server w1) out1 ws)
  ∧ (∃ w1,
       deliver (EPong ws) w = (tt, w1, [])
       ∧ peek isAlive (server w1) ws = Some true)
  ∧ ∃ w2 out2 w3 out3 r room,
      forEach (EInterval :: mid) deliver w = (tt, w2, out2)
      ∧ deliver EInterval w2 = (tt, w3, out3)
      ∧ Terminate ws ∈ out3
      ∧ (Ping ws ∉ out3)
      ∧ ws ∈ wss_clients (server w3)
      ∧ roomId_of (server w3) ws = Some r
      ∧ rooms (server w3) !! r = Some room
      ∧ ws ∈ clients room
      ∧ ∃ w4 out4,
          deliver (EClose ws) w3 = (tt, w4, out4)
          ∧ (ws ∉ wss_clients (server w4))
          ∧ rooms (server w4) !! r
            = (if bool_decide (Set_delete ws (clients room) = [])
               then None
               else Some (mkRoom (doc room) (Set_delete ws (clients room))))
          ∧ (clients room = [ws] → rooms (server w4) !! r = None).
Proof.
  intros w ws mid.
  apply (silent_session_evicted two_in_r1 w (output_after two_in_r1) ws mid).
  - apply surjective_pairing.
  - vm_compute. apply list_elem_of_further, list_elem_of_here.
  - repeat constructor; discriminate.
Defined.

(** Witness of [sync_request_answered_to_requester]: client 1 asks after
    the update of client 0. *)
Lemma sync_request_answered_to_requester_witness :
  let w := world_after two_in_r1_after_update in
  let ws := 1 in
  let raw := sync_request in
  ∃ r room d,
    roomId_of (server w) ws = Some r
    ∧ rooms (server w) !! r = Some room
    ∧ ws ∈ clients room
    ∧ docs (server w) !! doc room = Some d
    ∧ deliver (EMessage ws raw) w =
      (tt, mkWorld (server w) (S (reads w)),
       [Send ws (createMessage "sync-response"
                   (PBytes (encodeStateVector d)) (Date_now (reads w)))])
    ∧ parseMessage (createMessage "sync-response"
                      (PBytes (encodeStateVector d)) (Date_now (reads w)))
      = Ok (mkMessage (Some (JStr "sync-response"))
              (PBytes (encodeStateVector d))).
Proof.
  intros w ws raw.
  apply (sync_request_answered_to_requester two_in_r1_after_update w
           (output_after two_in_r1_after_update) ws raw
           (mkMessage (Some (JStr "sync-request")) PUndefined)).
  - apply surjective_pairing.
  - vm_compute. apply list_elem_of_further, list_elem_of_here.
  - reflexivity.
  - reflexivity.
Defined.

(** Witness of [handlers_return_at_their_guards]: a socket object that
    has neither room nor document, on a server without rooms. *)
Lemma handlers_return_at_their_guards_witness :
  let s := mkServer ∅ [] [mkSocket None None None None OPEN] [] in
  let w := mkWorld s 0 in
  handleSyncUpdate 0 bytes_123 w = (Ok tt, w, [])
  ∧ handleSyncRequest 0 w = (tt, w, [])
  ∧ handleAwarenessUpdate 0 bytes_123 w = (tt, w, [])
  ∧ handleCustomMessage 0 (PValue JNull) w = (tt, w, [])
  ∧ leaveRoom 0 "r1" w = (tt, w, []).
Proof.
  intros s w.
  destruct (handlers_return_at_their_guards s 0 0)
    as (Hupdate & Hrequest & Hawareness & Hcustom & Hleave).
  split; [ | split; [ | split; [ | split ]]].
  - apply Hupdate. left. reflexivity.
  - apply Hrequest. reflexivity.
  - apply Hawareness. left. reflexivity.
  - apply Hcustom. left. reflexivity.
  - apply Hleave. reflexivity.
Defined.

(** C10 as stated fails: a session that still has its document is
    answered a [sync-request] although its room id is no longer in the
    registry. Client 0 was alone in [r1] and has closed. *)
Lemma sync_request_answered_without_room :
  let w := world_after [EConnection (Some "r1"); EClose 0] in
  rooms (server w) !! "r1" = None
  ∧ roomId_of (server w) 0 = Some "r1"
  ∧ (handleMessage 0 sync_request w).2
    = [Send 0 (Text (JObj [("type", JStr "sync-response");
                           ("data", JArr []);
                           ("timestamp", JNum 1700000000000)]))].
Proof. vm_compute. repeat split; reflexivity. Qed.

(** ** The further properties on concrete runs *)

(** Witness of [array_payload_becomes_bytes]: an update frame with the
    array 1, 2, 3. *)
Lemma array_payload_becomes_bytes_witness :
  let elems := [JNum 1; JNum 2; JNum 3] in
  let props := [("type", JStr "sync-update"); ("data", JArr elems)] in
  (∀ message,
     parseMessage (Text (JObj props)) = Ok message →
     ∃ bytes, data message = PBytes bytes ∧ length bytes = length elems)
  ∧ (forallb primitive elems = true →
     ∃ bytes,
       parseMessage (Text (JObj props))
       = Ok (mkMessage (get "type" props) (PBytes bytes)))
  ∧ (∀ raw message elems',
       parseMessage raw = Ok message → data message ≠ PValue (JArr elems')).
Proof.
  intros elems props.
  apply (array_payload_becomes_bytes props elems).
  reflexivity.
Defined.

(** Witness of [decoded_payload_is_settled]: a custom message that carries
    a number. *)
Lemma decoded_payload_is_settled_witness :
  let kind := "custom-message" in
  let kind' := "sync-update" in
  let p := PValue (JNum 7) in
  ∃ p',
    parseMessage (createMessage kind p (Date_now 0))
    = Ok (mkMessage (Some (JStr kind)) p')
    ∧ parseMessage (createMessage kind' p' (Date_now 1))
      = Ok (mkMessage (Some (JStr kind')) p').
Proof.
  intros kind kind' p.
  apply (decoded_payload_is_settled kind kind' p (Date_now 0) (Date_now 1)).
  intros elems. discriminate.
Defined.

(** Witness of [join_then_leave_restores_registry]: a socket joins and
    leaves [r1], where client 0 is. *)
Lemma join_then_leave_restores_registry_witness :
  let s := server (world_after [EConnection (Some "r1")]) in
  rooms (server (leaveRoom 7 "r1" (joinRoom 7 "r1" (mkWorld s 0)).1.2).1.2)
  = rooms s.
Proof.
  intros s.
  apply (join_then_leave_restores_registry s 0 7 "r1").
  intros room Hroom. vm_compute in Hroom. injection Hroom as <-.
  split; [ | discriminate].
  apply not_elem_of_cons. split; [discriminate | apply not_elem_of_nil].
Defined.

(** Witness of [leave_by_non_member_changes_nothing]: a socket that is not
    in [r1] leaves it. *)
Lemma leave_by_non_member_changes_nothing_witness :
  let s := server (world_after [EConnection (Some "r1")]) in
  leaveRoom 7 "r1" (mkWorld s 0)
  = (tt, mkWorld s 0, [Log (ClientLeftRoom "r1" 1)]).
Proof.
  intros s.
  apply (leave_by_non_member_changes_nothing s 0 7 "r1" (mkRoom 0 [0])).
  - reflexivity.
  - apply not_elem_of_cons. split; [discriminate | apply not_elem_of_nil].
  - discriminate.
Defined.

(** Witness of [relay_stays_in_room]: client 0 of [two_in_r1] sends an
    update. *)
Lemma relay_stays_in_room_witness :
  let w := world_after two_in_r1 in
  let ws := 0 in
  ∃ w' out,
    deliver (EMessage ws sync_update_00) w = (tt, w', out)
    ∧ ∀ e, e ∈ out →
        match e with
        | Send c _ =>
            c ∈ wss_clients (server w)
            ∧ roomId_of (server w) c = roomId_of (server w) ws
        | Log _ => True
        | _ => False
        end.
Proof.
  intros w ws.
  apply (relay_stays_in_room two_in_r1 w (output_after two_in_r1) ws
           sync_update_00).
  - apply surjective_pairing.
  - vm_compute. apply list_elem_of_here.
Defined.

(** Witness of [documents_change_only_by_update_or_creation]: the update
    of client 0. *)
Lemma documents_change_only_by_update_or_creation_witness :
  let w := world_after two_in_r1 in
  let e := EMessage 0 sync_update_00 in
  ∃ w' out,
    deliver e w = (tt, w', out) ∧ docs_step e (server w) (server w').
Proof.
  intros w e.
  apply (documents_change_only_by_update_or_creation two_in_r1 w
           (output_after two_in_r1) e).
  apply surjective_pairing.
Defined.

(** Witness of [other_rooms_untouched_by_frame]: client 0 of [r1] sends an
    update while client 2 is in [r2]. *)
Lemma other_rooms_untouched_by_frame_witness :
  let evs := two_in_r1 ++ [EConnection (Some "r2")] in
  let w := world_after evs in
  let ws := 0 in
  ∃ w' out,
    deliver (EMessage ws sync_update_00) w = (tt, w', out)
    ∧ rooms (server w') = rooms (server w)
    ∧ ∀ r room,
        rooms (server w) !! r = Some room →
        roomId_of (server w) ws ≠ Some r →
        docs (server w') !! doc room = docs (server w) !! doc room.
Proof.
  intros evs w ws.
  apply (other_rooms_untouched_by_frame evs w (output_after evs) ws
           sync_update_00).
  - apply surjective_pairing.
  - vm_compute. apply list_elem_of_here.
Defined.

(** Witness of [updates_applied_and_relayed_in_order]: client 0 sends the
    bytes 1, 2, 3, which the library throws on, and then the update
    0, 0. *)
Lemma updates_applied_and_relayed_in_order_witness :
  let w := world_after two_in_r1 in
  let ws := 0 in
  let raws := [sync_update_123; sync_update_00] in
  let us := [bytes_123; bytes_00] in
  ∃ r room d w' out,
    roomId_of (server w) ws = Some r
    ∧ rooms (server w) !! r = Some room
    ∧ docs (server w) !! doc room = Some d
    ∧ forEach (EMessage ws <$> raws) deliver w = (tt, w', out)
    ∧ docs (server w') !! doc room = Some (foldl applyUpdate d us)
    ∧ (∀ c, c ∈ clients room → c ≠ ws → is_open (server w) c = true →
         Forall2 carries (frames_to c out) (accepted_updates d us))
    ∧ frames_to ws out = [].
Proof.
  intros w ws raws us.
  apply (updates_applied_and_relayed_in_order two_in_r1 w
           (output_after two_in_r1) ws raws us).
  - apply surjective_pairing.
  - vm_compute. apply list_elem_of_here.
  - constructor; [ | constructor; [ | constructor ]].
    + exists (mkMessage (Some (JStr "sync-update")) (PBytes bytes_123)).
      split; [reflexivity | split; reflexivity].
    + exists (mkMessage (Some (JStr "sync-update")) (PBytes bytes_00)).
      split; [reflexivity | split; reflexivity].
Defined.

(** Witness of [late_joiner_receives_all_updates]: a third client joins
    [r1] after client 0 has sent the bytes 1, 2, 3 and the update 0, 0. *)
Lemma late_joiner_receives_all_updates_witness :
  let w := world_after two_in_r1 in
  let ws := 0 in
  let raws := [sync_update_123; sync_update_00] in
  let us := [bytes_123; bytes_00] in
  let p := Some "r1" in
  ∃ room d t,
    rooms (server w) !! requested p = Some room
    ∧ docs (server w) !! doc room = Some d
    ∧ frames_to (length (sockets (server w)))
        (run (two_in_r1 ++ (EMessage ws <$> raws) ++ [EConnection p])).2
      = (if bool_decide
              (0 < length (encodeStateAsUpdate (foldl applyUpdate d us)))
         then [createMessage "sync-update"
                 (PBytes (encodeStateAsUpdate (foldl applyUpdate d us))) t]
         else [])
    ∧ foldl applyUpdate d us = foldl applyUpdate d (accepted_updates d us).
Proof.
  intros w ws raws us p.
  destruct (late_joiner_receives_all_updates two_in_r1 w
              (output_after two_in_r1) ws raws us p)
    as (room & d & t & Hroom & Hd & Hframes & Hatomic).
  - apply surjective_pairing.
  - vm_compute. apply list_elem_of_here.
  - constructor; [ | constructor; [ | constructor ]].
    + exists (mkMessage (Some (JStr "sync-update")) (PBytes bytes_123)).
      split; [reflexivity | split; reflexivity].
    + exists (mkMessage (Some (JStr "sync-update")) (PBytes bytes_00)).
      split; [reflexivity | split; reflexivity].
  - reflexivity.
  - exists room, d, t.
    split; [exact Hroom | ]. split; [exact Hd | ]. split; [exact Hframes | ].
    apply Hatomic. intros d0 u e. cbn.
    destruct (decodable u); [discriminate | reflexivity].
Defined.

(** Witness of [closed_socket_left_alone]: client 1 of [r1] has closed;
    client 0 sends an update and the heartbeat fires. *)
Lemma closed_socket_left_alone_witness :
  let w := world_after (two_in_r1 ++ [EClose 1]) in
  let ws := 1 in
  let later := [EMessage 0 sync_update_00; EInterval] in
  ∃ w' out,
    forEach later deliver w = (tt, w', out)
    ∧ (ws ∉ wss_clients (server w'))
    ∧ (∀ r room, rooms (server w') !! r = Some room → ws ∉ clients room)
    ∧ ∀ e, e ∈ out → target e ≠ Some ws.
Proof.
  intros w ws later.
  apply (closed_socket_left_alone two_in_r1 ws w
           (output_after (two_in_r1 ++ [EClose 1])) later).
  - apply surjective_pairing.
  - vm_compute. lia.
Defined.

(** Witness of [heartbeat_touches_only_connected_sockets]: a sweep over
    [two_in_r1]. *)
Lemma heartbeat_touches_only_connected_sockets_witness :
  let w := world_after two_in_r1 in
  ∃ s' out,
    deliver EInterval w = (tt, mkWorld s' (reads w), out)
    ∧ rooms s' = rooms (server w)
    ∧ wss_clients s' = wss_clients (server w)
    ∧ docs s' = docs (server w)
    ∧ (∀ ws, roomId_of s' ws = roomId_of (server w) ws
             ∧ doc_of s' ws = doc_of (server w) ws)
    ∧ (∀ ws, ws ∉ wss_clients (server w) →
             sockets s' !! ws = sockets (server w) !! ws)
    ∧ ∀ e, e ∈ out →
        e = Log TerminatingDeadConnection
        ∨ ∃ ws, ws ∈ wss_clients (server w) ∧ (e = Ping ws ∨ e = Terminate ws).
Proof.
  intros w.
  apply (heartbeat_touches_only_connected_sockets two_in_r1 w
           (output_after two_in_r1)).
  apply surjective_pairing.
Defined.

(** Witness of [responsive_session_survives_sweep]: client 1 answers the
    probe of a first sweep while client 0 goes on. *)
Lemma responsive_session_survives_sweep_witness :
  let evs := two_in_r1 ++ [EInterval] in
  let w := world_after evs in
  let ws := 1 in
  let mid := [EMessage 0 sync_update_00; EPong 0; EClosing 1] in
  ∃ w' out,
    forEach (EPong ws :: mid ++ [EInterval]) deliver w = (tt, w', out)
    ∧ (Ping ws ∈ out) ∧ (Terminate ws ∉ out)
    ∧ (ws ∈ wss_clients (server w'))
    ∧ peek isAlive (server w') ws = Some false.
Proof.
  intros evs w ws mid.
  apply (responsive_session_survives_sweep evs w (output_after evs) ws mid).
  - apply surjective_pairing.
  - vm_compute. apply list_elem_of_further, list_elem_of_here.
  - repeat constructor; discriminate.
Defined.

(** Witness of [connection_joins_requested_room]: a third connection that
    names no room. *)
Lemma connection_joins_requested_room_witness :
  let w := world_after two_in_r1 in
  let p := None in
  ∃ w' out room',
    deliver (EConnection p) w = (tt, w', out)
    ∧ wss_clients (server w')
      = wss_clients (server w) ++ [length (sockets (server w))]
    ∧ rooms (server w') !! requested p = Some room'
    ∧ clients room'
      = match rooms (server w) !! requested p with
        | Some room => clients room
        | None => []
        end ++ [length (sockets (server w))]
    ∧ sockets (server w')
      = sockets (server w)
        ++ [mkSocket (Some true) None (Some (requested p)) (Some (doc room'))
              OPEN]
    ∧ (∀ r, r ≠ requested p →
            rooms (server w') !! r = rooms (server w) !! r)
    ∧ (∀ e c, e ∈ out → target e = Some c →
              c = length (sockets (server w)))
    ∧ (requested p = "default"
       ↔ p = None ∨ p = Some "" ∨ p = Some "default").
Proof.
  intros w p.
  apply (connection_joins_requested_room two_in_r1 w
           (output_after two_in_r1) p).
  apply surjective_pairing.
Defined.
